(** * KIJ volleyball tournament backend: scoring, completion and standings

    A shallow embedding of [backend/main.py] (the request handlers) and
    [backend/database.py] (the persistence adapter and the standings
    computation), with the properties of the tournament state engine proved
    over it.

    Conventions of the embedding.
    - Python [int] is [Z]; [str] is [string]; [None]-able values are [option].
    - A Python dict used as a mapping is a [gmap string _]; where the
      iteration order of a dict is observable (the standings computation) it
      is an association list in insertion order.
    - The relational store is a pair of tables keyed by their UNIQUE column;
      the rows of [game_sets] are kept with the game row they reference.
      Whether the store raises an error inside the write transaction of a
      request is an input of the handler, the flag [db_fails]; reads
      succeed.  What the columns of [init_tables] do to the values is
      modelled with [pg_varchar], [varchar] and [int4]: which values a
      column takes, and what it then holds.  [save_team] runs its values
      through the columns, so there [db_fails] stands for the other
      failures of the store (a dropped connection).  For [save_game] the
      flag is the whole verdict of the store, [game_refused] says which
      data force it, and an accepted new row holds the names as the
      columns cut them.
    - [datetime.now()] is an input of the handler.
    - A handler is a function on the [world]: the store and the log of
      broadcast messages, in the order they were published. *)

From stdpp Require Import gmap strings list pretty sorting.
From Stdlib Require Import ZArith Lia.

(** ** Configuration *)

Definition MAX_TEAMS : nat := 15.
Definition SETS_PER_GAME : nat := 2.

(** ** Request bodies (the pydantic models) *)

Record TeamCreate := {
  tc_team_name : string;
  tc_player1 : string;
  tc_player2 : string;
  tc_pool : string
}.

Record GameCreate := {
  gc_team1 : string;
  gc_team2 : string
}.

Record ScoreUpdate := {
  su_game_key : string;
  su_set_key : string;
  su_team : string;
  su_delta : Z
}.

Record CompleteGame := {
  cg_game_key : string
}.

(** ** Dict-shaped records exchanged with the persistence adapter *)

Record SetScore := {
  team1_score : Z;
  team2_score : Z
}.

Record Game := {
  team1 : string;
  team2 : string;
  sets : gmap string SetScore;
  completed : bool;
  winner : option string;
  start_time : option Z;
  end_time : option Z
}.

(** The value stored under a team name by [load_all_teams]; [pool] is
    optional because [calculate_standings] reads it with a default. *)
Record Team := {
  player1 : string;
  player2 : string;
  pool : option string
}.

#[global] Instance SetScore_eq_dec : EqDecision SetScore.
Proof. solve_decision. Defined.

#[global] Instance Game_eq_dec : EqDecision Game.
Proof. solve_decision. Defined.

#[global] Instance Team_eq_dec : EqDecision Team.
Proof. solve_decision. Defined.

(** ** The store *)

(** A row of [teams], keyed by [team_name]. *)
Record team_row := {
  tr_player1 : string;
  tr_player2 : string;
  tr_pool : string
}.

(** A row of [games], keyed by [game_key], together with the rows of
    [game_sets] that reference it, keyed by [set_number]. *)
Record game_row := {
  team1_name : string;
  team2_name : string;
  gr_completed : bool;
  gr_winner : option string;
  gr_start_time : option Z;
  gr_end_time : option Z;
  set_rows : gmap nat SetScore
}.

Record database := {
  teams_tbl : gmap string team_row;
  games_tbl : gmap string game_row
}.

(** The store after [init_tables] on a fresh database. *)
Definition empty_database : database :=
  {| teams_tbl := ∅; games_tbl := ∅ |}.

(** ** Broadcast messages *)

Inductive message :=
| teams_updated (teams : gmap string Team)
| games_updated (games : gmap string Game)
| score_updated (game_key : string) (games : gmap string Game)
| game_completed (games : gmap string Game)
| tournament_reset.

Record world := {
  db : database;
  published : list message
}.

Definition initial_world : world :=
  {| db := empty_database; published := [] |}.

(** ** Handlers as a state-and-exception monad *)

Inductive exn :=
| HTTPException (status_code : nat) (detail : string)
| KeyError (key : string)
| DatabaseError.

Inductive outcome (A : Type) :=
| Returned (a : A)
| Raised (e : exn).
Arguments Returned {A} a.
Arguments Raised {A} e.

Definition handler (A : Type) : Type := world -> outcome A * world.

Definition h_ret {A} (a : A) : handler A := fun w => (Returned a, w).

Definition h_bind {A B} (c : handler A) (k : A -> handler B) : handler B :=
  fun w =>
    match c w with
    | (Returned a, w') => k a w'
    | (Raised e, w') => (Raised e, w')
    end.

Definition raise {A} (e : exn) : handler A := fun w => (Raised e, w).

Definition read_db : handler database := fun w => (Returned (db w), w).

Definition write_db (d : database) : handler unit :=
  fun w => (Returned tt, {| db := d; published := published w |}).

(** [manager.broadcast(message)]: the message is appended to the log. *)
Definition broadcast (m : message) : handler unit :=
  fun w => (Returned tt, {| db := db w; published := published w ++ [m] |}).

(** Lookup in a dict with Python's [d[k]]: a missing key raises. *)
Definition subscript {V} (d : gmap string V) (k : string) : handler V :=
  match d !! k with
  | Some v => h_ret v
  | None => raise (KeyError k)
  end.

Declare Scope handler_scope.
Delimit Scope handler_scope with handler.
Notation "x <- c ;; k" := (h_bind c (fun x => k))
  (at level 100, c at next level, right associativity) : handler_scope.
Notation "c ;;; k" := (h_bind c (fun _ => k))
  (at level 100, right associativity) : handler_scope.
Local Open Scope handler_scope.

(** ** database.py: the columns of [init_tables] *)

Fixpoint is_spaces (s : string) : bool :=
  match s with
  | EmptyString => true
  | String c s' => bool_decide (String c EmptyString = " ") && is_spaces s'
  end.

(** Assignment to a [VARCHAR(n)] column.  A value of at most [n] characters
    is stored as it is; a longer one is cut to its first [n] characters when
    all that is cut off is spaces, and is refused with an error otherwise
    ([None]). *)
Definition pg_varchar (n : nat) (s : string) : option string :=
  if bool_decide (String.length s <= n)%nat then Some s
  else if is_spaces (String.substring n (String.length s - n) s)
       then Some (String.substring 0 n s)
       else None.

(** What a [VARCHAR(n)] column holds once the write of [s] was accepted:
    the first [n] characters. *)
Definition varchar (n : nat) (s : string) : string := String.substring 0 n s.

(** The values of an [INTEGER] column. *)
Definition INT4_MIN : Z := -2147483648.
Definition INT4_MAX : Z := 2147483647.

Definition int4 (z : Z) : Prop := (INT4_MIN <= z <= INT4_MAX)%Z.

#[global] Instance int4_dec z : Decision (int4 z).
Proof. unfold int4. apply _. Defined.

(** The row that the INSERT of [save_team] builds: [team_name], [player1]
    and [player2] are [VARCHAR(255)], [pool] is [VARCHAR(1)]; [None] where
    a column refuses its value. *)
Definition team_insert (team_name p1 p2 pl : string) : option (string * team_row) :=
  match pg_varchar 255 team_name, pg_varchar 255 p1, pg_varchar 255 p2, pg_varchar 1 pl with
  | Some n, Some a, Some b, Some c =>
      Some (n, {| tr_player1 := a; tr_player2 := b; tr_pool := c |})
  | _, _, _, _ => None
  end.

(** ** database.py *)

(** [f"set{n}"] *)
Definition set_key (n : nat) : string := "set" +:+ pretty n.

(** The set numbers [range(1, SETS_PER_GAME + 1)]. *)
Definition set_numbers : list nat := seq 1 SETS_PER_GAME.

Definition zero_score : SetScore := {| team1_score := 0; team2_score := 0 |}.

Definition default_sets : gmap string SetScore :=
  <["set1" := zero_score]> (<["set2" := zero_score]> ∅).

Definition load_team (r : team_row) : Team :=
  {| player1 := tr_player1 r; player2 := tr_player2 r; pool := Some (tr_pool r) |}.

Definition load_all_teams : handler (gmap string Team) :=
  d <- read_db ;; h_ret (load_team <$> teams_tbl d).

(** [save_team]: only a unique violation is caught and reported as [False];
    any other error of the store propagates, also the error of a column
    that refuses its value.  The unique violation is on the name as the
    column holds it. *)
Definition save_team (db_fails : bool) (team_name p1 p2 pl : string) : handler bool :=
  d <- read_db ;;
  if db_fails then raise DatabaseError
  else match team_insert team_name p1 p2 pl with
       | None => raise DatabaseError
       | Some (n, r) =>
           match teams_tbl d !! n with
           | Some _ => h_ret false
           | None =>
               write_db {| teams_tbl := <[n := r]> (teams_tbl d);
                           games_tbl := games_tbl d |} ;;;
               h_ret true
           end
       end.

Definition delete_team (db_fails : bool) (team_name : string) : handler bool :=
  d <- read_db ;;
  if db_fails then raise DatabaseError
  else match teams_tbl d !! team_name with
       | Some _ =>
           write_db {| teams_tbl := delete team_name (teams_tbl d);
                       games_tbl := games_tbl d |} ;;;
           h_ret true
       | None => h_ret false
       end.

(** The joined rows of one game, as [load_all_games] folds them: both sets
    start at zero and each stored set row overrides its entry.  [game_sets]
    only ever holds the set numbers that [save_game] writes, so the rows are
    read back by those numbers. *)
Definition load_sets (rows : gmap nat SetScore) : gmap string SetScore :=
  foldl (fun acc n =>
           match rows !! n with
           | Some sc => <[set_key n := sc]> acc
           | None => acc
           end) default_sets set_numbers.

Definition load_game (r : game_row) : Game :=
  {| team1 := team1_name r;
     team2 := team2_name r;
     sets := load_sets (set_rows r);
     completed := gr_completed r;
     winner := gr_winner r;
     start_time := gr_start_time r;
     end_time := gr_end_time r |}.

Definition load_all_games : handler (gmap string Game) :=
  d <- read_db ;; h_ret (load_game <$> games_tbl d).

(** The first statement of [save_game]: insert the game row, or on a
    conflicting [game_key] update [completed], [winner] and [end_time] only.
    The team names and the winner of a new row are held by [VARCHAR(255)]
    columns, which keep the first 255 characters of an accepted value.  On
    a conflict the winner is written as given: there the handlers write no
    winner, ["Split"], or a team name read from the row, which the column
    already holds. *)
Definition upsert_game_row (old : option game_row) (g : Game) : game_row :=
  match old with
  | Some r =>
      {| team1_name := team1_name r;
         team2_name := team2_name r;
         gr_completed := completed g;
         gr_winner := winner g;
         gr_start_time := gr_start_time r;
         gr_end_time := end_time g;
         set_rows := set_rows r |}
  | None =>
      {| team1_name := varchar 255 (team1 g);
         team2_name := varchar 255 (team2 g);
         gr_completed := completed g;
         gr_winner := varchar 255 <$> winner g;
         gr_start_time := start_time g;
         gr_end_time := end_time g;
         set_rows := ∅ |}
  end.

(** The loop of [save_game] over the set numbers: a set present in the dict
    is upserted into [game_sets]. *)
Definition upsert_set_rows (g : Game) (rows : gmap nat SetScore) : gmap nat SetScore :=
  foldl (fun acc n =>
           match sets g !! set_key n with
           | Some sc => <[n := {| team1_score := team1_score sc;
                                  team2_score := team2_score sc |}]> acc
           | None => acc
           end) rows set_numbers.

Definition save_game_row (old : option game_row) (g : Game) : game_row :=
  let r := upsert_game_row old g in
  {| team1_name := team1_name r;
     team2_name := team2_name r;
     gr_completed := gr_completed r;
     gr_winner := gr_winner r;
     gr_start_time := gr_start_time r;
     gr_end_time := gr_end_time r;
     set_rows := upsert_set_rows g (set_rows r) |}.

(** [save_game]: any error inside the transaction is caught, the transaction
    is rolled back and [False] is returned.  [db_fails] is the verdict of
    the store on this transaction; [game_refused] below says for which data
    the columns leave it no choice.  The key is written as given: the
    handlers pass a key read from the store, or one that ends in the digits
    of the time stamp, and neither is cut by [VARCHAR(512)]. *)
Definition save_game (db_fails : bool) (game_key : string) (g : Game) : handler bool :=
  d <- read_db ;;
  if db_fails then h_ret false
  else
    write_db {| teams_tbl := teams_tbl d;
                games_tbl := <[game_key := save_game_row (games_tbl d !! game_key) g]>
                               (games_tbl d) |} ;;;
    h_ret true.

Definition delete_all_data (db_fails : bool) : handler bool :=
  if db_fails then h_ret false
  else write_db empty_database ;;; h_ret true.

(** ** main.py *)

(** [for x in l: acc = f(acc, x)], with exceptions. *)
Fixpoint h_foldl {A B} (f : A -> B -> handler A) (a : A) (l : list B) : handler A :=
  match l with
  | [] => h_ret a
  | x :: l' => a' <- f a x ;; h_foldl f a' l'
  end.

(** [POST /api/teams] *)
Definition create_team (db_fails : bool) (body : TeamCreate) : handler string :=
  teams <- load_all_teams ;;
  if bool_decide (MAX_TEAMS <= size teams)%nat then
    raise (HTTPException 400 ("Maximum " +:+ pretty MAX_TEAMS +:+ " teams allowed"))
  else if bool_decide (is_Some (teams !! tc_team_name body)) then
    raise (HTTPException 400 "Team name already exists")
  else
    ok <- save_team db_fails (tc_team_name body) (tc_player1 body)
                    (tc_player2 body) (tc_pool body) ;;
    if negb ok then raise (HTTPException 500 "Failed to save team")
    else
      teams' <- load_all_teams ;;
      broadcast (teams_updated teams') ;;;
      h_ret (tc_team_name body).

(** [DELETE /api/teams/{team_name}] *)
Definition remove_team (db_fails : bool) (team_name : string) : handler unit :=
  ok <- delete_team db_fails team_name ;;
  if negb ok then raise (HTTPException 404 "Team not found")
  else
    teams <- load_all_teams ;;
    broadcast (teams_updated teams) ;;;
    h_ret tt.

(** The dict built by [create_game]. *)
Definition new_game (body : GameCreate) (now : Z) : Game :=
  {| team1 := gc_team1 body;
     team2 := gc_team2 body;
     sets := default_sets;
     completed := false;
     winner := None;
     start_time := Some now;
     end_time := None |}.

(** [POST /api/games].  [stamp] is the clock rendered by
    [strftime('%Y%m%d_%H%M%S')] for the key, [now] the clock read for
    [start_time]. *)
Definition create_game (db_fails : bool) (stamp : string) (now : Z) (body : GameCreate)
  : handler (string * Game) :=
  let game_key := gc_team1 body +:+ "_vs_" +:+ gc_team2 body +:+ "_" +:+ stamp in
  let game_data := new_game body now in
  _ <- save_game db_fails game_key game_data ;;
  games <- load_all_games ;;
  broadcast (games_updated games) ;;;
  h_ret (game_key, game_data).

(** [d[field]] and [d[field] = v] on a set-score dict. *)
Definition score_get (s : SetScore) (field : string) : handler Z :=
  if decide (field = "team1_score") then h_ret (team1_score s)
  else if decide (field = "team2_score") then h_ret (team2_score s)
  else raise (KeyError field).

Definition score_set (s : SetScore) (field : string) (v : Z) : SetScore :=
  if decide (field = "team1_score") then {| team1_score := v; team2_score := team2_score s |}
  else if decide (field = "team2_score") then {| team1_score := team1_score s; team2_score := v |}
  else s.

Definition with_sets (g : Game) (s : gmap string SetScore) : Game :=
  {| team1 := team1 g; team2 := team2 g; sets := s; completed := completed g;
     winner := winner g; start_time := start_time g; end_time := end_time g |}.

(** [POST /api/games/score] *)
Definition update_score (db_fails : bool) (body : ScoreUpdate) : handler Game :=
  games <- load_all_games ;;
  match games !! su_game_key body with
  | None => raise (HTTPException 404 "Game not found")
  | Some game =>
      if completed game then raise (HTTPException 400 "Game already completed")
      else
        let score_field := su_team body +:+ "_score" in
        the_set <- subscript (sets game) (su_set_key body) ;;
        current <- score_get the_set score_field ;;
        let new_val := Z.max 0 (current + su_delta body) in
        let game' := with_sets game
                       (<[su_set_key body := score_set the_set score_field new_val]>
                          (sets game)) in
        _ <- save_game db_fails (su_game_key body) game' ;;
        all_games <- load_all_games ;;
        broadcast (score_updated (su_game_key body) all_games) ;;;
        subscript all_games (su_game_key body)
  end.

(** The body of the loop of [complete_game] over the set numbers. *)
Definition tally_set (game : Game) (acc : Z * Z) (sn : nat) : handler (Z * Z) :=
  let '(t1_sets, t2_sets) := acc in
  the_set <- subscript (sets game) (set_key sn) ;;
  let s1 := team1_score the_set in
  let s2 := team2_score the_set in
  if bool_decide (s1 > s2)%Z then h_ret (t1_sets + 1, t2_sets)%Z
  else if bool_decide (s2 > s1)%Z then h_ret (t1_sets, t2_sets + 1)%Z
  else h_ret (t1_sets, t2_sets).

Definition pick_winner (game : Game) (t1_sets t2_sets : Z) : string :=
  if bool_decide (t1_sets > t2_sets)%Z then team1 game
  else if bool_decide (t2_sets > t1_sets)%Z then team2 game
  else "Split".

Definition completed_game (game : Game) (w : string) (now : Z) : Game :=
  {| team1 := team1 game; team2 := team2 game; sets := sets game;
     completed := true; winner := Some w;
     start_time := start_time game; end_time := Some now |}.

(** [POST /api/games/complete] *)
Definition complete_game (db_fails : bool) (now : Z) (body : CompleteGame) : handler string :=
  games <- load_all_games ;;
  match games !! cg_game_key body with
  | None => raise (HTTPException 404 "Game not found")
  | Some game =>
      tallies <- h_foldl (tally_set game) (0, 0)%Z set_numbers ;;
      let w := pick_winner game tallies.1 tallies.2 in
      let game' := completed_game game w now in
      _ <- save_game db_fails (cg_game_key body) game' ;;
      all_games <- load_all_games ;;
      broadcast (game_completed all_games) ;;;
      h_ret w
  end.

(** [POST /api/admin/reset] *)
Definition reset_tournament (db_fails : bool) : handler unit :=
  ok <- delete_all_data db_fails ;;
  if negb ok then raise (HTTPException 500 "Reset failed")
  else broadcast tournament_reset ;;; h_ret tt.
(** ** The winner rule in the words of the specification *)

(** The scores of the sets of a game, by set index; a set that the dict
    lacks counts as zero-zero. *)
Definition set_score (g : Game) (n : nat) : SetScore :=
  default zero_score (sets g !! set_key n).

Definition set_scores (g : Game) : list SetScore := set_score g <$> set_numbers.

Definition team1_wins_set (s : SetScore) : Prop := (team2_score s < team1_score s)%Z.
Definition team2_wins_set (s : SetScore) : Prop := (team1_score s < team2_score s)%Z.

#[global] Instance team1_wins_set_dec s : Decision (team1_wins_set s).
Proof. unfold team1_wins_set. apply _. Defined.
#[global] Instance team2_wins_set_dec s : Decision (team2_wins_set s).
Proof. unfold team2_wins_set. apply _. Defined.

Definition set_wins1 (l : list SetScore) : nat := length (filter team1_wins_set l).
Definition set_wins2 (l : list SetScore) : nat := length (filter team2_wins_set l).

Definition winner_rule (t1 t2 : string) (l : list SetScore) : string :=
  if decide (set_wins2 l < set_wins1 l)%nat then t1
  else if decide (set_wins1 l < set_wins2 l)%nat then t2
  else "Split".

Definition game_winner (g : Game) : string :=
  winner_rule (team1 g) (team2 g) (set_scores g).

(** ** The effect of a save on the store *)

(** The store after a committed [save_game]. *)
Definition store_game (d : database) (key : string) (g : Game) : database :=
  {| teams_tbl := teams_tbl d;
     games_tbl := <[key := save_game_row (games_tbl d !! key) g]> (games_tbl d) |}.

Definition saved (db_fails : bool) (d : database) (key : string) (g : Game) : database :=
  if db_fails then d else store_game d key g.

(** What [load_all_games] returns on a store. *)
Definition games_of (d : database) : gmap string Game := load_game <$> games_tbl d.

(** The data of a [save_game] that the columns refuse: a key, a name or a
    winner that its [VARCHAR] column does not take, or a set score outside
    [INTEGER]. *)
Definition game_refused (game_key : string) (g : Game) : Prop :=
  pg_varchar 512 game_key = None
  \/ pg_varchar 255 (team1 g) = None
  \/ pg_varchar 255 (team2 g) = None
  \/ (exists w, winner g = Some w /\ pg_varchar 255 w = None)
  \/ (exists n sc, n ∈ set_numbers /\ sets g !! set_key n = Some sc
                   /\ ~ (int4 (team1_score sc) /\ int4 (team2_score sc))).

(** The winner of the dict, if any, has at most the 255 characters of its
    column. *)
Definition winner_fits (g : Game) : Prop :=
  match winner g with
  | Some v => (String.length v <= 255)%nat
  | None => True
  end.

(** [db_fails] is a verdict that the store can give on this [save_game]: it
    may fail for reasons of its own, but it never accepts refused data. *)
Definition store_verdict (db_fails : bool) (game_key : string) (g : Game) : Prop :=
  game_refused game_key g -> db_fails = true.


(** ** Concrete stores for the instances *)

Definition score (a b : Z) : SetScore := {| team1_score := a; team2_score := b |}.

(** A store holding one game, for the concrete instances below. *)
Definition one_game_world (key : string) (row : game_row) : world :=
  {| db := {| teams_tbl := ∅; games_tbl := {[ key := row ]} |}; published := [] |}.


(** A request to register [name] in the pool [pl]. *)
Definition team_request (name pl : string) : TeamCreate :=
  {| tc_team_name := name; tc_player1 := "Ann"; tc_player2 := "Bo"; tc_pool := pl |}.


Definition sample_row (done : bool) (s1 s2 : SetScore) : game_row :=
  {| team1_name := "Aces"; team2_name := "Blockers";
     gr_completed := done; gr_winner := None;
     gr_start_time := Some 100%Z; gr_end_time := None;
     set_rows := <[1%nat := s1]> (<[2%nat := s2]> ∅) |}.

(** ** Reading scores by side *)

(** The score of a side in a set, for the sides ["team1"] and ["team2"]. *)
Definition side_score (team : string) (s : SetScore) : Z :=
  if decide (team = "team1") then team1_score s else team2_score s.

(** The dict that [update_score] hands to [save_game]. *)
Definition adjusted_game (g : Game) (sk team : string) (delta : Z) (the_set : SetScore) : Game :=
  with_sets g
    (<[sk := score_set the_set (team +:+ "_score")
               (Z.max 0 (side_score team the_set + delta))]> (sets g)).

(** ** Requests and reachable worlds *)

Inductive request :=
| CreateTeam (body : TeamCreate)
| RemoveTeam (team_name : string)
| CreateGame (stamp : string) (body : GameCreate)
| UpdateScore (body : ScoreUpdate)
| CompleteGameReq (body : CompleteGame)
| ResetTournament.

(** The world after a request is served; [db_fails] and [now] are what the
    store and the clock do during that request. *)
Definition serve (db_fails : bool) (now : Z) (r : request) (w : world) : world :=
  match r with
  | CreateTeam body => (create_team db_fails body w).2
  | RemoveTeam team_name => (remove_team db_fails team_name w).2
  | CreateGame stamp body => (create_game db_fails stamp now body w).2
  | UpdateScore body => (update_score db_fails body w).2
  | CompleteGameReq body => (complete_game db_fails now body w).2
  | ResetTournament => (reset_tournament db_fails w).2
  end.

Inductive reachable : world -> Prop :=
| reachable_init : reachable initial_world
| reachable_serve w db_fails now r :
    reachable w -> reachable (serve db_fails now r w).

Definition nonneg (s : SetScore) : Prop := (0 <= team1_score s)%Z /\ (0 <= team2_score s)%Z.

(** Every stored set score is non-negative. *)
Definition scores_nonneg (d : database) : Prop :=
  forall key row n sc,
    games_tbl d !! key = Some row -> set_rows row !! n = Some sc -> nonneg sc.

(** The key that [create_game] builds. *)
Definition make_game_key (body : GameCreate) (stamp : string) : string :=
  gc_team1 body +:+ "_vs_" +:+ gc_team2 body +:+ "_" +:+ stamp.

(** The store after a committed [save_team] of the row [r] under the name
    [n]. *)
Definition store_team (d : database) (n : string) (r : team_row) : database :=
  {| teams_tbl := <[n := r]> (teams_tbl d); games_tbl := games_tbl d |}.

(** The row that the INSERT of [create_team] builds from the request. *)
Definition team_insert_of (body : TeamCreate) : option (string * team_row) :=
  team_insert (tc_team_name body) (tc_player1 body) (tc_player2 body) (tc_pool body).

Definition teams_of (d : database) : gmap string Team := load_team <$> teams_tbl d.

(** ** The end time of a game *)



(** ** database.py: the standings *)

(** An entry of the standings. *)
Record Standing := {
  st_team : string;
  st_pool : string;
  games_played : Z;
  set_wins : Z;
  set_losses : Z;
  points_for : Z;
  points_against : Z;
  point_differential : Z
}.

(** A dict whose iteration order is observed: the entries in insertion
    order, with distinct keys. *)
Fixpoint od_mem {V} (k : string) (l : list (string * V)) : bool :=
  match l with
  | [] => false
  | (k', _) :: l' => if decide (k' = k) then true else od_mem k l'
  end.

(** [d[k] = v]: an existing key keeps its place, a new key goes last. *)
Fixpoint od_set {V} (k : string) (v : V) (l : list (string * V)) : list (string * V) :=
  match l with
  | [] => [(k, v)]
  | (k', v') :: l' => if decide (k' = k) then (k', v) :: l' else (k', v') :: od_set k v l'
  end.

(** [d[k][field] = f(d[k][field])] for a key that is present. *)
Fixpoint od_alter {V} (f : V -> V) (k : string) (l : list (string * V)) : list (string * V) :=
  match l with
  | [] => []
  | (k', v') :: l' => if decide (k' = k) then (k', f v') :: l' else (k', v') :: od_alter f k l'
  end.

Definition zero_standing (team_name : string) (td : Team) : Standing :=
  {| st_team := team_name;
     st_pool := default "A" (pool td);
     games_played := 0;
     set_wins := 0;
     set_losses := 0;
     points_for := 0;
     points_against := 0;
     point_differential := 0 |}.

Definition add_games_played (x : Z) (e : Standing) : Standing :=
  {| st_team := st_team e; st_pool := st_pool e;
     games_played := games_played e + x;
     set_wins := set_wins e; set_losses := set_losses e;
     points_for := points_for e; points_against := points_against e;
     point_differential := point_differential e |}.

Definition add_set_wins (x : Z) (e : Standing) : Standing :=
  {| st_team := st_team e; st_pool := st_pool e;
     games_played := games_played e;
     set_wins := set_wins e + x; set_losses := set_losses e;
     points_for := points_for e; points_against := points_against e;
     point_differential := point_differential e |}.

Definition add_set_losses (x : Z) (e : Standing) : Standing :=
  {| st_team := st_team e; st_pool := st_pool e;
     games_played := games_played e;
     set_wins := set_wins e; set_losses := set_losses e + x;
     points_for := points_for e; points_against := points_against e;
     point_differential := point_differential e |}.

Definition add_points_for (x : Z) (e : Standing) : Standing :=
  {| st_team := st_team e; st_pool := st_pool e;
     games_played := games_played e;
     set_wins := set_wins e; set_losses := set_losses e;
     points_for := points_for e + x; points_against := points_against e;
     point_differential := point_differential e |}.

Definition add_points_against (x : Z) (e : Standing) : Standing :=
  {| st_team := st_team e; st_pool := st_pool e;
     games_played := games_played e;
     set_wins := set_wins e; set_losses := set_losses e;
     points_for := points_for e; points_against := points_against e + x;
     point_differential := point_differential e |}.

(** [e["point_differential"] = e["points_for"] - e["points_against"]] *)
Definition set_differential (e : Standing) : Standing :=
  {| st_team := st_team e; st_pool := st_pool e;
     games_played := games_played e;
     set_wins := set_wins e; set_losses := set_losses e;
     points_for := points_for e; points_against := points_against e;
     point_differential := points_for e - points_against e |}.

(** The body of the loop over the sets of one game. *)
Definition count_set (t1 t2 : string) (s1 s2 : Z) (standings : list (string * Standing))
  : list (string * Standing) :=
  let standings := od_alter (add_points_for s1) t1 standings in
  let standings := od_alter (add_points_against s2) t1 standings in
  let standings := od_alter (add_points_for s2) t2 standings in
  let standings := od_alter (add_points_against s1) t2 standings in
  if bool_decide (s1 > s2)%Z then
    od_alter (add_set_losses 1) t2 (od_alter (add_set_wins 1) t1 standings)
  else if bool_decide (s2 > s1)%Z then
    od_alter (add_set_losses 1) t1 (od_alter (add_set_wins 1) t2 standings)
  else standings.

(** The loop over the set numbers; [None] is the [KeyError] of a game dict
    that lacks one of its sets. *)
Fixpoint count_sets (gd : Game) (t1 t2 : string) (sns : list nat)
    (standings : list (string * Standing)) : option (list (string * Standing)) :=
  match sns with
  | [] => Some standings
  | sn :: sns' =>
      match sets gd !! set_key sn with
      | None => None
      | Some the_set =>
          count_sets gd t1 t2 sns'
            (count_set t1 t2 (team1_score the_set) (team2_score the_set) standings)
      end
  end.

(** The body of the loop over the games. *)
Definition count_game (standings : list (string * Standing)) (gd : Game)
  : option (list (string * Standing)) :=
  if negb (completed gd) then Some standings
  else
    let t1 := team1 gd in
    let t2 := team2 gd in
    if negb (od_mem t1 standings) || negb (od_mem t2 standings) then Some standings
    else
      let standings := od_alter (add_games_played 1) t1 standings in
      let standings := od_alter (add_games_played 1) t2 standings in
      match count_sets gd t1 t2 set_numbers standings with
      | None => None
      | Some standings =>
          let standings := od_alter set_differential t1 standings in
          let standings := od_alter set_differential t2 standings in
          Some standings
      end.

Fixpoint count_games (standings : list (string * Standing)) (gds : list Game)
  : option (list (string * Standing)) :=
  match gds with
  | [] => Some standings
  | gd :: gds' =>
      match count_game standings gd with
      | None => None
      | Some standings' => count_games standings' gds'
      end
  end.

(** The sort key [(x["set_wins"], x["point_differential"])] and the order of
    Python tuples on it. *)
Definition sort_key (e : Standing) : Z * Z := (set_wins e, point_differential e).

Definition key_lt (a b : Z * Z) : bool :=
  (a.1 <? b.1)%Z || ((a.1 =? b.1)%Z && (a.2 <? b.2)%Z).

(** [sorted(..., key=..., reverse=True)]: descending by key, entries with
    equal keys in their original order. *)
Fixpoint insert_desc (x : Standing) (l : list Standing) : list Standing :=
  match l with
  | [] => [x]
  | y :: l' => if key_lt (sort_key x) (sort_key y) then y :: insert_desc x l' else x :: y :: l'
  end.

Definition sorted_desc (l : list Standing) : list Standing := foldr insert_desc [] l.

(** [calculate_standings(teams, games)]; the dicts are given by their items
    in iteration order. *)
Definition calculate_standings (teams : list (string * Team)) (games : list (string * Game))
  : option (list Standing) :=
  let standings :=
    foldl (fun acc '(team_name, td) => od_set team_name (zero_standing team_name td) acc)
          [] teams in
  match count_games standings games.*2 with
  | None => None
  | Some standings => Some (sorted_desc standings.*2)
  end.

(** ** The standings in the words of the specification *)

(** A game counts when it is completed and both its team names resolve in
    [teams]. *)
Definition counted (teams : list (string * Team)) (g : Game) : Prop :=
  completed g = true /\ team1 g ∈ teams.*1 /\ team2 g ∈ teams.*1.

#[global] Instance counted_dec teams g : Decision (counted teams g).
Proof. unfold counted. apply _. Defined.

Definition sum_list (l : list Z) : Z := foldr Z.add 0%Z l.

(** [x] when [P] holds, else nothing. *)
Definition when (P : Prop) `{Decision P} (x : Z) : Z := if decide P then x else 0%Z.

(** What one game brings a team, summed over the sets of the game. *)
Definition game_points_for (name : string) (g : Game) : Z :=
  sum_list ((fun s => when (name = team1 g) (team1_score s)
                      + when (name = team2 g) (team2_score s))%Z <$> set_scores g).

Definition game_points_against (name : string) (g : Game) : Z :=
  sum_list ((fun s => when (name = team1 g) (team2_score s)
                      + when (name = team2 g) (team1_score s))%Z <$> set_scores g).

Definition game_set_wins (name : string) (g : Game) : Z :=
  sum_list ((fun s => when (name = team1 g /\ team1_wins_set s) 1
                      + when (name = team2 g /\ team2_wins_set s) 1)%Z <$> set_scores g).

Definition game_set_losses (name : string) (g : Game) : Z :=
  sum_list ((fun s => when (name = team1 g /\ team2_wins_set s) 1
                      + when (name = team2 g /\ team1_wins_set s) 1)%Z <$> set_scores g).

Definition game_played (name : string) (g : Game) : Z :=
  (when (name = team1 g) 1 + when (name = team2 g) 1)%Z.

Definition total (f : Game -> Z) (games : list Game) : Z := sum_list (f <$> games).

(** The entry of a registered team: counters accumulated over the counted
    games, the differential derived from the two point sums. *)
Definition standing_spec (teams : list (string * Team)) (games : list Game)
    (name : string) (td : Team) : Standing :=
  let cs := filter (counted teams) games in
  {| st_team := name;
     st_pool := default "A" (pool td);
     games_played := total (game_played name) cs;
     set_wins := total (game_set_wins name) cs;
     set_losses := total (game_set_losses name) cs;
     points_for := total (game_points_for name) cs;
     points_against := total (game_points_against name) cs;
     point_differential :=
       total (game_points_for name) cs - total (game_points_against name) cs |}.

(** Descending order of the sort keys. *)
Definition key_ge (x y : Standing) : Prop :=
  (set_wins y < set_wins x)%Z
  \/ (set_wins y = set_wins x /\ point_differential y <= point_differential x)%Z.

(** ** The loops of [calculate_standings], entry by entry *)

(** An update of the entry stored under [k], seen from the entry of [n]. *)
Definition at_key (k : string) (f : Standing -> Standing) (n : string) (e : Standing)
  : Standing :=
  if decide (n = k) then f e else e.

Definition map_entries (h : string -> Standing -> Standing) (l : list (string * Standing))
  : list (string * Standing) :=
  (fun p => (p.1, h p.1 p.2)) <$> l.

Definition set_effect (t1 t2 : string) (s1 s2 : Z) (n : string) (e : Standing) : Standing :=
  let e := at_key t1 (add_points_for s1) n e in
  let e := at_key t1 (add_points_against s2) n e in
  let e := at_key t2 (add_points_for s2) n e in
  let e := at_key t2 (add_points_against s1) n e in
  if bool_decide (s1 > s2)%Z then
    at_key t2 (add_set_losses 1) n (at_key t1 (add_set_wins 1) n e)
  else if bool_decide (s2 > s1)%Z then
    at_key t1 (add_set_losses 1) n (at_key t2 (add_set_wins 1) n e)
  else e.

Fixpoint sets_effect (t1 t2 : string) (ss : list SetScore) (n : string) (e : Standing)
  : Standing :=
  match ss with
  | [] => e
  | s :: ss' => sets_effect t1 t2 ss' n (set_effect t1 t2 (team1_score s) (team2_score s) n e)
  end.

Definition game_effect (teams : list (string * Team)) (g : Game) (n : string) (e : Standing)
  : Standing :=
  if decide (counted teams g) then
    let e := at_key (team1 g) (add_games_played 1) n e in
    let e := at_key (team2 g) (add_games_played 1) n e in
    let e := sets_effect (team1 g) (team2 g) (set_scores g) n e in
    let e := at_key (team1 g) set_differential n e in
    at_key (team2 g) set_differential n e
  else e.

Fixpoint games_effect (teams : list (string * Team)) (gs : list Game) (n : string)
    (e : Standing) : Standing :=
  match gs with
  | [] => e
  | g :: gs' => games_effect teams gs' n (game_effect teams g n e)
  end.

(** Every set number of the game has its set in the dict. *)
Definition has_all_sets (g : Game) : Prop :=
  forall n, n ∈ set_numbers -> is_Some (sets g !! set_key n).

(** ** Entries with raised counters *)

(** An entry with its counters raised; the differential is derived. *)
Definition bump (e : Standing) (gp w l pf pa : Z) : Standing :=
  {| st_team := st_team e; st_pool := st_pool e;
     games_played := games_played e + gp;
     set_wins := set_wins e + w;
     set_losses := set_losses e + l;
     points_for := points_for e + pf;
     points_against := points_against e + pa;
     point_differential := (points_for e + pf) - (points_against e + pa) |}.

Definition balanced (e : Standing) : Prop :=
  point_differential e = (points_for e - points_against e)%Z.

(** ** Concrete teams and games for the instances *)

#[global] Instance has_all_sets_dec g : Decision (has_all_sets g).
Proof.
  refine (cast_if (decide (Forall (fun n => is_Some (sets g !! set_key n)) set_numbers)));
    unfold has_all_sets; rewrite Forall_forall in *; assumption.
Defined.

(** Teams and games for the concrete instances. *)
Definition sample_team (p : string) : Team :=
  {| player1 := ""; player2 := ""; pool := Some p |}.

Definition sample_game (a b : string) (done : bool) (s1 s2 : SetScore) : Game :=
  {| team1 := a; team2 := b;
     sets := <["set1" := s1]> (<["set2" := s2]> ∅);
     completed := done; winner := None; start_time := None; end_time := None |}.

Definition sample_teams : list (string * Team) :=
  [("Aces", sample_team "A"); ("Blockers", sample_team "A"); ("Comets", sample_team "B")].

Definition sample_games : list (string * Game) :=
  [("g1", sample_game "Aces" "Blockers" true (score 21 15) (score 21 18));
   ("g2", sample_game "Blockers" "Comets" true (score 21 19) (score 18 21));
   ("g3", sample_game "Comets" "Aces" false (score 5 0) (score 5 0));
   ("g4", sample_game "Comets" "Zebras" true (score 21 0) (score 21 0))].

(** ** Sequences of requests *)

(** A served request with what the store and the clock did meanwhile. *)
Definition step : Type := bool * Z * request.

Definition run (steps : list step) (w : world) : world :=
  foldl (fun w '(db_fails, now, r) => serve db_fails now r w) w steps.

(** The requests that can take a game back or away: a [create_game] that
    builds the same key, and a reset.  Every other request leaves it alone. *)
Definition leaves_alone (key : string) (r : request) : Prop :=
  match r with
  | CreateGame stamp body => make_game_key body stamp <> key
  | ResetTournament => False
  | _ => True
  end.

(** ** Answers and broadcasts *)

Definition forget {A} (o : outcome A) : outcome unit :=
  match o with
  | Returned _ => Returned tt
  | Raised e => Raised e
  end.

(** A request served, with whether it was answered or raised. *)
Definition respond (db_fails : bool) (now : Z) (r : request) (w : world)
  : outcome unit * world :=
  match r with
  | CreateTeam body => let '(o, w') := create_team db_fails body w in (forget o, w')
  | RemoveTeam team_name => let '(o, w') := remove_team db_fails team_name w in (forget o, w')
  | CreateGame stamp body =>
      let '(o, w') := create_game db_fails stamp now body w in (forget o, w')
  | UpdateScore body => let '(o, w') := update_score db_fails body w in (forget o, w')
  | CompleteGameReq body =>
      let '(o, w') := complete_game db_fails now body w in (forget o, w')
  | ResetTournament => let '(o, w') := reset_tournament db_fails w in (forget o, w')
  end.

(** The payload of a message is the store [d] as [load_all_teams] and
    [load_all_games] read it. *)
Definition snapshot_of (d : database) (m : message) : Prop :=
  match m with
  | teams_updated teams => teams = teams_of d
  | games_updated games => games = games_of d
  | score_updated _ games => games = games_of d
  | game_completed games => games = games_of d
  | tournament_reset => True
  end.

(** An answer that changed nothing, or one message published after the
    store was written. *)
Definition disciplined (w : world) (res : outcome unit * world) : Prop :=
  match res.1 with
  | Raised _ => res.2 = w
  | Returned _ =>
      exists m, published res.2 = published w ++ [m] /\ snapshot_of (db res.2) m
  end.

(** ** main.py: the connection manager *)

(** [ConnectionManager]: the list [self.active] of connected sockets, in the
    order they connected.  A socket is named by a number; whether a send on
    it raises is given by [closed]. *)
Module ConnectionManager.

Definition init : list nat := [].

(** [connect]: the socket is accepted and appended. *)
Definition connect (ws : nat) (active : list nat) : list nat := active ++ [ws].

(** [list.remove]: the first occurrence goes. *)
Fixpoint remove (ws : nat) (l : list nat) : list nat :=
  match l with
  | [] => []
  | x :: l' => if decide (x = ws) then l' else x :: remove ws l'
  end.

Definition disconnect (ws : nat) (active : list nat) : list nat :=
  if decide (ws ∈ active) then remove ws active else active.

(** The first loop of [broadcast]: the sends that went through, and the
    sockets whose send raised. *)
Fixpoint send_all (closed : nat -> bool) (m : message) (l : list nat)
  : list (nat * message) * list nat :=
  match l with
  | [] => ([], [])
  | ws :: l' =>
      let '(sent, dead) := send_all closed m l' in
      if closed ws then (sent, ws :: dead) else ((ws, m) :: sent, dead)
  end.

(** [broadcast]: the sends, and [self.active] after the dead sockets were
    disconnected one by one. *)
Definition broadcast (closed : nat -> bool) (m : message) (active : list nat)
  : list (nat * message) * list nat :=
  let '(sent, dead) := send_all closed m active in
  (sent, foldl (fun act ws => disconnect ws act) active dead).

End ConnectionManager.

(** ** kij.py and app.py: the standings of the pages *)

(** [team_data.get('pool', 'A')] *)
Definition pool_or_default (team_data : Team) : string := default "A" (pool team_data).

(** [calculate_standings] of the Streamlit pages: the same loops over the
    teams and games of the session, on entries without the team name, and
    the dict itself is returned, unsorted.  ([app.py] carries two more local
    tallies that are never read.) *)
Module Kij.

Record Entry := {
  pool : string;
  games_played : Z;
  set_wins : Z;
  set_losses : Z;
  points_for : Z;
  points_against : Z;
  point_differential : Z
}.

Definition zero_entry (team_data : Team) : Entry :=
  {| pool := pool_or_default team_data;
     games_played := 0; set_wins := 0; set_losses := 0;
     points_for := 0; points_against := 0; point_differential := 0 |}.

Definition add_games_played (x : Z) (e : Entry) : Entry :=
  {| pool := pool e; games_played := games_played e + x;
     set_wins := set_wins e; set_losses := set_losses e;
     points_for := points_for e; points_against := points_against e;
     point_differential := point_differential e |}.

Definition add_set_wins (x : Z) (e : Entry) : Entry :=
  {| pool := pool e; games_played := games_played e;
     set_wins := set_wins e + x; set_losses := set_losses e;
     points_for := points_for e; points_against := points_against e;
     point_differential := point_differential e |}.

Definition add_set_losses (x : Z) (e : Entry) : Entry :=
  {| pool := pool e; games_played := games_played e;
     set_wins := set_wins e; set_losses := set_losses e + x;
     points_for := points_for e; points_against := points_against e;
     point_differential := point_differential e |}.

Definition add_points_for (x : Z) (e : Entry) : Entry :=
  {| pool := pool e; games_played := games_played e;
     set_wins := set_wins e; set_losses := set_losses e;
     points_for := points_for e + x; points_against := points_against e;
     point_differential := point_differential e |}.

Definition add_points_against (x : Z) (e : Entry) : Entry :=
  {| pool := pool e; games_played := games_played e;
     set_wins := set_wins e; set_losses := set_losses e;
     points_for := points_for e; points_against := points_against e + x;
     point_differential := point_differential e |}.

Definition set_differential (e : Entry) : Entry :=
  {| pool := pool e; games_played := games_played e;
     set_wins := set_wins e; set_losses := set_losses e;
     points_for := points_for e; points_against := points_against e;
     point_differential := points_for e - points_against e |}.

Definition count_set (team1 team2 : string) (t1_score t2_score : Z)
    (standings : list (string * Entry)) : list (string * Entry) :=
  let standings := od_alter (add_points_for t1_score) team1 standings in
  let standings := od_alter (add_points_against t2_score) team1 standings in
  let standings := od_alter (add_points_for t2_score) team2 standings in
  let standings := od_alter (add_points_against t1_score) team2 standings in
  if bool_decide (t1_score > t2_score)%Z then
    od_alter (add_set_losses 1) team2 (od_alter (add_set_wins 1) team1 standings)
  else if bool_decide (t2_score > t1_score)%Z then
    od_alter (add_set_losses 1) team1 (od_alter (add_set_wins 1) team2 standings)
  else standings.

Fixpoint count_sets (game_data : Game) (team1 team2 : string) (set_nums : list nat)
    (standings : list (string * Entry)) : option (list (string * Entry)) :=
  match set_nums with
  | [] => Some standings
  | set_num :: set_nums' =>
      match sets game_data !! set_key set_num with
      | None => None
      | Some the_set =>
          count_sets game_data team1 team2 set_nums'
            (count_set team1 team2 (team1_score the_set) (team2_score the_set) standings)
      end
  end.

Definition count_game (standings : list (string * Entry)) (game_data : Game)
  : option (list (string * Entry)) :=
  if completed game_data then
    let team1 := team1 game_data in
    let team2 := team2 game_data in
    if od_mem team1 standings && od_mem team2 standings then
      let standings := od_alter (add_games_played 1) team1 standings in
      let standings := od_alter (add_games_played 1) team2 standings in
      match count_sets game_data team1 team2 set_numbers standings with
      | None => None
      | Some standings =>
          let standings := od_alter set_differential team1 standings in
          let standings := od_alter set_differential team2 standings in
          Some standings
      end
    else Some standings
  else Some standings.

Fixpoint count_games (standings : list (string * Entry)) (games : list Game)
  : option (list (string * Entry)) :=
  match games with
  | [] => Some standings
  | game_data :: games' =>
      match count_game standings game_data with
      | None => None
      | Some standings' => count_games standings' games'
      end
  end.

(** [calculate_standings()], with the teams and games of the session state
    as arguments. *)
Definition calculate_standings (teams : list (string * Team)) (games : list (string * Game))
  : option (list (string * Entry)) :=
  let standings :=
    foldl (fun acc '(team_name, team_data) => od_set team_name (zero_entry team_data) acc)
          [] teams in
  count_games standings games.*2.

End Kij.

(** The entry of the pages that corresponds to an entry of the API. *)
Definition page_entry (e : Standing) : Kij.Entry :=
  {| Kij.pool := st_pool e;
     Kij.games_played := games_played e;
     Kij.set_wins := set_wins e;
     Kij.set_losses := set_losses e;
     Kij.points_for := points_for e;
     Kij.points_against := points_against e;
     Kij.point_differential := point_differential e |}.

Definition page_entries (l : list (string * Standing)) : list (string * Kij.Entry) :=
  (fun p => (p.1, page_entry p.2)) <$> l.

(** Every entry is stored under its own team name. *)
Definition keyed (l : list (string * Standing)) : Prop :=
  Forall (fun p => st_team p.2 = p.1) l.
(** * Proofs *)

(** ** Loading a game and tallying its sets *)

Lemma set_key_1 : set_key 1 = "set1".
Proof. reflexivity. Qed.
Lemma set_key_2 : set_key 2 = "set2".
Proof. reflexivity. Qed.

Lemma load_sets_lookup rows n :
  n ∈ set_numbers ->
  load_sets rows !! set_key n = Some (default zero_score (rows !! n)).
Proof.
  unfold set_numbers, SETS_PER_GAME. cbn [seq]. intros Hn.
  apply elem_of_cons in Hn as [->|Hn].
  - unfold load_sets, set_numbers, SETS_PER_GAME. cbn [seq foldl].
    rewrite set_key_1, set_key_2.
    destruct (rows !! 1%nat), (rows !! 2%nat); cbn [default];
      unfold default_sets; simplify_map_eq; done.
  - apply list_elem_of_singleton in Hn as ->.
    unfold load_sets, set_numbers, SETS_PER_GAME. cbn [seq foldl].
    rewrite set_key_1, set_key_2.
    destruct (rows !! 1%nat), (rows !! 2%nat); cbn [default];
      unfold default_sets; simplify_map_eq; done.
Qed.

Lemma tally_loop game l : forall acc w,
  (forall n, n ∈ l -> is_Some (sets game !! set_key n)) ->
  h_foldl (tally_set game) acc l w =
    (Returned (acc.1 + Z.of_nat (set_wins1 (set_score game <$> l)),
               acc.2 + Z.of_nat (set_wins2 (set_score game <$> l)))%Z, w).
Proof.
  induction l as [|n l IH]; intros [a b] w Hl.
  - cbn. unfold h_ret. rewrite !Z.add_0_r. done.
  - cbn [h_foldl]. unfold h_bind at 1.
    destruct (Hl n) as [sc Hsc]; [left|].
    unfold tally_set at 1. unfold h_bind, subscript. rewrite Hsc. unfold h_ret.
    assert (Hs : set_score game n = sc) by (unfold set_score; rewrite Hsc; done).
    assert (Hl' : forall m, m ∈ l -> is_Some (sets game !! set_key m))
      by (intros m Hm; apply Hl; right; done).
    unfold set_wins1, set_wins2. rewrite fmap_cons, !filter_cons, Hs.
    unfold team1_wins_set at 1, team2_wins_set at 1.
    repeat case_bool_decide; repeat case_decide; try lia;
      rewrite IH by done; cbn [fst snd length]; unfold set_wins1, set_wins2;
      do 3 f_equal; lia.
Qed.

(** ** Running the handlers *)

Lemma save_game_run db_fails key g w :
  save_game db_fails key g w =
    (Returned (negb db_fails),
     {| db := saved db_fails (db w) key g; published := published w |}).
Proof.
  unfold save_game, h_bind, read_db, write_db, h_ret, saved, store_game.
  destruct w as [d p], db_fails; reflexivity.
Qed.

Lemma loaded_sets_present r n :
  n ∈ set_numbers -> is_Some (sets (load_game r) !! set_key n).
Proof. intros Hn. cbn [load_game sets]. rewrite load_sets_lookup by done. eauto. Qed.

Lemma complete_game_run db_fails now key w row :
  games_tbl (db w) !! key = Some row ->
  complete_game db_fails now {| cg_game_key := key |} w =
    let g := load_game row in
    let d' := saved db_fails (db w) key (completed_game g (game_winner g) now) in
    (Returned (game_winner g),
     {| db := d'; published := published w ++ [game_completed (games_of d')] |}).
Proof.
  intros Hrow. unfold complete_game.
  unfold h_bind at 1. unfold load_all_games at 1, h_bind at 1, read_db at 1, h_ret at 1.
  cbn [cg_game_key]. rewrite lookup_fmap, Hrow. cbn [fmap option_fmap option_map].
  unfold h_bind at 1. rewrite tally_loop by (apply loaded_sets_present).
  cbn [fst snd].
  replace (pick_winner (load_game row) _ _) with (game_winner (load_game row)).
  2:{ unfold pick_winner, game_winner, winner_rule, set_scores.
      repeat case_bool_decide; repeat case_decide; try lia; done. }
  unfold h_bind at 1. rewrite save_game_run.
  unfold h_bind, load_all_games, read_db, broadcast, h_ret. cbn [db published].
  reflexivity.
Qed.

(** ** Winner determination *)

Lemma set_scores_rows row :
  set_scores (load_game row) =
    (fun n => default zero_score (set_rows row !! n)) <$> set_numbers.
Proof.
  unfold set_scores. apply list_fmap_ext. intros i n Hn.
  unfold set_score. cbn [load_game sets].
  rewrite load_sets_lookup by (eapply list_elem_of_lookup_2; done). done.
Qed.

(** C1.  [complete_game] on an existing game answers with the winner that
    the rule of the specification gives on the stored scores: per set index
    the side with the strictly higher score takes the set, the side with
    strictly more sets wins, and equal tallies give ["Split"].  When the
    store accepts the write, that winner is stored and the game is marked
    completed.  In particular the sets 21-19 and 18-21 give ["Split"], and
    the sets 21-15 and 21-18 give the first team. *)
Theorem complete_game_winner db_fails now key w row :
  games_tbl (db w) !! key = Some row ->
  let stored := (fun n => default zero_score (set_rows row !! n)) <$> set_numbers in
  let result := winner_rule (team1_name row) (team2_name row) stored in
  let w' := (complete_game db_fails now {| cg_game_key := key |} w).2 in
  (complete_game db_fails now {| cg_game_key := key |} w).1 = Returned result
  /\ (db_fails = false ->
      exists row', games_tbl (db w') !! key = Some row'
                   /\ gr_winner row' = Some result /\ gr_completed row' = true)
  /\ (stored = [score 21 19; score 18 21] -> result = "Split")
  /\ (stored = [score 21 15; score 21 18] -> result = team1_name row).
Proof.
  intros Hrow stored result w'. subst w'.
  rewrite (complete_game_run _ _ _ _ _ Hrow). cbn zeta. cbn [fst snd db].
  assert (Hres : game_winner (load_game row) = result).
  { unfold game_winner. rewrite set_scores_rows. reflexivity. }
  rewrite Hres. split; [done|]. split.
  - intros ->. cbn [saved store_game games_tbl]. rewrite lookup_insert_eq.
    eexists. split; [done|]. rewrite Hrow. done.
  - subst result. split; intros ->; reflexivity.
Qed.

Lemma complete_game_winner_witness :
  games_tbl (db (one_game_world "k" (sample_row false (score 21 19) (score 18 21)))) !! "k"
    = Some (sample_row false (score 21 19) (score 18 21))
  /\ (complete_game false 200 {| cg_game_key := "k" |}
        (one_game_world "k" (sample_row false (score 21 19) (score 18 21)))).1
     = Returned "Split".
Proof.
  split; [reflexivity|].
  exact (proj1 (complete_game_winner false 200 "k"
                  (one_game_world "k" (sample_row false (score 21 19) (score 18 21)))
                  (sample_row false (score 21 19) (score 18 21)) eq_refl)).
Defined.


(** ** Saving and loading the set rows *)

Lemma load_sets_eq rows :
  load_sets rows =
    <["set1" := default zero_score (rows !! 1%nat)]>
      (<["set2" := default zero_score (rows !! 2%nat)]> ∅).
Proof.
  unfold load_sets, set_numbers, SETS_PER_GAME. cbn [seq foldl].
  rewrite set_key_1, set_key_2. unfold default_sets.
  apply map_eq. intros k.
  destruct (rows !! 1%nat), (rows !! 2%nat); cbn [default];
    destruct (decide (k = "set1")), (decide (k = "set2")); simplify_map_eq; done.
Qed.

Lemma upsert_set_rows_eq g rows a b :
  sets g !! "set1" = Some a -> sets g !! "set2" = Some b ->
  upsert_set_rows g rows = <[2%nat := b]> (<[1%nat := a]> rows).
Proof.
  intros Ha Hb. unfold upsert_set_rows, set_numbers, SETS_PER_GAME. cbn [seq foldl].
  rewrite set_key_1, set_key_2, Ha, Hb. destruct a, b. reflexivity.
Qed.

Lemma sets_roundtrip g rows a b :
  sets g = <["set1" := a]> (<["set2" := b]> ∅) ->
  load_sets (upsert_set_rows g rows) = sets g.
Proof.
  intros Hg. rewrite (upsert_set_rows_eq g rows a b) by (rewrite Hg; simplify_map_eq; done).
  rewrite load_sets_eq, Hg. simplify_map_eq. done.
Qed.

Lemma valid_set_key sk :
  sk ∈ set_key <$> set_numbers -> sk = "set1" \/ sk = "set2".
Proof.
  unfold set_numbers, SETS_PER_GAME. cbn [seq fmap list_fmap].
  rewrite set_key_1, set_key_2. rewrite !elem_of_cons, elem_of_nil. tauto.
Qed.

Lemma adjusted_sets_shape rows sk v :
  sk ∈ set_key <$> set_numbers ->
  exists a b, <[sk := v]> (load_sets rows) = <["set1" := a]> (<["set2" := b]> ∅).
Proof.
  intros [-> | ->]%valid_set_key; rewrite load_sets_eq.
  - eexists _, _. rewrite insert_insert_eq. done.
  - eexists _, _. rewrite (insert_insert_ne _ "set2" "set1") by done.
    rewrite insert_insert_eq. rewrite insert_insert_ne by done. done.
Qed.

Lemma score_get_side team s w :
  team ∈ ["team1"; "team2"] ->
  score_get s (team +:+ "_score") w = (Returned (side_score team s), w).
Proof.
  rewrite !elem_of_cons, elem_of_nil. intros [-> | [-> | []]]; reflexivity.
Qed.

Lemma side_score_set team s v :
  team ∈ ["team1"; "team2"] ->
  side_score team (score_set s (team +:+ "_score") v) = v.
Proof.
  rewrite !elem_of_cons, elem_of_nil. intros [-> | [-> | []]]; reflexivity.
Qed.

(** ** Running [update_score] *)

Lemma update_score_not_found db_fails body w :
  games_tbl (db w) !! su_game_key body = None ->
  update_score db_fails body w = (Raised (HTTPException 404 "Game not found"), w).
Proof.
  intros Hk. unfold update_score, load_all_games, h_bind, read_db, h_ret. cbn beta iota.
  rewrite lookup_fmap, Hk. reflexivity.
Qed.

Lemma update_score_completed db_fails body w row :
  games_tbl (db w) !! su_game_key body = Some row ->
  gr_completed row = true ->
  update_score db_fails body w = (Raised (HTTPException 400 "Game already completed"), w).
Proof.
  intros Hk Hc. unfold update_score, load_all_games, h_bind, read_db, h_ret. cbn beta iota.
  rewrite lookup_fmap, Hk. cbn [fmap option_fmap option_map load_game completed].
  rewrite Hc. reflexivity.
Qed.

Lemma update_score_run db_fails key sk team delta w row the_set :
  games_tbl (db w) !! key = Some row ->
  gr_completed row = false ->
  sets (load_game row) !! sk = Some the_set ->
  team ∈ ["team1"; "team2"] ->
  update_score db_fails
    {| su_game_key := key; su_set_key := sk; su_team := team; su_delta := delta |} w =
    let d' := saved db_fails (db w) key (adjusted_game (load_game row) sk team delta the_set) in
    subscript (games_of d') key
      {| db := d'; published := published w ++ [score_updated key (games_of d')] |}.
Proof.
  intros Hk Hc Hs Ht. unfold update_score.
  unfold h_bind at 1. unfold load_all_games at 1, h_bind at 1, read_db at 1, h_ret at 1.
  cbn [su_game_key su_set_key su_team su_delta].
  rewrite lookup_fmap, Hk. cbn [fmap option_fmap option_map].
  replace (completed (load_game row)) with false by (symmetry; exact Hc).
  unfold h_bind at 1. unfold subscript at 1. rewrite Hs. unfold h_ret at 1.
  unfold h_bind at 1. rewrite score_get_side by done.
  unfold h_bind at 1. rewrite save_game_run.
  unfold h_bind, load_all_games, read_db, broadcast, h_ret. cbn [db published].
  reflexivity.
Qed.


(** ** Rejected score updates *)

(** C3.  [update_score] on a game whose [completed] flag is set raises the
    400 error "Game already completed", and on a key that is not in the
    games mapping the 404 error "Game not found"; in both cases the world is
    left as it was: no score of any game changes and nothing is broadcast. *)
Theorem update_score_rejected db_fails body w :
  (forall row,
      games_tbl (db w) !! su_game_key body = Some row ->
      gr_completed row = true ->
      update_score db_fails body w =
        (Raised (HTTPException 400 "Game already completed"), w))
  /\ (games_tbl (db w) !! su_game_key body = None ->
      update_score db_fails body w =
        (Raised (HTTPException 404 "Game not found"), w)).
Proof.
  split.
  - intros row Hk Hc. exact (update_score_completed db_fails body w row Hk Hc).
  - intros Hk. exact (update_score_not_found db_fails body w Hk).
Qed.

Lemma update_score_rejected_witness :
  update_score false
    {| su_game_key := "k"; su_set_key := "set1"; su_team := "team1"; su_delta := 1 |}
    (one_game_world "k" (sample_row true (score 21 19) (score 18 21)))
  = (Raised (HTTPException 400 "Game already completed"),
     one_game_world "k" (sample_row true (score 21 19) (score 18 21)))
  /\ update_score false
       {| su_game_key := "other"; su_set_key := "set1"; su_team := "team1"; su_delta := 1 |}
       (one_game_world "k" (sample_row true (score 21 19) (score 18 21)))
     = (Raised (HTTPException 404 "Game not found"),
        one_game_world "k" (sample_row true (score 21 19) (score 18 21))).
Proof.
  split.
  - exact (proj1 (update_score_rejected false
             {| su_game_key := "k"; su_set_key := "set1"; su_team := "team1"; su_delta := 1 |}
             (one_game_world "k" (sample_row true (score 21 19) (score 18 21))))
             (sample_row true (score 21 19) (score 18 21)) eq_refl eq_refl).
  - exact (proj2 (update_score_rejected false
             {| su_game_key := "other"; su_set_key := "set1"; su_team := "team1"; su_delta := 1 |}
             (one_game_world "k" (sample_row true (score 21 19) (score 18 21))))
             eq_refl).
Defined.


(** ** Accepted score updates *)

Lemma valid_set_key_present row sk :
  sk ∈ set_key <$> set_numbers -> is_Some (sets (load_game row) !! sk).
Proof.
  intros [n [-> Hn]]%list_elem_of_fmap. apply loaded_sets_present. done.
Qed.

Lemma load_saved_sets row m a b :
  m = <["set1" := a]> (<["set2" := b]> ∅) ->
  load_game (save_game_row (Some row) (with_sets (load_game row) m))
  = with_sets (load_game row) m.
Proof.
  intros Hm. unfold load_game at 1, save_game_row, with_sets.
  cbn [upsert_game_row team1_name team2_name gr_completed gr_winner gr_start_time
       gr_end_time set_rows load_game team1 team2 completed winner start_time end_time sets].
  f_equal. exact (sets_roundtrip (Build_Game _ _ m _ _ _ _) _ a b Hm).
Qed.

Lemma load_saved_adjusted row sk team delta the_set :
  sk ∈ set_key <$> set_numbers ->
  load_game (save_game_row (Some row) (adjusted_game (load_game row) sk team delta the_set))
  = adjusted_game (load_game row) sk team delta the_set.
Proof.
  intros Hsk. unfold adjusted_game.
  destruct (adjusted_sets_shape (set_rows row) sk
              (score_set the_set (team +:+ "_score")
                 (Z.max 0 (side_score team the_set + delta))) Hsk) as (a & b & Hab).
  apply (load_saved_sets row _ a b). exact Hab.
Qed.

(** The outcome of an accepted [update_score], spelled out: the answer is
    the game as reloaded from the store, and one [score_updated] message is
    published after the save. *)
Lemma update_score_accepted db_fails key sk team delta w row the_set :
  games_tbl (db w) !! key = Some row ->
  gr_completed row = false ->
  sk ∈ set_key <$> set_numbers ->
  sets (load_game row) !! sk = Some the_set ->
  team ∈ ["team1"; "team2"] ->
  let g' := adjusted_game (load_game row) sk team delta the_set in
  let d' := saved db_fails (db w) key g' in
  update_score db_fails
    {| su_game_key := key; su_set_key := sk; su_team := team; su_delta := delta |} w =
    (Returned (if db_fails then load_game row else g'),
     {| db := d'; published := published w ++ [score_updated key (games_of d')] |}).
Proof.
  intros Hk Hc Hsk Hs Ht g' d'.
  rewrite (update_score_run db_fails key sk team delta w row the_set Hk Hc Hs Ht).
  cbn zeta. fold g'. fold d'. unfold subscript.
  assert (Hd : games_of d' !! key = Some (if db_fails then load_game row else g')).
  { subst d'. unfold games_of, saved. destruct db_fails.
    - rewrite lookup_fmap, Hk. done.
    - cbn [store_game games_tbl]. rewrite lookup_fmap, lookup_insert_eq, Hk.
      cbn [fmap option_fmap option_map]. subst g'.
      rewrite load_saved_adjusted by done. done. }
  rewrite Hd. reflexivity.
Qed.

Lemma side_score_int4 team s :
  int4 (team1_score s) /\ int4 (team2_score s) -> int4 (side_score team s).
Proof. intros [H1 H2]. unfold side_score. destruct (decide _); assumption. Qed.

(** A score outside [INTEGER] makes the data of the save refused. *)
Lemma adjusted_game_refused key g sk team delta the_set :
  sk ∈ set_key <$> set_numbers ->
  team ∈ ["team1"; "team2"] ->
  ~ int4 (Z.max 0 (side_score team the_set + delta)) ->
  game_refused key (adjusted_game g sk team delta the_set).
Proof.
  intros [n [-> Hn]]%list_elem_of_fmap Ht Hbig.
  right; right; right; right.
  exists n, (score_set the_set (team +:+ "_score")
               (Z.max 0 (side_score team the_set + delta))).
  split; [exact Hn|]. split.
  - unfold adjusted_game, with_sets. cbn [sets]. apply lookup_insert_eq.
  - intros Hin. apply Hbig. rewrite <- (side_score_set team the_set _ Ht) at 1.
    apply side_score_int4. exact Hin.
Qed.

(** C10, as the code has it.  [update_score] puts no restriction on
    [delta]: on an existing game that is not completed, with a valid set
    key and side, the call answers with success for every integer [delta]
    and raises no error.  Once the store accepts the write the targeted
    score is [max(0, current + delta)]; a write that the store rejects
    leaves the store as it was and the answer is the game as it was.  The
    store takes the write only if the new score fits the [INTEGER] column:
    a score above 2147483647 is refused data, so with a store that never
    accepts refused data the score is then left unchanged, and the call
    still answers with success. *)
Theorem update_score_any_delta db_fails key sk team (delta : Z) w row :
  games_tbl (db w) !! key = Some row ->
  gr_completed row = false ->
  sk ∈ set_key <$> set_numbers ->
  team ∈ ["team1"; "team2"] ->
  let out := update_score db_fails
               {| su_game_key := key; su_set_key := sk; su_team := team; su_delta := delta |} w in
  exists the_set,
    sets (load_game row) !! sk = Some the_set
    /\ (exists g, out.1 = Returned g)
    /\ (db_fails = false ->
        exists g' s',
          out.1 = Returned g'
          /\ games_of (db out.2) !! key = Some g'
          /\ sets g' !! sk = Some s'
          /\ side_score team s' = Z.max 0 (side_score team the_set + delta))
    /\ (db_fails = true -> out.1 = Returned (load_game row) /\ db out.2 = db w)
    /\ (~ int4 (Z.max 0 (side_score team the_set + delta)) ->
        game_refused key (adjusted_game (load_game row) sk team delta the_set))
    /\ (store_verdict db_fails key (adjusted_game (load_game row) sk team delta the_set) ->
        (db_fails = false -> int4 (Z.max 0 (side_score team the_set + delta)))
        /\ (~ int4 (Z.max 0 (side_score team the_set + delta)) ->
            out.1 = Returned (load_game row) /\ db out.2 = db w)).
Proof.
  intros Hk Hc Hsk Ht out.
  destruct (valid_set_key_present row sk Hsk) as [the_set Hs].
  exists the_set. split; [exact Hs|]. subst out.
  rewrite (update_score_accepted db_fails key sk team delta w row the_set Hk Hc Hsk Hs Ht).
  cbn zeta. cbn [fst snd db]. split; [eauto|].
  pose proof (adjusted_game_refused key (load_game row) sk team delta the_set Hsk Ht)
    as Hrefused.
  split; [|split; [|split]].
  - intros ->. eexists _, _. split; [reflexivity|]. split.
    + unfold games_of, saved. cbn [store_game games_tbl].
      rewrite lookup_fmap, lookup_insert_eq, Hk. cbn [fmap option_fmap option_map].
      rewrite load_saved_adjusted by done. done.
    + unfold adjusted_game, with_sets. cbn [sets]. rewrite lookup_insert_eq.
      split; [reflexivity|]. apply side_score_set. done.
  - intros ->. split; reflexivity.
  - exact Hrefused.
  - intros Hverdict. split.
    + intros Hok. destruct (decide (int4 (Z.max 0 (side_score team the_set + delta))))
        as [Hin|Hout]; [exact Hin|].
      rewrite (Hverdict (Hrefused Hout)) in Hok. discriminate.
    + intros Hout. rewrite (Hverdict (Hrefused Hout)). split; reflexivity.
Qed.

Lemma update_score_any_delta_witness :
  games_tbl (db (one_game_world "k" (sample_row false (score 3 7) (score 0 0)))) !! "k"
    = Some (sample_row false (score 3 7) (score 0 0))
  /\ exists g' s',
      (update_score false
         {| su_game_key := "k"; su_set_key := "set1"; su_team := "team2"; su_delta := -100 |}
         (one_game_world "k" (sample_row false (score 3 7) (score 0 0)))).1 = Returned g'
      /\ sets g' !! "set1" = Some s'
      /\ side_score "team2" s' = 0%Z.
Proof.
  split; [reflexivity|].
  destruct (update_score_any_delta false "k" "set1" "team2" (-100)
              (one_game_world "k" (sample_row false (score 3 7) (score 0 0)))
              (sample_row false (score 3 7) (score 0 0)) eq_refl eq_refl)
    as (the_set & Hs & _ & Hcommit & _).
  - vm_compute. left.
  - vm_compute. right. left.
  - destruct (Hcommit eq_refl) as (g' & s' & Hg & _ & Hs' & Hv).
    exists g', s'. split; [exact Hg|]. split; [exact Hs'|].
    rewrite Hv. vm_compute in Hs. injection Hs as <-. reflexivity.
Defined.

(** C10, as stated, fails: with the score 3 stored, a [delta] of 2147483647
    asks for the score 2147483650, which the [INTEGER] column refuses.  So
    the store rejects the write, the call answers with success all the
    same, and the score is still 3, not [max(0, current + delta)]. *)
Lemma update_score_beyond_integer :
  let w0 := one_game_world "k" (sample_row false (score 3 7) (score 0 0)) in
  let body := {| su_game_key := "k"; su_set_key := "set1"; su_team := "team1";
                 su_delta := 2147483647 |} in
  let g' := adjusted_game (load_game (sample_row false (score 3 7) (score 0 0)))
              "set1" "team1" 2147483647 (score 3 7) in
  sets g' !! "set1" = Some (score 2147483650 7)
  /\ game_refused "k" g'
  /\ (forall db_fails, store_verdict db_fails "k" g' ->
        db_fails = true
        /\ (exists g, (update_score db_fails body w0).1 = Returned g
                      /\ sets g !! "set1" = Some (score 3 7))
        /\ db (update_score db_fails body w0).2 = db w0).
Proof.
  cbn zeta.
  assert (Hrefused : game_refused "k"
            (adjusted_game (load_game (sample_row false (score 3 7) (score 0 0)))
               "set1" "team1" 2147483647 (score 3 7))).
  { right; right; right; right. exists 1%nat, (score 2147483650 7).
    split; [vm_compute; left|]. split; [vm_compute; reflexivity|].
    unfold int4, INT4_MIN, INT4_MAX. cbn. lia. }
  split; [vm_compute; reflexivity|]. split; [exact Hrefused|].
  intros db_fails Hverdict. rewrite (Hverdict Hrefused).
  split; [reflexivity|]. split.
  - eexists. split; vm_compute; reflexivity.
  - vm_compute. reflexivity.
Qed.



(** ** Running the other handlers *)

Lemma create_game_run db_fails stamp now body w :
  create_game db_fails stamp now body w =
    let key := make_game_key body stamp in
    let d' := saved db_fails (db w) key (new_game body now) in
    (Returned (key, new_game body now),
     {| db := d'; published := published w ++ [games_updated (games_of d')] |}).
Proof.
  unfold create_game. unfold h_bind at 1. rewrite save_game_run.
  unfold load_all_games, h_bind, read_db, broadcast, h_ret. reflexivity.
Qed.

Lemma create_team_full db_fails body w :
  (MAX_TEAMS <= size (teams_tbl (db w)))%nat ->
  create_team db_fails body w =
    (Raised (HTTPException 400 "Maximum 15 teams allowed"), w).
Proof.
  intros Hfull. unfold create_team, load_all_teams, h_bind, read_db, h_ret. cbn beta iota.
  rewrite map_size_fmap. rewrite bool_decide_eq_true_2 by done. reflexivity.
Qed.

Lemma create_team_duplicate db_fails body w :
  (size (teams_tbl (db w)) < MAX_TEAMS)%nat ->
  is_Some (teams_tbl (db w) !! tc_team_name body) ->
  create_team db_fails body w =
    (Raised (HTTPException 400 "Team name already exists"), w).
Proof.
  intros Hroom Hdup. unfold create_team, load_all_teams, h_bind, read_db, h_ret. cbn beta iota.
  rewrite map_size_fmap. rewrite bool_decide_eq_false_2 by lia.
  rewrite bool_decide_eq_true_2; [reflexivity|].
  rewrite lookup_fmap. destruct Hdup as [r ->]. eauto.
Qed.

Lemma create_team_new db_fails body w :
  (size (teams_tbl (db w)) < MAX_TEAMS)%nat ->
  teams_tbl (db w) !! tc_team_name body = None ->
  create_team db_fails body w =
    if db_fails then (Raised DatabaseError, w)
    else match team_insert_of body with
         | None => (Raised DatabaseError, w)
         | Some (n, r) =>
             match teams_tbl (db w) !! n with
             | Some _ => (Raised (HTTPException 500 "Failed to save team"), w)
             | None =>
                 (Returned (tc_team_name body),
                  {| db := store_team (db w) n r;
                     published :=
                       published w ++ [teams_updated (teams_of (store_team (db w) n r))] |})
             end
         end.
Proof.
  intros Hroom Hnew. unfold create_team, load_all_teams, h_bind, read_db, h_ret. cbn beta iota.
  rewrite map_size_fmap. rewrite bool_decide_eq_false_2 by lia.
  rewrite bool_decide_eq_false_2.
  2:{ rewrite lookup_fmap, Hnew. cbn. intros [? ?]; done. }
  unfold save_team, h_bind, read_db, raise, write_db, h_ret, broadcast. cbn beta iota.
  destruct db_fails; [reflexivity|]. fold (team_insert_of body).
  destruct (team_insert_of body) as [[n r]|]; [|reflexivity].
  destruct (teams_tbl (db w) !! n); reflexivity.
Qed.

Lemma remove_team_db db_fails team_name w :
  games_tbl (db (remove_team db_fails team_name w).2) = games_tbl (db w)
  /\ (size (teams_tbl (db (remove_team db_fails team_name w).2))
      <= size (teams_tbl (db w)))%nat.
Proof.
  unfold remove_team, delete_team, load_all_teams, h_bind, read_db, raise, write_db,
    h_ret, broadcast. cbn beta iota.
  destruct db_fails; [done|].
  destruct (teams_tbl (db w) !! team_name) as [r|] eqn:Hr; cbn; [|done].
  split; [done|]. rewrite map_size_delete_Some by eauto. lia.
Qed.

Lemma reset_tournament_run db_fails w :
  reset_tournament db_fails w =
    if db_fails then (Raised (HTTPException 500 "Reset failed"), w)
    else (Returned tt,
          {| db := empty_database; published := published w ++ [tournament_reset] |}).
Proof.
  unfold reset_tournament, delete_all_data, h_bind, raise, write_db, h_ret, broadcast.
  destruct db_fails; reflexivity.
Qed.

Lemma remove_team_run db_fails team_name w :
  remove_team db_fails team_name w =
    if db_fails then (Raised DatabaseError, w)
    else match teams_tbl (db w) !! team_name with
         | None => (Raised (HTTPException 404 "Team not found"), w)
         | Some _ =>
             let d' := {| teams_tbl := delete team_name (teams_tbl (db w));
                          games_tbl := games_tbl (db w) |} in
             (Returned tt,
              {| db := d'; published := published w ++ [teams_updated (teams_of d')] |})
         end.
Proof.
  unfold remove_team, delete_team, load_all_teams, h_bind, read_db, raise, write_db,
    h_ret, broadcast. cbn beta iota.
  destruct db_fails; [reflexivity|].
  destruct (teams_tbl (db w) !! team_name); reflexivity.
Qed.

Lemma complete_game_not_found db_fails now body w :
  games_tbl (db w) !! cg_game_key body = None ->
  complete_game db_fails now body w = (Raised (HTTPException 404 "Game not found"), w).
Proof.
  intros Hk. unfold complete_game, load_all_games, h_bind, read_db, h_ret. cbn beta iota.
  rewrite lookup_fmap, Hk. reflexivity.
Qed.

Lemma subscript_world {V} (m : gmap string V) k w : (subscript m k w).2 = w.
Proof. unfold subscript, h_ret, raise. destruct (m !! k); reflexivity. Qed.

Lemma score_get_world s field w : (score_get s field w).2 = w.
Proof. unfold score_get, h_ret, raise. repeat case_decide; reflexivity. Qed.

Lemma update_score_no_set db_fails body w row :
  games_tbl (db w) !! su_game_key body = Some row ->
  gr_completed row = false ->
  sets (load_game row) !! su_set_key body = None ->
  update_score db_fails body w = (Raised (KeyError (su_set_key body)), w).
Proof.
  intros Hk Hc Hs. unfold update_score, load_all_games, h_bind, read_db, h_ret. cbn beta iota.
  rewrite lookup_fmap, Hk. cbn [fmap option_fmap option_map].
  replace (completed (load_game row)) with false by (symmetry; exact Hc).
  unfold subscript. rewrite Hs. reflexivity.
Qed.

Lemma update_score_step db_fails body w row the_set :
  games_tbl (db w) !! su_game_key body = Some row ->
  gr_completed row = false ->
  sets (load_game row) !! su_set_key body = Some the_set ->
  update_score db_fails body w =
    match (score_get the_set (su_team body +:+ "_score") w).1 with
    | Raised e => (Raised e, w)
    | Returned current =>
        let d' := saved db_fails (db w) (su_game_key body)
                    (with_sets (load_game row)
                       (<[su_set_key body :=
                            score_set the_set (su_team body +:+ "_score")
                              (Z.max 0 (current + su_delta body))]>
                          (sets (load_game row)))) in
        subscript (games_of d') (su_game_key body)
          {| db := d';
             published := published w ++ [score_updated (su_game_key body) (games_of d')] |}
    end.
Proof.
  intros Hk Hc Hs. unfold update_score.
  unfold h_bind at 1. unfold load_all_games at 1, h_bind at 1, read_db at 1, h_ret at 1.
  rewrite lookup_fmap, Hk. cbn [fmap option_fmap option_map].
  replace (completed (load_game row)) with false by (symmetry; exact Hc).
  unfold h_bind at 1. unfold subscript at 1. rewrite Hs. unfold h_ret at 1.
  unfold h_bind at 1.
  pose proof (score_get_world the_set (su_team body +:+ "_score") w) as Hw.
  destruct (score_get the_set (su_team body +:+ "_score") w) as [[current|e] w1];
    cbn [fst snd] in *; subst w1.
  2: reflexivity.
  unfold h_bind at 1. rewrite save_game_run.
  unfold load_all_games, h_bind, read_db, broadcast, h_ret. cbn [db published].
  reflexivity.
Qed.

(** The store after any [update_score]: untouched, or the targeted game
    saved with one score replaced by a value that is not negative. *)
Lemma update_score_db db_fails body w :
  db (update_score db_fails body w).2 = db w
  \/ exists row the_set v,
       games_tbl (db w) !! su_game_key body = Some row
       /\ gr_completed row = false
       /\ sets (load_game row) !! su_set_key body = Some the_set
       /\ (0 <= v)%Z
       /\ db (update_score db_fails body w).2 =
            store_game (db w) (su_game_key body)
              (with_sets (load_game row)
                 (<[su_set_key body := score_set the_set (su_team body +:+ "_score") v]>
                    (sets (load_game row)))).
Proof.
  destruct (games_tbl (db w) !! su_game_key body) as [row|] eqn:Hk.
  2:{ left. rewrite update_score_not_found by done. done. }
  destruct (gr_completed row) eqn:Hc.
  { left. rewrite (update_score_completed _ _ _ row) by done. done. }
  destruct (sets (load_game row) !! su_set_key body) as [the_set|] eqn:Hs.
  2:{ left. rewrite (update_score_no_set _ _ _ row) by done. done. }
  rewrite (update_score_step db_fails body w row the_set Hk Hc Hs).
  destruct (score_get the_set (su_team body +:+ "_score") w).1 as [current|e]; [|left; done].
  cbn zeta. rewrite subscript_world. cbn [db].
  destruct db_fails; [left; done|].
  right. exists row, the_set, (Z.max 0 (current + su_delta body)).
  repeat split; try done; lia.
Qed.


(** ** Scores never go negative *)

Lemma create_team_db db_fails body w :
  db (create_team db_fails body w).2 = db w
  \/ exists n r,
       (size (teams_tbl (db w)) < MAX_TEAMS)%nat
       /\ teams_tbl (db w) !! n = None
       /\ db (create_team db_fails body w).2 = store_team (db w) n r.
Proof.
  destruct (decide (MAX_TEAMS <= size (teams_tbl (db w)))%nat) as [Hfull|Hroom].
  { left. rewrite create_team_full by done. done. }
  destruct (teams_tbl (db w) !! tc_team_name body) as [r|] eqn:Hr.
  { left. rewrite create_team_duplicate by (eauto || lia). done. }
  rewrite create_team_new by (done || lia).
  destruct db_fails; [left; done|].
  destruct (team_insert_of body) as [[n r]|]; [|left; done].
  destruct (teams_tbl (db w) !! n) eqn:Hn; [left; done|].
  right. exists n, r. split; [lia|]. done.
Qed.

Lemma complete_game_db db_fails now body w :
  db (complete_game db_fails now body w).2 = db w
  \/ exists row,
       games_tbl (db w) !! cg_game_key body = Some row
       /\ db (complete_game db_fails now body w).2 =
            store_game (db w) (cg_game_key body)
              (completed_game (load_game row) (game_winner (load_game row)) now).
Proof.
  destruct body as [key]. cbn [cg_game_key].
  destruct (games_tbl (db w) !! key) as [row|] eqn:Hk.
  - rewrite (complete_game_run _ _ _ _ row Hk). cbn zeta. cbn [snd db].
    destruct db_fails; [left; done|]. right. exists row. done.
  - left. unfold complete_game, load_all_games, h_bind, read_db, h_ret. cbn beta iota.
    cbn [cg_game_key]. rewrite lookup_fmap, Hk. reflexivity.
Qed.

Lemma zero_score_nonneg : nonneg zero_score.
Proof. unfold nonneg, zero_score. cbn. lia. Qed.

Lemma loaded_nonneg row sk s :
  (forall n sc, set_rows row !! n = Some sc -> nonneg sc) ->
  sets (load_game row) !! sk = Some s -> nonneg s.
Proof.
  intros Hrows. cbn [load_game sets]. rewrite load_sets_eq. intros Hs.
  assert (Hd : forall n, nonneg (default zero_score (set_rows row !! n))).
  { intros n. destruct (set_rows row !! n) as [sc|] eqn:Hn; cbn [default].
    - eapply Hrows; done.
    - apply zero_score_nonneg. }
  destruct (decide (sk = "set1")) as [->|]; [|destruct (decide (sk = "set2")) as [->|]];
    simplify_map_eq; apply Hd.
Qed.

Lemma upsert_set_rows_from g rows n sc :
  upsert_set_rows g rows !! n = Some sc ->
  (exists sk, sets g !! sk = Some sc) \/ rows !! n = Some sc.
Proof.
  unfold upsert_set_rows. generalize set_numbers as l. intros l. revert rows.
  induction l as [|m l IH]; intros rows; cbn [foldl]; [auto|].
  intros [Hg | Hr]%IH; [auto|].
  destruct (sets g !! set_key m) as [s|] eqn:Hm; [|auto].
  destruct (decide (m = n)) as [->|Hne].
  - rewrite lookup_insert_eq in Hr. left. exists (set_key n).
    destruct s. cbn in Hr. congruence.
  - rewrite lookup_insert_ne in Hr by done. auto.
Qed.

Lemma store_game_nonneg d key g :
  scores_nonneg d ->
  (forall sk s, sets g !! sk = Some s -> nonneg s) ->
  scores_nonneg (store_game d key g).
Proof.
  intros Hd Hg key' row n sc. cbn [store_game games_tbl].
  destruct (decide (key = key')) as [->|Hne].
  - rewrite lookup_insert_eq. intros [= <-].
    cbn [save_game_row set_rows]. intros [[sk Hs] | Hr]%upsert_set_rows_from.
    + eapply Hg; done.
    + destruct (games_tbl d !! key') as [r|] eqn:Hold; cbn [upsert_game_row set_rows] in Hr.
      * eapply Hd; done.
      * rewrite lookup_empty in Hr. done.
  - rewrite lookup_insert_ne by done. apply Hd.
Qed.

Lemma score_set_nonneg s field v :
  nonneg s -> (0 <= v)%Z -> nonneg (score_set s field v).
Proof.
  intros [H1 H2] Hv. unfold score_set, nonneg. repeat case_decide; cbn; auto.
Qed.

Lemma serve_nonneg db_fails now r w :
  scores_nonneg (db w) -> scores_nonneg (db (serve db_fails now r w)).
Proof.
  intros Hinv. destruct r as [body|name|stamp body|body|body|]; cbn [serve].
  - destruct (create_team_db db_fails body w) as [-> | (n & r & _ & _ & ->)]; [done|].
    exact Hinv.
  - intros key row n sc. rewrite (proj1 (remove_team_db db_fails name w)). apply Hinv.
  - rewrite create_game_run. cbn zeta. cbn [snd db]. unfold saved.
    destruct db_fails; [done|]. apply store_game_nonneg; [done|].
    intros sk s. cbn [new_game sets]. unfold default_sets. intros Hs.
    destruct (decide (sk = "set1")) as [->|]; [|destruct (decide (sk = "set2")) as [->|]];
      simplify_map_eq; apply zero_score_nonneg.
  - destruct (update_score_db db_fails body w)
      as [-> | (row & the_set & v & Hk & _ & Hs & Hv & ->)]; [done|].
    assert (Hl : forall sk s, sets (load_game row) !! sk = Some s -> nonneg s).
    { intros sk s. apply loaded_nonneg. intros n sc. eapply Hinv; done. }
    apply store_game_nonneg; [done|]. intros sk s. cbn [with_sets sets].
    destruct (decide (su_set_key body = sk)) as [->|Hne].
    + rewrite lookup_insert_eq. intros [= <-]. apply score_set_nonneg; [|done].
      eapply Hl; done.
    + rewrite lookup_insert_ne by done. apply Hl.
  - destruct (complete_game_db db_fails now body w) as [-> | (row & Hk & ->)]; [done|].
    apply store_game_nonneg; [done|]. intros sk s. cbn [completed_game sets].
    apply loaded_nonneg. intros n sc. eapply Hinv; done.
  - rewrite reset_tournament_run. destruct db_fails; [done|]. cbn [snd db].
    intros key row n sc. cbn. rewrite lookup_empty. done.
Qed.

Lemma reachable_nonneg w : reachable w -> scores_nonneg (db w).
Proof.
  induction 1 as [|w db_fails now r _ IH].
  - intros key row n sc. cbn. rewrite lookup_empty. done.
  - apply serve_nonneg. exact IH.
Qed.






(** ** Game creation *)

Lemma substring_fits s : forall n,
  (String.length s <= n)%nat -> String.substring 0 n s = s.
Proof.
  induction s as [|c s IH]; intros [|n] H; cbn in *; try reflexivity; try lia.
  f_equal. apply IH. lia.
Qed.

Lemma varchar_fits n s : (String.length s <= n)%nat -> varchar n s = s.
Proof. apply substring_fits. Qed.


Lemma varchar_length n s : (String.length (varchar n s) <= n)%nat.
Proof.
  unfold varchar. revert n.
  induction s as [|c s IH]; intros [|n]; cbn; try lia.
  specialize (IH n). lia.
Qed.

Lemma pg_varchar_holds n s v : pg_varchar n s = Some v -> v = varchar n s.
Proof.
  unfold pg_varchar. case_bool_decide as H.
  - intros [= <-]. symmetry. apply varchar_fits, H.
  - destruct (is_spaces _); [intros [= <-]; reflexivity | discriminate].
Qed.

Lemma load_new_game body now :
  load_game (save_game_row None (new_game body now)) =
  {| team1 := varchar 255 (gc_team1 body);
     team2 := varchar 255 (gc_team2 body);
     sets := default_sets;
     completed := false;
     winner := None;
     start_time := Some now;
     end_time := None |}.
Proof.
  unfold load_game, save_game_row, new_game.
  cbn [upsert_game_row team1_name team2_name gr_completed gr_winner gr_start_time
       gr_end_time set_rows team1 team2 completed winner start_time end_time sets].
  f_equal;
    exact (sets_roundtrip (Build_Game "" "" default_sets false None None None) ∅
             zero_score zero_score eq_refl).
Qed.

(** C4, as the code has it.  [create_game] does not look at the registered
    teams and does not compare the two names: for every pair of names it
    answers with the generated key and the fresh game, so it never raises
    an error for equal or unregistered names.  When the store accepts the
    write under a fresh key, the game is stored with each name as its
    [VARCHAR(255)] column holds it, that is cut to 255 characters; for
    names of at most 255 characters the game is stored as built. *)
Theorem create_game_unvalidated db_fails stamp now body w :
  let out := create_game db_fails stamp now body w in
  let key := make_game_key body stamp in
  out.1 = Returned (key, new_game body now)
  /\ published out.2 = published w ++ [games_updated (games_of (db out.2))]
  /\ (db_fails = false -> games_tbl (db w) !! key = None ->
      games_of (db out.2) !! key
      = Some {| team1 := varchar 255 (gc_team1 body);
                team2 := varchar 255 (gc_team2 body);
                sets := default_sets;
                completed := false;
                winner := None;
                start_time := Some now;
                end_time := None |})
  /\ (db_fails = false -> games_tbl (db w) !! key = None ->
      (String.length (gc_team1 body) <= 255)%nat ->
      (String.length (gc_team2 body) <= 255)%nat ->
      games_of (db out.2) !! key = Some (new_game body now)).
Proof.
  cbn zeta. rewrite create_game_run. cbn zeta. cbn [fst snd db published].
  split; [reflexivity|]. split; [reflexivity|].
  assert (Hstored : db_fails = false -> games_tbl (db w) !! make_game_key body stamp = None ->
                    games_of (saved db_fails (db w) (make_game_key body stamp)
                                (new_game body now))
                      !! make_game_key body stamp
                    = Some (load_game (save_game_row None (new_game body now)))).
  { intros -> Hfresh. unfold games_of. cbn [saved store_game games_tbl].
    rewrite lookup_fmap, lookup_insert_eq, Hfresh. reflexivity. }
  split.
  - intros Hok Hfresh. rewrite <- load_new_game. exact (Hstored Hok Hfresh).
  - intros Hok Hfresh H1 H2.
    rewrite (Hstored Hok Hfresh), load_new_game.
    rewrite (varchar_fits _ _ H1), (varchar_fits _ _ H2). reflexivity.
Qed.

Lemma create_game_unvalidated_witness :
  games_tbl (db initial_world) !! "Aces_vs_Zebras_20240601_101500" = None
  /\ (String.length "Aces" <= 255)%nat
  /\ (String.length "Zebras" <= 255)%nat
  /\ games_of (db (create_game false "20240601_101500" 100
                     {| gc_team1 := "Aces"; gc_team2 := "Zebras" |} initial_world).2)
       !! "Aces_vs_Zebras_20240601_101500"
     = Some (new_game {| gc_team1 := "Aces"; gc_team2 := "Zebras" |} 100).
Proof.
  assert (H1 : (String.length "Aces" <= 255)%nat) by (cbn; lia).
  assert (H2 : (String.length "Zebras" <= 255)%nat) by (cbn; lia).
  split; [reflexivity|]. split; [exact H1|]. split; [exact H2|].
  exact (proj2 (proj2 (proj2 (create_game_unvalidated false "20240601_101500" 100
                         {| gc_team1 := "Aces"; gc_team2 := "Zebras" |} initial_world)))
           eq_refl eq_refl H1 H2).
Defined.

(** C4, as stated, fails: on the empty store, where no team is registered,
    a request naming the same team twice is answered with success and the
    game is stored with both sides equal. *)
Lemma create_game_same_team_accepted :
  teams_tbl (db initial_world) !! "Aces" = None
  /\ (create_game false "20240601_101500" 100
        {| gc_team1 := "Aces"; gc_team2 := "Aces" |} initial_world).1
     = Returned ("Aces_vs_Aces_20240601_101500",
                 new_game {| gc_team1 := "Aces"; gc_team2 := "Aces" |} 100)
  /\ exists row,
      games_tbl (db (create_game false "20240601_101500" 100
                       {| gc_team1 := "Aces"; gc_team2 := "Aces" |} initial_world).2)
        !! "Aces_vs_Aces_20240601_101500" = Some row
      /\ team1_name row = "Aces" /\ team2_name row = "Aces".
Proof.
  split; [reflexivity|]. split; [reflexivity|].
  eexists. split; [vm_compute; reflexivity|]. split; reflexivity.
Qed.

(** ** Team registration *)



(** Names are compared as they are spelled: with "Aces" stored, "aces" is a
    new team. *)
Example team_names_case_sensitive :
  (create_team false
     {| tc_team_name := "aces"; tc_player1 := ""; tc_player2 := ""; tc_pool := "B" |}
     (create_team false
        {| tc_team_name := "Aces"; tc_player1 := ""; tc_player2 := ""; tc_pool := "A" |}
        initial_world).2).1
  = Returned "aces".
Proof. reflexivity. Qed.


Lemma team_insert_holds name p1 p2 pl n r :
  team_insert name p1 p2 pl = Some (n, r) ->
  n = varchar 255 name
  /\ r = {| tr_player1 := varchar 255 p1; tr_player2 := varchar 255 p2;
            tr_pool := varchar 1 pl |}.
Proof.
  unfold team_insert.
  destruct (pg_varchar 255 name) as [a|] eqn:Ha; [|discriminate].
  destruct (pg_varchar 255 p1) as [b|] eqn:Hb; [|discriminate].
  destruct (pg_varchar 255 p2) as [c|] eqn:Hc; [|discriminate].
  destruct (pg_varchar 1 pl) as [d|] eqn:Hd; [|discriminate].
  intros [= <- <-].
  rewrite (pg_varchar_holds _ _ _ Ha), (pg_varchar_holds _ _ _ Hb),
    (pg_varchar_holds _ _ _ Hc), (pg_varchar_holds _ _ _ Hd). done.
Qed.





(** ** Broadcasts and failed writes *)

(** C5, evaluated on the code.  [create_team] and [reset_tournament] check
    what the adapter reports and publish nothing when the write failed.
    [create_game], [update_score] and [complete_game] drop the result of
    [save_game]: when the store rejects the write they leave the store as it
    was, still publish their message and still answer with success. *)
Theorem failed_save_still_broadcasts :
  (forall body w,
      (size (teams_tbl (db w)) < MAX_TEAMS)%nat ->
      teams_tbl (db w) !! tc_team_name body = None ->
      create_team true body w = (Raised DatabaseError, w))
  /\ (forall w,
        reset_tournament true w = (Raised (HTTPException 500 "Reset failed"), w))
  /\ (forall stamp now body w,
        create_game true stamp now body w =
          (Returned (make_game_key body stamp, new_game body now),
           {| db := db w; published := published w ++ [games_updated (games_of (db w))] |}))
  /\ (forall key sk team delta w row the_set,
        games_tbl (db w) !! key = Some row ->
        gr_completed row = false ->
        sk ∈ set_key <$> set_numbers ->
        sets (load_game row) !! sk = Some the_set ->
        team ∈ ["team1"; "team2"] ->
        update_score true
          {| su_game_key := key; su_set_key := sk; su_team := team; su_delta := delta |} w =
          (Returned (load_game row),
           {| db := db w;
              published := published w ++ [score_updated key (games_of (db w))] |}))
  /\ (forall now key w row,
        games_tbl (db w) !! key = Some row ->
        complete_game true now {| cg_game_key := key |} w =
          (Returned (game_winner (load_game row)),
           {| db := db w; published := published w ++ [game_completed (games_of (db w))] |})).
Proof.
  split; [|split; [|split; [|split]]].
  - intros body w Hroom Hnew. exact (create_team_new true body w Hroom Hnew).
  - intros w. exact (reset_tournament_run true w).
  - intros stamp now body w. exact (create_game_run true stamp now body w).
  - intros key sk team delta w row the_set Hk Hc Hsk Hs Ht.
    exact (update_score_accepted true key sk team delta w row the_set Hk Hc Hsk Hs Ht).
  - intros now key w row Hk. exact (complete_game_run true now key w row Hk).
Qed.

Lemma failed_save_still_broadcasts_witness :
  create_game true "20240601_101500" 100
    {| gc_team1 := "Aces"; gc_team2 := "Blockers" |} initial_world
  = (Returned ("Aces_vs_Blockers_20240601_101500",
               new_game {| gc_team1 := "Aces"; gc_team2 := "Blockers" |} 100),
     {| db := empty_database; published := [games_updated ∅] |}).
Proof.
  exact (proj1 (proj2 (proj2 failed_save_still_broadcasts))
           "20240601_101500" 100%Z {| gc_team1 := "Aces"; gc_team2 := "Blockers" |}
           initial_world).
Defined.

(** ** Completing a game twice *)

Lemma load_saved_completed row w0 now :
  load_game (save_game_row (Some row) (completed_game (load_game row) w0 now))
  = completed_game (load_game row) w0 now.
Proof.
  unfold load_game at 1, save_game_row, completed_game.
  cbn [upsert_game_row team1_name team2_name gr_completed gr_winner gr_start_time
       gr_end_time set_rows load_game team1 team2 completed winner start_time end_time sets].
  f_equal.
  refine (sets_roundtrip (Build_Game _ _ (load_sets (set_rows row)) _ _ _ _) _
            (default zero_score (set_rows row !! 1%nat))
            (default zero_score (set_rows row !! 2%nat)) _).
  cbn [sets]. apply load_sets_eq.
Qed.

(** C8.  [complete_game] can be repeated: on an existing game a second call
    answers without an error and with the same winner as the first call, and
    the stored [start_time] is the one the game had before either call.
    After a first call that the store accepted the game is completed. *)
Theorem complete_game_idempotent db_fails1 db_fails2 now1 now2 key w row :
  games_tbl (db w) !! key = Some row ->
  let out1 := complete_game db_fails1 now1 {| cg_game_key := key |} w in
  let out2 := complete_game db_fails2 now2 {| cg_game_key := key |} out1.2 in
  (exists winner, out1.1 = Returned winner /\ out2.1 = Returned winner)
  /\ (exists row1 row2,
        games_tbl (db out1.2) !! key = Some row1
        /\ games_tbl (db out2.2) !! key = Some row2
        /\ (db_fails1 = false -> gr_completed row1 = true)
        /\ gr_start_time row1 = gr_start_time row
        /\ gr_start_time row2 = gr_start_time row).
Proof.
  intros Hk out1 out2. subst out2 out1.
  rewrite (complete_game_run db_fails1 now1 key w row Hk). cbn zeta. cbn [fst snd].
  set (g := load_game row).
  set (d1 := saved db_fails1 (db w) key (completed_game g (game_winner g) now1)).
  set (w1 := {| db := d1; published := _ |}).
  assert (Hk1 : exists row1,
             games_tbl (db w1) !! key = Some row1
             /\ game_winner (load_game row1) = game_winner g
             /\ (db_fails1 = false -> gr_completed row1 = true)
             /\ gr_start_time row1 = gr_start_time row).
  { subst w1 d1. cbn [db]. unfold saved. destruct db_fails1.
    - exists row. repeat split; done.
    - cbn [store_game games_tbl]. rewrite lookup_insert_eq, Hk. eexists.
      split; [reflexivity|]. subst g. rewrite load_saved_completed.
      repeat split; reflexivity. }
  destruct Hk1 as (row1 & Hrow1 & Hwin & Hdone & Hstart).
  rewrite (complete_game_run db_fails2 now2 key w1 row1 Hrow1). cbn zeta. cbn [fst snd db].
  split.
  - exists (game_winner g). rewrite Hwin. done.
  - exists row1. unfold saved. destruct db_fails2.
    + exists row1. repeat split; done.
    + cbn [store_game games_tbl]. rewrite lookup_insert_eq. eexists.
      split; [done|]. split; [reflexivity|]. split; [done|]. split; [done|].
      rewrite Hrow1. cbn. done.
Qed.

Lemma complete_game_idempotent_witness :
  games_tbl (db (one_game_world "k" (sample_row false (score 21 15) (score 21 18)))) !! "k"
    = Some (sample_row false (score 21 15) (score 21 18))
  /\ exists winner,
      (complete_game false 200 {| cg_game_key := "k" |}
         (one_game_world "k" (sample_row false (score 21 15) (score 21 18)))).1
        = Returned winner
      /\ (complete_game false 300 {| cg_game_key := "k" |}
            (complete_game false 200 {| cg_game_key := "k" |}
               (one_game_world "k" (sample_row false (score 21 15) (score 21 18)))).2).1
         = Returned winner.
Proof.
  split; [reflexivity|].
  exact (proj1 (complete_game_idempotent false false 200 300 "k"
                  (one_game_world "k" (sample_row false (score 21 15) (score 21 18)))
                  (sample_row false (score 21 15) (score 21 18)) eq_refl)).
Defined.


(** ** The end time of a game *)











(** ** Ordered dicts *)

Lemma map_entries_keys h l : (map_entries h l).*1 = l.*1.
Proof. unfold map_entries. rewrite <- list_fmap_compose. reflexivity. Qed.

Lemma map_entries_compose h1 h2 l :
  map_entries h2 (map_entries h1 l) = map_entries (fun n e => h2 n (h1 n e)) l.
Proof. unfold map_entries. rewrite <- list_fmap_compose. reflexivity. Qed.

Lemma map_entries_absent f k l :
  k ∉ l.*1 -> map_entries (at_key k f) l = l.
Proof.
  induction l as [|[k' v] l IH]; [done|]. cbn [fmap list_fmap fst].
  intros [Hne Hk]%not_elem_of_cons.
  unfold map_entries in *. cbn [fmap list_fmap fst snd]. unfold at_key at 1.
  rewrite decide_False by done. f_equal. apply IH. exact Hk.
Qed.

Lemma od_alter_entries f k l :
  NoDup l.*1 -> od_alter f k l = map_entries (at_key k f) l.
Proof.
  induction l as [|[k' v] l IH]; [done|].
  cbn [fmap list_fmap fst]. intros [Hk' Hnd]%NoDup_cons.
  cbn [od_alter].
  change (map_entries (at_key k f) ((k', v) :: l))
    with ((k', at_key k f k' v) :: map_entries (at_key k f) l).
  unfold at_key at 1.
  destruct (decide (k' = k)) as [->|Hne].
  - rewrite map_entries_absent by done. reflexivity.
  - rewrite IH by done. reflexivity.
Qed.

Lemma od_mem_elem {V} k (l : list (string * V)) : od_mem k l = bool_decide (k ∈ l.*1).
Proof.
  induction l as [|[k' v] l IH]; [done|]. cbn [od_mem fmap list_fmap fst].
  destruct (decide (k' = k)) as [->|Hne].
  - symmetry. apply bool_decide_eq_true_2. left.
  - rewrite IH. apply bool_decide_ext. rewrite elem_of_cons.
    split; [auto | intros [Heq | Hin]; [congruence | exact Hin]].
Qed.

Lemma od_set_absent {V} k (v : V) l : k ∉ l.*1 -> od_set k v l = l ++ [(k, v)].
Proof.
  induction l as [|[k' v'] l IH]; [done|]. cbn [od_set fmap list_fmap fst].
  intros [Hne Hk]%not_elem_of_cons. rewrite decide_False by done.
  rewrite IH by done. reflexivity.
Qed.

Lemma initial_standings teams : forall acc,
  NoDup (acc.*1 ++ teams.*1) ->
  foldl (fun acc '(team_name, td) => od_set team_name (zero_standing team_name td) acc)
        acc teams
  = acc ++ ((fun p => (p.1, zero_standing p.1 p.2)) <$> teams).
Proof.
  induction teams as [|[name td] teams IH]; intros acc Hnd.
  - cbn. by rewrite app_nil_r.
  - cbn [foldl fmap list_fmap fst snd] in *.
    assert (Hname : name ∉ acc.*1).
    { apply NoDup_app in Hnd as (_ & Hdisj & _). intros Hin. apply (Hdisj _ Hin). left. }
    rewrite od_set_absent by done. rewrite IH.
    + rewrite <- app_assoc. reflexivity.
    + rewrite fmap_app. cbn [fmap list_fmap fst]. rewrite <- app_assoc. exact Hnd.
Qed.


(** ** The loops of the standings, entry by entry *)

Lemma od_alter_keys {V} (f : V -> V) k (l : list (string * V)) : (od_alter f k l).*1 = l.*1.
Proof.
  induction l as [|[k' v] l IH]; [done|]. cbn [od_alter].
  destruct (decide (k' = k)); cbn [fmap list_fmap fst]; [done|]. f_equal. exact IH.
Qed.

Lemma map_entries_id l : map_entries (fun _ e => e) l = l.
Proof.
  unfold map_entries. induction l as [|[k v] l IH]; [done|].
  cbn [fmap list_fmap fst snd]. f_equal. exact IH.
Qed.

Ltac alter_entries :=
  repeat (rewrite od_alter_entries
            by (rewrite ?od_alter_keys, ?map_entries_keys; assumption));
  rewrite ?map_entries_compose.

Lemma count_set_entries t1 t2 s1 s2 l :
  NoDup l.*1 ->
  count_set t1 t2 s1 s2 l = map_entries (set_effect t1 t2 s1 s2) l.
Proof.
  intros Hnd. unfold count_set, set_effect.
  destruct (bool_decide (s1 > s2)%Z); [|destruct (bool_decide (s2 > s1)%Z)];
    alter_entries; reflexivity.
Qed.

Lemma count_sets_entries g t1 t2 sns : forall l,
  NoDup l.*1 ->
  (forall n, n ∈ sns -> is_Some (sets g !! set_key n)) ->
  count_sets g t1 t2 sns l = Some (map_entries (sets_effect t1 t2 (set_score g <$> sns)) l).
Proof.
  induction sns as [|sn sns IH]; intros l Hnd Hsets.
  - cbn. by rewrite map_entries_id.
  - cbn [count_sets fmap list_fmap sets_effect].
    destruct (Hsets sn) as [s Hs]; [left|]. rewrite Hs.
    rewrite count_set_entries by done.
    rewrite IH.
    + rewrite map_entries_compose.
      assert (Hss : set_score g sn = s) by (unfold set_score; by rewrite Hs).
      rewrite Hss. reflexivity.
    + rewrite map_entries_keys. exact Hnd.
    + intros n Hn. apply Hsets. by right.
Qed.

Lemma count_game_entries teams g l :
  NoDup l.*1 -> l.*1 = teams.*1 ->
  (counted teams g -> has_all_sets g) ->
  count_game l g = Some (map_entries (game_effect teams g) l).
Proof.
  intros Hnd Hkeys Hsets. unfold count_game, game_effect.
  rewrite !od_mem_elem, Hkeys.
  destruct (decide (counted teams g)) as [Hc|Hc].
  - destruct Hc as (Hdone & H1 & H2).
    rewrite Hdone. cbn [negb].
    rewrite !bool_decide_eq_true_2 by done. cbn [negb orb].
    alter_entries.
    rewrite count_sets_entries.
    + alter_entries. unfold set_scores. reflexivity.
    + rewrite map_entries_keys. exact Hnd.
    + apply Hsets. done.
  - rewrite map_entries_id.
    destruct (completed g) eqn:Hdone; cbn [negb]; [|done].
    destruct (decide (team1 g ∈ teams.*1)) as [H1|H1].
    + rewrite (bool_decide_eq_true_2 _ H1). cbn [negb orb].
      destruct (decide (team2 g ∈ teams.*1)) as [H2|H2].
      * exfalso. apply Hc. done.
      * rewrite (bool_decide_eq_false_2 _ H2). done.
    + rewrite (bool_decide_eq_false_2 _ H1). done.
Qed.

Lemma count_games_entries teams gs : forall l,
  NoDup l.*1 -> l.*1 = teams.*1 ->
  (forall g, g ∈ gs -> counted teams g -> has_all_sets g) ->
  count_games l gs = Some (map_entries (games_effect teams gs) l).
Proof.
  induction gs as [|g gs IH]; intros l Hnd Hkeys Hsets.
  - cbn. by rewrite map_entries_id.
  - cbn [count_games games_effect].
    rewrite (count_game_entries teams g l Hnd Hkeys) by (apply Hsets; left).
    rewrite IH.
    + rewrite map_entries_compose. reflexivity.
    + rewrite map_entries_keys. exact Hnd.
    + rewrite map_entries_keys. exact Hkeys.
    + intros g' Hg'. apply Hsets. by right.
Qed.


(** ** The effect of the games on one entry *)

Lemma Standing_ext (e1 e2 : Standing) :
  st_team e1 = st_team e2 -> st_pool e1 = st_pool e2 ->
  games_played e1 = games_played e2 ->
  set_wins e1 = set_wins e2 -> set_losses e1 = set_losses e2 ->
  points_for e1 = points_for e2 -> points_against e1 = points_against e2 ->
  point_differential e1 = point_differential e2 ->
  e1 = e2.
Proof. destruct e1, e2. cbn. congruence. Qed.

Lemma set_effect_fields t1 t2 s n e :
  let e' := set_effect t1 t2 (team1_score s) (team2_score s) n e in
  st_team e' = st_team e /\ st_pool e' = st_pool e
  /\ games_played e' = games_played e
  /\ point_differential e' = point_differential e
  /\ set_wins e' = (set_wins e + (when (n = t1 /\ team1_wins_set s) 1
                                  + when (n = t2 /\ team2_wins_set s) 1))%Z
  /\ set_losses e' = (set_losses e + (when (n = t1 /\ team2_wins_set s) 1
                                      + when (n = t2 /\ team1_wins_set s) 1))%Z
  /\ points_for e' = (points_for e + (when (n = t1) (team1_score s)
                                      + when (n = t2) (team2_score s)))%Z
  /\ points_against e' = (points_against e + (when (n = t1) (team2_score s)
                                              + when (n = t2) (team1_score s)))%Z.
Proof.
  cbn zeta. unfold set_effect, at_key, when, team1_wins_set, team2_wins_set.
  destruct (decide (n = t1)), (decide (n = t2));
    repeat case_bool_decide; repeat case_decide;
    cbn; repeat split; first [reflexivity | lia | exfalso; intuition lia].
Qed.

Lemma sets_effect_fields t1 t2 ss n : forall e,
  let e' := sets_effect t1 t2 ss n e in
  st_team e' = st_team e /\ st_pool e' = st_pool e
  /\ games_played e' = games_played e
  /\ point_differential e' = point_differential e
  /\ set_wins e' = (set_wins e
       + sum_list ((fun s => when (n = t1 /\ team1_wins_set s) 1
                             + when (n = t2 /\ team2_wins_set s) 1)%Z <$> ss))%Z
  /\ set_losses e' = (set_losses e
       + sum_list ((fun s => when (n = t1 /\ team2_wins_set s) 1
                             + when (n = t2 /\ team1_wins_set s) 1)%Z <$> ss))%Z
  /\ points_for e' = (points_for e
       + sum_list ((fun s => when (n = t1) (team1_score s)
                             + when (n = t2) (team2_score s))%Z <$> ss))%Z
  /\ points_against e' = (points_against e
       + sum_list ((fun s => when (n = t1) (team2_score s)
                             + when (n = t2) (team1_score s))%Z <$> ss))%Z.
Proof.
  induction ss as [|s ss IH]; intros e; cbn zeta.
  - cbn. repeat split; lia.
  - cbn [sets_effect fmap list_fmap sum_list foldr].
    destruct (IH (set_effect t1 t2 (team1_score s) (team2_score s) n e))
      as (-> & -> & -> & -> & -> & -> & -> & ->).
    destruct (set_effect_fields t1 t2 s n e) as (-> & -> & -> & -> & -> & -> & -> & ->).
    unfold sum_list. repeat split; lia.
Qed.

Lemma sum_list_zero {A} (f : A -> Z) l :
  (forall x, f x = 0%Z) -> sum_list (f <$> l) = 0%Z.
Proof.
  intros Hf. induction l as [|x l IH]; [done|].
  cbn [fmap list_fmap sum_list foldr]. unfold sum_list in IH. rewrite IH, Hf. done.
Qed.

Lemma game_effect_bump teams g n e :
  balanced e ->
  game_effect teams g n e =
    if decide (counted teams g) then
      bump e (game_played n g) (game_set_wins n g) (game_set_losses n g)
           (game_points_for n g) (game_points_against n g)
    else e.
Proof.
  intros Hbal. unfold game_effect. destruct (decide (counted teams g)) as [Hc|]; [|done].
  cbn zeta.
  set (e1 := at_key (team2 g) (add_games_played 1)
               n (at_key (team1 g) (add_games_played 1) n e)).
  destruct (sets_effect_fields (team1 g) (team2 g) (set_scores g) n e1)
    as (Ht & Hp & Hgp & Hpd & Hw & Hl & Hpf & Hpa).
  set (e2 := sets_effect (team1 g) (team2 g) (set_scores g) n e1) in *.
  assert (He1 : st_team e1 = st_team e /\ st_pool e1 = st_pool e
                /\ games_played e1 = (games_played e + game_played n g)%Z
                /\ point_differential e1 = point_differential e
                /\ set_wins e1 = set_wins e /\ set_losses e1 = set_losses e
                /\ points_for e1 = points_for e /\ points_against e1 = points_against e).
  { subst e1. unfold at_key, game_played, when.
    destruct (decide (n = team1 g)), (decide (n = team2 g)); cbn; repeat split; lia. }
  destruct He1 as (Ht1 & Hp1 & Hgp1 & Hpd1 & Hw1 & Hl1 & Hpf1 & Hpa1).
  unfold balanced in Hbal.
  assert (Hnone : n <> team1 g -> n <> team2 g ->
                  game_points_for n g = 0%Z /\ game_points_against n g = 0%Z).
  { intros H1 H2. unfold game_points_for, game_points_against.
    split; apply sum_list_zero; intros s; unfold when;
      rewrite !decide_False by done; done. }
  apply Standing_ext; unfold at_key;
    destruct (decide (n = team1 g)) as [E1|E1], (decide (n = team2 g)) as [E2|E2];
    cbn [set_differential bump st_team st_pool games_played set_wins set_losses
         points_for points_against point_differential];
    unfold game_set_wins, game_set_losses, game_points_for, game_points_against in *;
    try (destruct (Hnone E1 E2) as [Hz1 Hz2]); lia || congruence.
Qed.


Lemma bump_balanced e gp w l pf pa : balanced (bump e gp w l pf pa).
Proof. reflexivity. Qed.

Lemma total_cons f (g : Game) gs : total f (g :: gs) = (f g + total f gs)%Z.
Proof. reflexivity. Qed.

Lemma games_effect_bump teams gs n : forall e,
  balanced e ->
  games_effect teams gs n e =
    let cs := filter (counted teams) gs in
    bump e (total (game_played n) cs) (total (game_set_wins n) cs)
         (total (game_set_losses n) cs) (total (game_points_for n) cs)
         (total (game_points_against n) cs).
Proof.
  induction gs as [|g gs IH]; intros e Hbal; cbn zeta.
  - unfold balanced in Hbal. apply Standing_ext; cbn; lia || reflexivity.
  - cbn [games_effect]. rewrite game_effect_bump by done.
    destruct (decide (counted teams g)) as [Hc|Hc].
    + rewrite IH by apply bump_balanced. cbn zeta.
      rewrite filter_cons_True by done. rewrite !total_cons.
      apply Standing_ext; cbn; lia || reflexivity.
    + rewrite IH by done. cbn zeta. rewrite filter_cons_False by done. reflexivity.
Qed.

Lemma games_effect_spec teams gs n td :
  games_effect teams gs n (zero_standing n td) = standing_spec teams gs n td.
Proof.
  rewrite games_effect_bump by reflexivity. cbn zeta.
  apply Standing_ext; cbn; lia || reflexivity.
Qed.

(** ** Sorting the standings *)

Lemma key_lt_false x y : key_lt (sort_key x) (sort_key y) = false -> key_ge x y.
Proof.
  unfold key_lt, sort_key, key_ge. cbn [fst snd]. intros H.
  apply orb_false_iff in H as [H1 H2]. apply Z.ltb_ge in H1.
  apply andb_false_iff in H2 as [H2|H2]; [apply Z.eqb_neq in H2|apply Z.ltb_ge in H2]; lia.
Qed.

Lemma key_lt_true x y : key_lt (sort_key x) (sort_key y) = true -> key_ge y x.
Proof.
  unfold key_lt, sort_key, key_ge. cbn [fst snd]. intros H.
  apply orb_true_iff in H as [H|H]; [apply Z.ltb_lt in H; lia|].
  apply andb_true_iff in H as [H1 H2]. apply Z.eqb_eq in H1. apply Z.ltb_lt in H2. lia.
Qed.

Lemma key_ge_trans x y z : key_ge x y -> key_ge y z -> key_ge x z.
Proof. unfold key_ge. lia. Qed.

Lemma insert_desc_perm x l : insert_desc x l ≡ₚ x :: l.
Proof.
  induction l as [|y l IH]; [done|]. cbn [insert_desc].
  destruct (key_lt (sort_key x) (sort_key y)); [|done].
  rewrite IH. apply Permutation_swap.
Qed.

Lemma sorted_desc_perm l : sorted_desc l ≡ₚ l.
Proof.
  induction l as [|x l IH]; [done|]. cbn [sorted_desc foldr].
  rewrite insert_desc_perm. fold (sorted_desc l). by rewrite IH.
Qed.

Lemma insert_desc_sorted x l :
  StronglySorted key_ge l -> StronglySorted key_ge (insert_desc x l).
Proof.
  induction l as [|y l IH]; intros Hs; cbn [insert_desc].
  - repeat constructor.
  - apply StronglySorted_inv in Hs as [Hs Hy].
    destruct (key_lt (sort_key x) (sort_key y)) eqn:Hlt.
    + constructor; [by apply IH|].
      rewrite insert_desc_perm. constructor; [by apply key_lt_true|done].
    + apply key_lt_false in Hlt. constructor.
      * by constructor.
      * constructor; [done|]. eapply Forall_impl; [exact Hy|].
        intros z Hz. by eapply key_ge_trans.
Qed.

Lemma sorted_desc_sorted l : StronglySorted key_ge (sorted_desc l).
Proof.
  induction l as [|x l IH]; [constructor|].
  cbn [sorted_desc foldr]. by apply insert_desc_sorted.
Qed.

Lemma key_lt_same x y : sort_key x = sort_key y -> key_lt (sort_key x) (sort_key y) = false.
Proof.
  intros ->. unfold key_lt. rewrite !Z.ltb_irrefl, Z.eqb_refl. reflexivity.
Qed.

(** The sort is stable: the entries of one key keep their order. *)
Lemma insert_desc_stable k x l :
  filter (fun e => sort_key e = k) (insert_desc x l)
  = filter (fun e => sort_key e = k) (x :: l).
Proof.
  induction l as [|y l IH]; [done|]. cbn [insert_desc].
  destruct (key_lt (sort_key x) (sort_key y)) eqn:Hlt; [|done].
  destruct (decide (sort_key y = k)) as [Hy|Hy].
  - rewrite (filter_cons_True _ y) by done. rewrite IH.
    assert (Hx : sort_key x <> k).
    { intros Hx. rewrite key_lt_same in Hlt by congruence. done. }
    rewrite !(filter_cons_False _ x) by done.
    rewrite (filter_cons_True _ y) by done. reflexivity.
  - rewrite (filter_cons_False _ y) by done. rewrite IH.
    destruct (decide (sort_key x = k)) as [Hx|Hx].
    + rewrite !(filter_cons_True _ x) by done.
      rewrite (filter_cons_False _ y) by done. reflexivity.
    + rewrite !(filter_cons_False _ x) by done.
      rewrite (filter_cons_False _ y) by done. reflexivity.
Qed.

Lemma sorted_desc_stable k l :
  filter (fun e => sort_key e = k) (sorted_desc l) = filter (fun e => sort_key e = k) l.
Proof.
  induction l as [|x l IH]; [done|]. cbn [sorted_desc foldr].
  rewrite insert_desc_stable. fold (sorted_desc l).
  destruct (decide (sort_key x = k)).
  - rewrite !(filter_cons_True _ x) by done. by rewrite IH.
  - rewrite !(filter_cons_False _ x) by done. exact IH.
Qed.

(** The ranking example of the specification: two set wins with +10 rank
    above two set wins with +3, which rank above one set win with +50. *)
Example ranking_example :
  let entry name w d :=
    {| st_team := name; st_pool := "A"; games_played := 2; set_wins := w; set_losses := 0;
       points_for := d; points_against := 0; point_differential := d |} in
  sorted_desc [entry "C" 1 50; entry "B" 2 3; entry "A" 2 10]%Z
  = [entry "A" 2 10; entry "B" 2 3; entry "C" 1 50]%Z.
Proof. reflexivity. Qed.

(** ** The standings *)

(** C7.  [calculate_standings] is a function of its two arguments alone.
    On a team dict and a game dict whose counted games carry all their sets
    it returns one entry per registered team, and the entry of a team is the
    one the specification describes: counters that start at zero and
    accumulate, over the games that are completed and whose two team names
    are both registered, the games played, the points for and against and
    the sets won and lost by strict comparison, with the differential equal
    to points for minus points against; every other game is skipped.  The
    entries come back in descending lexicographic order of (set wins,
    point differential), entries with equal keys in the order of the team
    dict. *)
Theorem calculate_standings_spec teams games :
  NoDup teams.*1 ->
  (forall g, g ∈ games.*2 -> counted teams g -> has_all_sets g) ->
  exists result,
    calculate_standings teams games = Some result
    /\ result ≡ₚ (fun p => standing_spec teams games.*2 p.1 p.2) <$> teams
    /\ StronglySorted key_ge result
    /\ (forall k,
          filter (fun e => sort_key e = k) result
          = filter (fun e => sort_key e = k)
              ((fun p => standing_spec teams games.*2 p.1 p.2) <$> teams))
    /\ Forall (fun e => point_differential e = (points_for e - points_against e)%Z) result.
Proof.
  intros Hnd Hsets. unfold calculate_standings.
  rewrite (initial_standings teams []) by exact Hnd. rewrite app_nil_l.
  set (l0 := (fun p => (p.1, zero_standing p.1 p.2)) <$> teams).
  assert (Hkeys : l0.*1 = teams.*1).
  { subst l0. rewrite <- list_fmap_compose. reflexivity. }
  rewrite (count_games_entries teams games.*2 l0); [|by rewrite Hkeys|done|done].
  assert (Hfinal : (map_entries (games_effect teams games.*2) l0).*2
                   = (fun p => standing_spec teams games.*2 p.1 p.2) <$> teams).
  { subst l0. unfold map_entries. rewrite <- !list_fmap_compose.
    apply list_fmap_ext. intros i [n td] _. cbn. apply games_effect_spec. }
  rewrite Hfinal. eexists. split; [reflexivity|].
  split; [apply sorted_desc_perm|]. split; [apply sorted_desc_sorted|].
  split; [intros k; apply sorted_desc_stable|].
  rewrite sorted_desc_perm. apply Forall_fmap, Forall_forall. intros p _. reflexivity.
Qed.

Lemma calculate_standings_spec_witness :
  NoDup sample_teams.*1
  /\ Forall has_all_sets sample_games.*2
  /\ exists result,
      calculate_standings sample_teams sample_games = Some result
      /\ StronglySorted key_ge result.
Proof.
  assert (Hnd : NoDup sample_teams.*1) by (apply (bool_decide_unpack _); vm_compute; exact I).
  assert (Hall : Forall has_all_sets sample_games.*2)
    by (apply (bool_decide_unpack _); vm_compute; exact I).
  split; [exact Hnd|]. split; [exact Hall|].
  destruct (calculate_standings_spec sample_teams sample_games Hnd) as (result & Hr & _ & Hs & _).
  - intros g Hg _. rewrite Forall_forall in Hall. apply Hall. exact Hg.
  - exists result. split; [exact Hr | exact Hs].
Defined.


(** * Further properties of the handlers *)

(** ** Strings *)

Lemma string_length_app (a b : string) :
  String.length (a +:+ b) = (String.length a + String.length b)%nat.
Proof. induction a as [|c a IH]; simpl; [done|]. f_equal. exact IH. Qed.

Lemma string_app_inv_tail (a b t : string) : a +:+ t = b +:+ t -> a = b.
Proof.
  revert b. induction a as [|c a IH]; intros [|c' b] H.
  - done.
  - apply (f_equal String.length) in H. rewrite !string_length_app in H. simpl in H. lia.
  - apply (f_equal String.length) in H. rewrite !string_length_app in H. simpl in H. lia.
  - simpl in H. injection H as -> H. f_equal. by apply IH.
Qed.

Lemma score_get_invalid s team w :
  team ∉ ["team1"; "team2"] ->
  score_get s (team +:+ "_score") w = (Raised (KeyError (team +:+ "_score")), w).
Proof.
  intros Ht. unfold score_get, raise.
  destruct (decide (team +:+ "_score" = "team1_score")) as [E|_].
  { exfalso. apply Ht. rewrite (string_app_inv_tail team "team1" "_score" E). left. }
  destruct (decide (team +:+ "_score" = "team2_score")) as [E|_]; [|done].
  exfalso. apply Ht. rewrite (string_app_inv_tail team "team2" "_score" E). right. left.
Qed.

Lemma loaded_sets_absent row sk :
  sk ∉ set_key <$> set_numbers -> sets (load_game row) !! sk = None.
Proof.
  intros Hsk. cbn [load_game sets]. rewrite load_sets_eq.
  assert (sk <> "set1") by (intros ->; apply Hsk; vm_compute; left).
  assert (sk <> "set2") by (intros ->; apply Hsk; vm_compute; right; left).
  simplify_map_eq. done.
Qed.

(** ** What a score update touches *)

Lemma games_of_store d key g :
  games_of (store_game d key g)
  = <[key := load_game (save_game_row (games_tbl d !! key) g)]> (games_of d).
Proof. unfold games_of, store_game. cbn [games_tbl]. by rewrite fmap_insert. Qed.

(** An [update_score] whose set key is none of the game's sets, or whose
    side is neither ["team1"] nor ["team2"], ends in the [KeyError] of the
    failed subscript; nothing is saved and nothing is broadcast. *)
Theorem update_score_key_errors db_fails key sk team delta w row :
  games_tbl (db w) !! key = Some row ->
  gr_completed row = false ->
  let body := {| su_game_key := key; su_set_key := sk; su_team := team; su_delta := delta |} in
  (sk ∉ set_key <$> set_numbers ->
   update_score db_fails body w = (Raised (KeyError sk), w))
  /\ (sk ∈ set_key <$> set_numbers -> team ∉ ["team1"; "team2"] ->
      update_score db_fails body w = (Raised (KeyError (team +:+ "_score")), w)).
Proof.
  intros Hk Hc body. split.
  - intros Hsk. apply (update_score_no_set db_fails body w row Hk Hc).
    apply loaded_sets_absent. exact Hsk.
  - intros Hsk Ht. destruct (valid_set_key_present row sk Hsk) as [the_set Hs].
    rewrite (update_score_step db_fails body w row the_set Hk Hc Hs).
    cbn [su_team body]. rewrite score_get_invalid by done. reflexivity.
Qed.

Lemma update_score_key_errors_witness :
  update_score false
    {| su_game_key := "k"; su_set_key := "set3"; su_team := "team1"; su_delta := 1 |}
    (one_game_world "k" (sample_row false (score 3 7) (score 0 0)))
  = (Raised (KeyError "set3"), one_game_world "k" (sample_row false (score 3 7) (score 0 0)))
  /\ update_score false
       {| su_game_key := "k"; su_set_key := "set1"; su_team := "Team1"; su_delta := 1 |}
       (one_game_world "k" (sample_row false (score 3 7) (score 0 0)))
     = (Raised (KeyError "Team1_score"),
        one_game_world "k" (sample_row false (score 3 7) (score 0 0))).
Proof.
  split.
  - apply (proj1 (update_score_key_errors false "k" "set3" "team1" 1
                    (one_game_world "k" (sample_row false (score 3 7) (score 0 0)))
                    (sample_row false (score 3 7) (score 0 0)) eq_refl eq_refl)).
    vm_compute. intros H. inversion H as [|? ? ? H1]; subst.
    inversion H1 as [|? ? ? H2]; subst. inversion H2.
  - apply (proj2 (update_score_key_errors false "k" "set1" "Team1" 1
                    (one_game_world "k" (sample_row false (score 3 7) (score 0 0)))
                    (sample_row false (score 3 7) (score 0 0)) eq_refl eq_refl)).
    + vm_compute. left.
    + intros H. inversion H as [|? ? ? H1]; subst.
      inversion H1 as [|? ? ? H2]; subst. inversion H2.
Defined.


Lemma update_score_games key sk team delta w row the_set :
  games_tbl (db w) !! key = Some row ->
  gr_completed row = false ->
  sk ∈ set_key <$> set_numbers ->
  sets (load_game row) !! sk = Some the_set ->
  team ∈ ["team1"; "team2"] ->
  let out := update_score false
               {| su_game_key := key; su_set_key := sk; su_team := team; su_delta := delta |} w in
  games_of (db out.2)
    = <[key := adjusted_game (load_game row) sk team delta the_set]> (games_of (db w))
  /\ teams_tbl (db out.2) = teams_tbl (db w)
  /\ games_tbl (db out.2) !! key
     = Some (save_game_row (Some row) (adjusted_game (load_game row) sk team delta the_set)).
Proof.
  intros Hk Hc Hsk Hs Ht out. subst out.
  rewrite (update_score_accepted false key sk team delta w row the_set Hk Hc Hsk Hs Ht).
  cbn zeta. cbn [snd db saved]. rewrite games_of_store, Hk.
  rewrite load_saved_adjusted by exact Hsk. split; [reflexivity|]. split; [reflexivity|].
  cbn [store_game games_tbl]. rewrite lookup_insert_eq, Hk. reflexivity.
Qed.

Lemma score_set_sides team s v :
  team ∈ ["team1"; "team2"] ->
  (team = "team1" ->
   score_set s (team +:+ "_score") v = {| team1_score := v; team2_score := team2_score s |})
  /\ (team = "team2" ->
      score_set s (team +:+ "_score") v = {| team1_score := team1_score s; team2_score := v |}).
Proof. intros _. split; intros ->; reflexivity. Qed.

(** An accepted [update_score] changes one number: the targeted side of the
    targeted set.  The other side of that set, the other set, the names,
    flags and times of the game, every other game and the teams are as they
    were. *)
Theorem update_score_frame key sk team delta w row the_set :
  games_tbl (db w) !! key = Some row ->
  gr_completed row = false ->
  sk ∈ set_key <$> set_numbers ->
  sets (load_game row) !! sk = Some the_set ->
  team ∈ ["team1"; "team2"] ->
  let out := update_score false
               {| su_game_key := key; su_set_key := sk; su_team := team; su_delta := delta |} w in
  exists g' s',
    games_of (db out.2) = <[key := g']> (games_of (db w))
    /\ teams_tbl (db out.2) = teams_tbl (db w)
    /\ team1 g' = team1_name row /\ team2 g' = team2_name row
    /\ completed g' = false /\ winner g' = gr_winner row
    /\ start_time g' = gr_start_time row /\ end_time g' = gr_end_time row
    /\ sets g' = <[sk := s']> (sets (load_game row))
    /\ (team = "team1" ->
        s' = {| team1_score := Z.max 0 (team1_score the_set + delta);
                team2_score := team2_score the_set |})
    /\ (team = "team2" ->
        s' = {| team1_score := team1_score the_set;
                team2_score := Z.max 0 (team2_score the_set + delta) |}).
Proof.
  intros Hk Hc Hsk Hs Ht out.
  destruct (update_score_games key sk team delta w row the_set Hk Hc Hsk Hs Ht)
    as (Hgames & Hteams & _).
  eexists _, _. split; [exact Hgames|]. split; [exact Hteams|].
  cbn [adjusted_game with_sets load_game team1 team2 completed winner start_time end_time sets].
  repeat (split; [done|]). split; intros ->; reflexivity.
Qed.

Lemma update_score_frame_witness :
  games_tbl (db (one_game_world "k" (sample_row false (score 3 7) (score 4 4)))) !! "k"
    = Some (sample_row false (score 3 7) (score 4 4))
  /\ exists g',
      games_of (db (update_score false
                      {| su_game_key := "k"; su_set_key := "set1"; su_team := "team2";
                         su_delta := 1 |}
                      (one_game_world "k" (sample_row false (score 3 7) (score 4 4)))).2)
        = <["k" := g']> (games_of (db (one_game_world "k"
                                         (sample_row false (score 3 7) (score 4 4)))))
      /\ sets g' = <["set1" := score 3 8]>
                     (sets (load_game (sample_row false (score 3 7) (score 4 4)))).
Proof.
  split; [reflexivity|].
  destruct (update_score_frame "k" "set1" "team2" 1
              (one_game_world "k" (sample_row false (score 3 7) (score 4 4)))
              (sample_row false (score 3 7) (score 4 4)) (score 3 7))
    as (g' & s' & Hg & _ & _ & _ & _ & _ & _ & _ & Hs & _ & H2).
  - reflexivity.
  - reflexivity.
  - vm_compute. left.
  - vm_compute. reflexivity.
  - vm_compute. right. left.
  - exists g'. split; [exact Hg|]. rewrite Hs, (H2 eq_refl). reflexivity.
Defined.

(** ** Undoing a score update *)

Lemma score_set_back team s v :
  team ∈ ["team1"; "team2"] ->
  score_set (score_set s (team +:+ "_score") v) (team +:+ "_score") (side_score team s) = s.
Proof.
  rewrite !elem_of_cons, elem_of_nil. intros [-> | [-> | []]]; destruct s; reflexivity.
Qed.

(** In a reachable world, raising a score by [d >= 0] and then lowering it
    by [d] gives back the games as they were.  (Lowering first does not:
    the floor at zero loses what was cut off.) *)
Theorem update_score_undo key sk team d w row :
  reachable w ->
  games_tbl (db w) !! key = Some row ->
  gr_completed row = false ->
  sk ∈ set_key <$> set_numbers ->
  team ∈ ["team1"; "team2"] ->
  (0 <= d)%Z ->
  let up := {| su_game_key := key; su_set_key := sk; su_team := team; su_delta := d |} in
  let down := {| su_game_key := key; su_set_key := sk; su_team := team; su_delta := - d |} in
  let w1 := (update_score false up w).2 in
  let w2 := (update_score false down w1).2 in
  games_of (db w2) = games_of (db w) /\ teams_tbl (db w2) = teams_tbl (db w).
Proof.
  intros Hreach Hk Hc Hsk Ht Hd up down w1 w2.
  destruct (valid_set_key_present row sk Hsk) as [the_set Hs].
  assert (Hnn : nonneg the_set).
  { eapply (loaded_nonneg row sk); [|exact Hs].
    intros n sc Hn. exact (reachable_nonneg w Hreach key row n sc Hk Hn). }
  destruct (update_score_games key sk team d w row the_set Hk Hc Hsk Hs Ht)
    as (Hg1 & Ht1 & Hrow1).
  fold up in Hg1, Ht1, Hrow1. fold w1 in Hg1, Ht1, Hrow1.
  set (g1 := adjusted_game (load_game row) sk team d the_set) in *.
  set (row1 := save_game_row (Some row) g1) in *.
  assert (Hload1 : load_game row1 = g1) by (apply load_saved_adjusted; done).
  set (s1 := score_set the_set (team +:+ "_score") (Z.max 0 (side_score team the_set + d))).
  assert (Hs1 : sets (load_game row1) !! sk = Some s1).
  { rewrite Hload1. subst g1. unfold adjusted_game, with_sets. cbn [sets].
    by rewrite lookup_insert_eq. }
  assert (Hc1 : gr_completed row1 = false) by exact Hc.
  destruct (update_score_games key sk team (- d) w1 row1 s1 Hrow1 Hc1 Hsk Hs1 Ht)
    as (Hg2 & Ht2 & _).
  fold down in Hg2, Ht2. fold w2 in Hg2, Ht2.
  split; [|congruence].
  rewrite Hg2, Hg1, insert_insert_eq.
  assert (Hback : adjusted_game (load_game row1) sk team (- d) s1 = load_game row).
  { rewrite Hload1. subst g1 s1. unfold adjusted_game, with_sets. cbn [sets team1 team2
      completed winner start_time end_time]. rewrite insert_insert_eq.
    rewrite side_score_set by done.
    assert (Hc0 : (0 <= side_score team the_set)%Z).
    { destruct Hnn. unfold side_score. case_decide; done. }
    replace (Z.max 0 (Z.max 0 (side_score team the_set + d) + - d))
      with (side_score team the_set) by lia.
    rewrite score_set_back by done. rewrite insert_id by done.
    destruct row. reflexivity. }
  rewrite Hback. apply insert_id. unfold games_of. rewrite lookup_fmap, Hk. done.
Qed.

Lemma update_score_undo_witness :
  reachable (serve false 100 (CreateGame "20240601_101500"
                                {| gc_team1 := "Aces"; gc_team2 := "Blockers" |})
               initial_world)
  /\ games_of (db (update_score false
                     {| su_game_key := "Aces_vs_Blockers_20240601_101500";
                        su_set_key := "set1"; su_team := "team1"; su_delta := - 1 |}
                     (update_score false
                        {| su_game_key := "Aces_vs_Blockers_20240601_101500";
                           su_set_key := "set1"; su_team := "team1"; su_delta := 1 |}
                        (serve false 100 (CreateGame "20240601_101500"
                                            {| gc_team1 := "Aces"; gc_team2 := "Blockers" |})
                           initial_world)).2).2)
     = games_of (db (serve false 100 (CreateGame "20240601_101500"
                                        {| gc_team1 := "Aces"; gc_team2 := "Blockers" |})
                       initial_world)).
Proof.
  assert (Hreach : reachable (serve false 100 (CreateGame "20240601_101500"
                                {| gc_team1 := "Aces"; gc_team2 := "Blockers" |})
                                initial_world))
    by (apply reachable_serve, reachable_init).
  split; [exact Hreach|].
  refine (proj1 (update_score_undo "Aces_vs_Blockers_20240601_101500" "set1" "team1" 1 _
                   (save_game_row None
                      (new_game {| gc_team1 := "Aces"; gc_team2 := "Blockers" |} 100))
                   Hreach _ _ _ _ _)).
  - vm_compute. reflexivity.
  - reflexivity.
  - vm_compute. left.
  - vm_compute. left.
  - lia.
Defined.


(** ** Completing a game: what it touches, and what follows *)

(** [complete_game] raises the 404 error "Game not found" on an unknown key
    and leaves the world as it was.  On a known key, once the store accepts
    the write, the game keeps its scores, its team names and its start time
    and gets [completed], the winner and the end time; every other game and
    the teams are untouched. *)
Theorem complete_game_frame now key w :
  (games_tbl (db w) !! key = None ->
   forall db_fails,
     complete_game db_fails now {| cg_game_key := key |} w
     = (Raised (HTTPException 404 "Game not found"), w))
  /\ (forall row,
        games_tbl (db w) !! key = Some row ->
        let out := complete_game false now {| cg_game_key := key |} w in
        games_of (db out.2)
          = <[key := {| team1 := team1_name row;
                        team2 := team2_name row;
                        sets := sets (load_game row);
                        completed := true;
                        winner := Some (game_winner (load_game row));
                        start_time := gr_start_time row;
                        end_time := Some now |}]> (games_of (db w))
        /\ teams_tbl (db out.2) = teams_tbl (db w)).
Proof.
  split.
  - intros Hk db_fails. exact (complete_game_not_found db_fails now {| cg_game_key := key |} w Hk).
  - intros row Hk out. subst out. rewrite (complete_game_run false now key w row Hk).
    cbn zeta. cbn [snd db saved]. rewrite games_of_store, Hk, load_saved_completed.
    split; reflexivity.
Qed.

Lemma complete_game_frame_witness :
  complete_game false 200 {| cg_game_key := "other" |}
    (one_game_world "k" (sample_row false (score 21 19) (score 18 21)))
  = (Raised (HTTPException 404 "Game not found"),
     one_game_world "k" (sample_row false (score 21 19) (score 18 21)))
  /\ teams_tbl (db (complete_game false 200 {| cg_game_key := "k" |}
                      (one_game_world "k" (sample_row false (score 21 19) (score 18 21)))).2)
     = ∅.
Proof.
  split.
  - exact (proj1 (complete_game_frame 200 "other"
                    (one_game_world "k" (sample_row false (score 21 19) (score 18 21))))
             eq_refl false).
  - exact (proj2 (proj2 (complete_game_frame 200 "k"
                    (one_game_world "k" (sample_row false (score 21 19) (score 18 21))))
             (sample_row false (score 21 19) (score 18 21)) eq_refl)).
Defined.

Lemma serve_completed_kept db_fails now r key w row :
  games_tbl (db w) !! key = Some row ->
  gr_completed row = true ->
  leaves_alone key r ->
  exists row',
    games_tbl (db (serve db_fails now r w)) !! key = Some row'
    /\ gr_completed row' = true
    /\ sets (load_game row') = sets (load_game row)
    /\ team1_name row' = team1_name row /\ team2_name row' = team2_name row
    /\ gr_start_time row' = gr_start_time row.
Proof.
  intros Hk Hdone Hr.
  assert (Hsame : forall d', d' = db w ->
            exists row', games_tbl d' !! key = Some row' /\ gr_completed row' = true
              /\ sets (load_game row') = sets (load_game row)
              /\ team1_name row' = team1_name row /\ team2_name row' = team2_name row
              /\ gr_start_time row' = gr_start_time row).
  { intros d' ->. exists row. repeat split; done. }
  destruct r as [body|name|stamp body|body|body|]; cbn [serve leaves_alone] in *.
  - destruct (create_team_db db_fails body w) as [Hd | (n & r & _ & _ & Hd)].
    + by apply Hsame.
    + rewrite Hd. cbn [store_team games_tbl]. exists row. repeat split; done.
  - rewrite (proj1 (remove_team_db db_fails name w)). exists row. repeat split; done.
  - rewrite create_game_run. cbn zeta. cbn [snd db]. unfold saved.
    destruct db_fails; [by apply Hsame|]. cbn [store_game games_tbl].
    rewrite lookup_insert_ne by done. exists row. repeat split; done.
  - destruct (update_score_db db_fails body w)
      as [Hd | (row0 & the_set & v & Hk0 & Hopen & _ & _ & Hd)].
    + by apply Hsame.
    + rewrite Hd. cbn [store_game games_tbl].
      destruct (decide (su_game_key body = key)) as [E|E].
      * rewrite E in Hk0. congruence.
      * rewrite lookup_insert_ne by done. exists row. repeat split; done.
  - destruct (complete_game_db db_fails now body w) as [Hd | (row0 & Hk0 & Hd)].
    + by apply Hsame.
    + rewrite Hd. cbn [store_game games_tbl].
      destruct (decide (cg_game_key body = key)) as [E|E].
      * rewrite E in *. rewrite lookup_insert_eq. eexists. split; [reflexivity|].
        assert (row0 = row) as -> by congruence. rewrite Hk.
        split; [reflexivity|]. split; [|repeat split; reflexivity].
        change (sets (load_game (save_game_row (Some row)
                  (completed_game (load_game row) (game_winner (load_game row)) now)))
                = sets (load_game row)).
        rewrite load_saved_completed. reflexivity.
      * rewrite lookup_insert_ne by done. exists row. repeat split; done.
  - done.
Qed.

(** Scores are frozen by completion.  Once a game is completed, no sequence
    of requests that leave it alone (anything but a reset and a
    [create_game] that builds the same key) changes its scores, its team
    names or its start time, and the game stays completed; this holds
    whatever the store does to the writes. *)
Theorem completed_game_frozen key row (steps : list step) w :
  games_tbl (db w) !! key = Some row ->
  gr_completed row = true ->
  Forall (fun st : step => leaves_alone key st.2) steps ->
  exists row',
    games_tbl (db (run steps w)) !! key = Some row'
    /\ gr_completed row' = true
    /\ sets (load_game row') = sets (load_game row)
    /\ team1_name row' = team1_name row /\ team2_name row' = team2_name row
    /\ gr_start_time row' = gr_start_time row.
Proof.
  intros Hk Hdone Hsteps. revert w row Hk Hdone.
  induction Hsteps as [|[[db_fails now] r] steps Hr _ IH]; intros w row Hk Hdone.
  - exists row. repeat split; done.
  - cbn [run foldl]. cbn [snd] in Hr.
    destruct (serve_completed_kept db_fails now r key w row Hk Hdone Hr)
      as (row1 & Hk1 & Hdone1 & Hs1 & Ha1 & Hb1 & Hst1).
    destruct (IH _ row1 Hk1 Hdone1) as (row' & Hk' & Hdone' & Hs' & Ha' & Hb' & Hst').
    exists row'. split; [exact Hk'|]. split; [exact Hdone'|]. repeat split; congruence.
Qed.

Lemma completed_game_frozen_witness :
  games_tbl (db (one_game_world "k" (sample_row true (score 21 19) (score 18 21)))) !! "k"
    = Some (sample_row true (score 21 19) (score 18 21))
  /\ exists row',
      games_tbl (db (run [(false, 300%Z,
                           UpdateScore {| su_game_key := "k"; su_set_key := "set1";
                                          su_team := "team1"; su_delta := 5 |});
                          (false, 400%Z, CompleteGameReq {| cg_game_key := "k" |})]
                       (one_game_world "k" (sample_row true (score 21 19) (score 18 21)))))
        !! "k" = Some row'
      /\ sets (load_game row') = sets (load_game (sample_row true (score 21 19) (score 18 21))).
Proof.
  split; [reflexivity|].
  destruct (completed_game_frozen "k" (sample_row true (score 21 19) (score 18 21))
              [(false, 300%Z,
                UpdateScore {| su_game_key := "k"; su_set_key := "set1";
                               su_team := "team1"; su_delta := 5 |});
               (false, 400%Z, CompleteGameReq {| cg_game_key := "k" |})]
              (one_game_world "k" (sample_row true (score 21 19) (score 18 21)))
              eq_refl eq_refl)
    as (row' & Hk & _ & Hs & _).
  - repeat constructor.
  - exists row'. split; [exact Hk | exact Hs].
Defined.


(** ** Creating a game over an existing key *)

Lemma load_recreated row body now :
  load_game (save_game_row (Some row) (new_game body now))
  = {| team1 := team1_name row; team2 := team2_name row; sets := default_sets;
       completed := false; winner := None;
       start_time := gr_start_time row; end_time := None |}.
Proof.
  unfold load_game, save_game_row, new_game.
  cbn [upsert_game_row team1_name team2_name gr_completed gr_winner gr_start_time
       gr_end_time set_rows team1 team2 completed winner start_time end_time sets].
  f_equal;
    exact (sets_roundtrip (Build_Game "" "" default_sets false None None None) (set_rows row)
             zero_score zero_score eq_refl).
Qed.

(** The key of a game carries the seconds of its creation and nothing finer.
    When [create_game] builds a key that is already stored and the store
    accepts the write, the stored game is taken back to an open game: its
    sets are zero-zero again, [completed] is false and winner and end time
    are gone, while the team names and the start time of the first creation
    stay.  The answer nevertheless shows the game built by this request, so
    its start time is not the stored one unless the two clock readings agree. *)
Theorem create_game_over_existing stamp now body w row :
  games_tbl (db w) !! make_game_key body stamp = Some row ->
  let out := create_game false stamp now body w in
  let key := make_game_key body stamp in
  out.1 = Returned (key, new_game body now)
  /\ games_of (db out.2)
     = <[key := {| team1 := team1_name row; team2 := team2_name row;
                   sets := <["set1" := zero_score]> (<["set2" := zero_score]> ∅);
                   completed := false; winner := None;
                   start_time := gr_start_time row; end_time := None |}]> (games_of (db w))
  /\ (gr_start_time row <> Some now ->
      games_of (db out.2) !! key <> Some (new_game body now)).
Proof.
  intros Hk out key. subst out key. rewrite create_game_run. cbn zeta. cbn [fst snd db saved].
  rewrite games_of_store, Hk, load_recreated.
  split; [reflexivity|]. split; [reflexivity|].
  intros Hne. rewrite lookup_insert_eq. intros [= _ _ Hst]. apply Hne. exact Hst.
Qed.

Lemma create_game_over_existing_witness :
  games_tbl (db (serve false 200 (CompleteGameReq
                                    {| cg_game_key := "Aces_vs_Blockers_20240601_101500" |})
                   (serve false 100 (CreateGame "20240601_101500"
                                       {| gc_team1 := "Aces"; gc_team2 := "Blockers" |})
                      initial_world)))
    !! make_game_key {| gc_team1 := "Aces"; gc_team2 := "Blockers" |} "20240601_101500"
  = Some {| team1_name := "Aces"; team2_name := "Blockers"; gr_completed := true;
            gr_winner := Some "Split"; gr_start_time := Some 100%Z;
            gr_end_time := Some 200%Z;
            set_rows := <[2%nat := zero_score]> (<[1%nat := zero_score]> ∅) |}
  /\ (completed <$>
        games_of (db (create_game false "20240601_101500" 101
                        {| gc_team1 := "Aces"; gc_team2 := "Blockers" |}
                        (serve false 200 (CompleteGameReq
                                            {| cg_game_key := "Aces_vs_Blockers_20240601_101500" |})
                           (serve false 100 (CreateGame "20240601_101500"
                                               {| gc_team1 := "Aces"; gc_team2 := "Blockers" |})
                              initial_world))).2)
        !! "Aces_vs_Blockers_20240601_101500") = Some false.
Proof.
  set (w := serve false 200 (CompleteGameReq
                               {| cg_game_key := "Aces_vs_Blockers_20240601_101500" |})
              (serve false 100 (CreateGame "20240601_101500"
                                  {| gc_team1 := "Aces"; gc_team2 := "Blockers" |})
                 initial_world)).
  set (row := {| team1_name := "Aces"; team2_name := "Blockers"; gr_completed := true;
                 gr_winner := Some "Split"; gr_start_time := Some 100%Z;
                 gr_end_time := Some 200%Z;
                 set_rows := <[2%nat := zero_score]> (<[1%nat := zero_score]> ∅) |}).
  assert (Hk : games_tbl (db w)
                 !! make_game_key {| gc_team1 := "Aces"; gc_team2 := "Blockers" |}
                      "20240601_101500" = Some row)
    by (vm_compute; reflexivity).
  split; [exact Hk|].
  rewrite (proj1 (proj2 (create_game_over_existing "20240601_101500" 101
             {| gc_team1 := "Aces"; gc_team2 := "Blockers" |} w row Hk))).
  change (make_game_key {| gc_team1 := "Aces"; gc_team2 := "Blockers" |} "20240601_101500")
    with "Aces_vs_Blockers_20240601_101500".
  rewrite lookup_insert_eq. reflexivity.
Defined.

(** ** Creating a game beside the others *)

Lemma make_game_key_stamp body stamp stamp' :
  make_game_key body stamp = make_game_key body stamp' -> stamp = stamp'.
Proof.
  unfold make_game_key. intros H.
  repeat (apply String.app_inj in H). exact H.
Qed.

(** Two games of the same pair created under different stamps have different
    keys, and a [create_game] touches no key but its own: every other game
    and all the teams are as they were, whatever the store does. *)
Theorem create_game_beside db_fails stamp now body w :
  let out := create_game db_fails stamp now body w in
  (forall stamp', stamp' <> stamp -> make_game_key body stamp' <> make_game_key body stamp)
  /\ (forall key, key <> make_game_key body stamp ->
        games_tbl (db out.2) !! key = games_tbl (db w) !! key)
  /\ teams_tbl (db out.2) = teams_tbl (db w).
Proof.
  cbn zeta. rewrite create_game_run. cbn zeta. cbn [snd db]. split; [|split].
  - intros stamp' Hne E. apply Hne. exact (make_game_key_stamp body stamp' stamp E).
  - intros key Hne. unfold saved. destruct db_fails; [done|].
    cbn [store_game games_tbl]. by rewrite lookup_insert_ne.
  - unfold saved. destruct db_fails; reflexivity.
Qed.

Lemma create_game_beside_witness :
  games_tbl (db (create_game false "20240601_101501" 101
                   {| gc_team1 := "Aces"; gc_team2 := "Blockers" |}
                   (serve false 100 (CreateGame "20240601_101500"
                                       {| gc_team1 := "Aces"; gc_team2 := "Blockers" |})
                      initial_world)).2) !! "Aces_vs_Blockers_20240601_101500"
  = games_tbl (db (serve false 100 (CreateGame "20240601_101500"
                                      {| gc_team1 := "Aces"; gc_team2 := "Blockers" |})
                     initial_world)) !! "Aces_vs_Blockers_20240601_101500".
Proof.
  apply (proj1 (proj2 (create_game_beside false "20240601_101501" 101
                         {| gc_team1 := "Aces"; gc_team2 := "Blockers" |}
                         (serve false 100 (CreateGame "20240601_101500"
                                             {| gc_team1 := "Aces"; gc_team2 := "Blockers" |})
                            initial_world)))).
  vm_compute. discriminate.
Defined.


(** ** Removing a team *)



(** ** Resetting the tournament *)



(** ** Registering a name twice *)

Lemma create_team_returned db_fails body w n :
  (create_team db_fails body w).1 = Returned n ->
  (size (teams_tbl (db w)) < MAX_TEAMS)%nat
  /\ teams_tbl (db w) !! tc_team_name body = None
  /\ db_fails = false /\ n = tc_team_name body
  /\ exists n0 r0, team_insert_of body = Some (n0, r0) /\ teams_tbl (db w) !! n0 = None.
Proof.
  destruct (decide (MAX_TEAMS <= size (teams_tbl (db w)))%nat) as [Hfull|Hroom].
  { rewrite create_team_full by done. done. }
  destruct (teams_tbl (db w) !! tc_team_name body) as [r|] eqn:Hr.
  { rewrite create_team_duplicate by (eauto || lia). done. }
  rewrite create_team_new by (done || lia).
  destruct db_fails; [done|].
  destruct (team_insert_of body) as [[n0 r0]|]; [|done].
  destruct (teams_tbl (db w) !! n0) eqn:Hn0; [done|].
  cbn. intros [= <-]. split; [lia|]. split; [done|]. split; [done|]. split; [done|].
  exists n0, r0. done.
Qed.

Lemma varchar_too_long n s : (n < String.length s)%nat -> varchar n s <> s.
Proof.
  intros Hlong Heq. pose proof (varchar_length n s) as Hlen.
  rewrite Heq in Hlen. lia.
Qed.

(** After a registration was answered with success, registering the same
    name again always raises an error and changes nothing.  For a name of
    at most 255 characters it is a 400 error: the capacity error when the
    accepted team was the fifteenth, the duplicate error otherwise.  A
    longer name was accepted with its excess of spaces cut off, so it is
    not among the stored names: below the capacity the insert is tried
    again and runs into the stored name, which gives the 500 error "Failed
    to save team" (or the error of the store, where a column refuses a
    value of the second request or the store fails). *)
Theorem create_team_twice db_fails body w n :
  (create_team db_fails body w).1 = Returned n ->
  let w1 := (create_team db_fails body w).2 in
  (forall db_fails' body',
      tc_team_name body' = tc_team_name body ->
      exists e, create_team db_fails' body' w1 = (Raised e, w1))
  /\ ((String.length (tc_team_name body) <= 255)%nat ->
      forall db_fails' body',
        tc_team_name body' = tc_team_name body ->
        create_team db_fails' body' w1 =
          (Raised (HTTPException 400
                     (if decide (size (teams_tbl (db w)) = 14)%nat
                      then "Maximum 15 teams allowed" else "Team name already exists")), w1))
  /\ ((255 < String.length (tc_team_name body))%nat ->
      forall db_fails' body',
        tc_team_name body' = tc_team_name body ->
        create_team db_fails' body' w1 =
          (Raised (if decide (size (teams_tbl (db w)) = 14)%nat
                   then HTTPException 400 "Maximum 15 teams allowed"
                   else if db_fails' then DatabaseError
                        else match team_insert_of body' with
                             | Some _ => HTTPException 500 "Failed to save team"
                             | None => DatabaseError
                             end), w1)).
Proof.
  intros Hret w1.
  destruct (create_team_returned _ _ _ _ Hret)
    as (Hroom & Hnew & -> & -> & n0 & r0 & Hins & Hfree).
  subst w1. rewrite (create_team_new false body w Hroom Hnew), Hins, Hfree. cbn [snd].
  set (w1 := {| db := store_team (db w) n0 r0; published := _ |}).
  assert (Hsize : size (teams_tbl (db w1)) = S (size (teams_tbl (db w)))).
  { subst w1. cbn [db store_team teams_tbl]. by rewrite map_size_insert_None. }
  assert (Hn0 : n0 = varchar 255 (tc_team_name body)).
  { exact (proj1 (team_insert_holds _ _ _ _ _ _ Hins)). }
  unfold MAX_TEAMS in Hroom.
  assert (Hshort : (String.length (tc_team_name body) <= 255)%nat ->
            forall db_fails' body',
              tc_team_name body' = tc_team_name body ->
              create_team db_fails' body' w1 =
                (Raised (HTTPException 400
                           (if decide (size (teams_tbl (db w)) = 14)%nat
                            then "Maximum 15 teams allowed"
                            else "Team name already exists")), w1)).
  { intros Hlen db_fails' body' Hname.
    assert (Hin : is_Some (teams_tbl (db w1) !! tc_team_name body')).
    { subst w1. cbn [db store_team teams_tbl].
      rewrite Hname, Hn0, (varchar_fits _ _ Hlen), lookup_insert_eq. eauto. }
    case_decide.
    - apply create_team_full. unfold MAX_TEAMS. lia.
    - apply create_team_duplicate; [unfold MAX_TEAMS; lia | exact Hin]. }
  assert (Hlong : (255 < String.length (tc_team_name body))%nat ->
            forall db_fails' body',
              tc_team_name body' = tc_team_name body ->
              create_team db_fails' body' w1 =
                (Raised (if decide (size (teams_tbl (db w)) = 14)%nat
                         then HTTPException 400 "Maximum 15 teams allowed"
                         else if db_fails' then DatabaseError
                              else match team_insert_of body' with
                                   | Some _ => HTTPException 500 "Failed to save team"
                                   | None => DatabaseError
                                   end), w1)).
  { intros Hlen db_fails' body' Hname.
    case_decide.
    { apply create_team_full. unfold MAX_TEAMS. lia. }
    assert (Habsent : teams_tbl (db w1) !! tc_team_name body' = None).
    { subst w1. cbn [db store_team teams_tbl]. rewrite Hname.
      rewrite lookup_insert_ne; [exact Hnew|].
      rewrite Hn0. apply varchar_too_long. exact Hlen. }
    rewrite create_team_new; [|unfold MAX_TEAMS; lia|exact Habsent].
    destruct db_fails'; [reflexivity|].
    destruct (team_insert_of body') as [[n' r']|] eqn:Hins'; [|reflexivity].
    assert (Hn' : n' = n0).
    { rewrite Hn0, <- Hname. exact (proj1 (team_insert_holds _ _ _ _ _ _ Hins')). }
    subst n'. subst w1. cbn [db store_team teams_tbl]. rewrite lookup_insert_eq.
    reflexivity. }
  split; [|split; [exact Hshort|exact Hlong]].
  intros db_fails' body' Hname.
  destruct (decide (String.length (tc_team_name body) <= 255)%nat) as [Hlen|Hlen].
  - eexists. exact (Hshort Hlen db_fails' body' Hname).
  - eexists. apply (Hlong ltac:(lia) db_fails' body' Hname).
Qed.

Lemma create_team_twice_witness :
  (create_team false (team_request "Aces" "A") initial_world).1 = Returned "Aces"
  /\ (String.length "Aces" <= 255)%nat
  /\ (create_team false
        {| tc_team_name := "Aces"; tc_player1 := "Cy"; tc_player2 := "Di"; tc_pool := "B" |}
        (create_team false (team_request "Aces" "A") initial_world).2).1
     = Raised (HTTPException 400 "Team name already exists").
Proof.
  assert (Hlen : (String.length "Aces" <= 255)%nat) by (cbn; lia).
  split; [reflexivity|]. split; [exact Hlen|].
  rewrite (proj1 (proj2 (create_team_twice false (team_request "Aces" "A")
                           initial_world "Aces" eq_refl)) Hlen false
             {| tc_team_name := "Aces"; tc_player1 := "Cy"; tc_player2 := "Di"; tc_pool := "B" |}
             eq_refl).
  reflexivity.
Defined.


(** ** Answers and broadcasts *)

Lemma saved_has_key db_fails d key g row :
  games_tbl d !! key = Some row -> is_Some (games_of (saved db_fails d key g) !! key).
Proof.
  intros Hk. unfold saved. destruct db_fails.
  - unfold games_of. rewrite lookup_fmap, Hk. eauto.
  - rewrite games_of_store, lookup_insert_eq. eauto.
Qed.

Lemma update_score_disciplined db_fails body w :
  disciplined w (let '(o, w') := update_score db_fails body w in (forget o, w')).
Proof.
  unfold disciplined.
  destruct (games_tbl (db w) !! su_game_key body) as [row|] eqn:Hk.
  2:{ rewrite update_score_not_found by done. reflexivity. }
  destruct (gr_completed row) eqn:Hc.
  { rewrite (update_score_completed _ _ _ row) by done. reflexivity. }
  destruct (sets (load_game row) !! su_set_key body) as [the_set|] eqn:Hs.
  2:{ rewrite (update_score_no_set _ _ _ row) by done. reflexivity. }
  rewrite (update_score_step db_fails body w row the_set Hk Hc Hs).
  destruct (score_get the_set (su_team body +:+ "_score") w).1 as [current|e]; [|reflexivity].
  cbn zeta.
  match goal with
  | |- context [saved db_fails (db w) (su_game_key body) ?g] =>
      destruct (saved_has_key db_fails (db w) (su_game_key body) g row Hk) as [g' Hg'];
      set (d' := saved db_fails (db w) (su_game_key body) g) in *
  end.
  unfold subscript. rewrite Hg'. unfold h_ret. cbn [forget fst snd db published].
  eexists. split; [reflexivity|]. reflexivity.
Qed.

(** Every request is answered in one of two ways.  It raises, and then the
    store and the broadcast log are as before.  Or it returns, and then
    exactly one message was published, after the write; the teams or games
    that the message carries are the ones stored after the request
    ([tournament_reset] carries none). *)
Theorem requests_disciplined db_fails now r w :
  disciplined w (respond db_fails now r w)
  /\ (respond db_fails now r w).2 = serve db_fails now r w.
Proof.
  split.
  2:{ destruct r; cbn [respond serve];
      match goal with |- context [let '(_, _) := ?x in _] => destruct x end; reflexivity. }
  destruct r as [body|name|stamp body|body|body|]; cbn [respond].
  - unfold disciplined.
    destruct (decide (MAX_TEAMS <= size (teams_tbl (db w)))%nat) as [Hfull|Hroom].
    { rewrite create_team_full by done. reflexivity. }
    destruct (teams_tbl (db w) !! tc_team_name body) as [t|] eqn:Ht.
    { rewrite create_team_duplicate by (eauto || lia). reflexivity. }
    rewrite create_team_new by (done || lia). destruct db_fails; [reflexivity|].
    destruct (team_insert_of body) as [[n r]|]; [|reflexivity].
    destruct (teams_tbl (db w) !! n); [reflexivity|].
    cbn [forget fst snd db published]. eexists. split; reflexivity.
  - unfold disciplined. rewrite remove_team_run. destruct db_fails; [reflexivity|].
    destruct (teams_tbl (db w) !! name); [|reflexivity].
    cbn zeta. cbn [forget fst snd db published]. eexists. split; reflexivity.
  - unfold disciplined. rewrite create_game_run. cbn zeta. cbn [forget fst snd db published].
    eexists. split; reflexivity.
  - apply update_score_disciplined.
  - unfold disciplined. destruct body as [key]. 
    destruct (games_tbl (db w) !! key) as [row|] eqn:Hk.
    + rewrite (complete_game_run db_fails now key w row Hk). cbn zeta.
      cbn [forget fst snd db published]. eexists. split; reflexivity.
    + rewrite complete_game_not_found by done. reflexivity.
  - unfold disciplined. rewrite reset_tournament_run. destruct db_fails; [reflexivity|].
    cbn [forget fst snd db published]. eexists. split; [reflexivity|]. exact I.
Qed.


(** ** The persistence adapter: saving and loading *)

Lemma set_number_1 : 1%nat ∈ set_numbers.
Proof. vm_compute. left. Qed.

Lemma set_number_2 : 2%nat ∈ set_numbers.
Proof. vm_compute. right. left. Qed.

Lemma upsert_set_rows_lookup g rows n :
  n ∈ set_numbers ->
  upsert_set_rows g rows !! n
  = match sets g !! set_key n with
    | Some sc => Some sc
    | None => rows !! n
    end.
Proof.
  unfold upsert_set_rows, set_numbers, SETS_PER_GAME. cbn [seq foldl].
  rewrite set_key_1, set_key_2. rewrite !elem_of_cons, elem_of_nil.
  intros [-> | [-> | []]]; rewrite ?set_key_1, ?set_key_2;
    destruct (sets g !! "set1") as [[a1 a2]|], (sets g !! "set2") as [[b1 b2]|];
    cbn [team1_score team2_score]; simplify_map_eq; reflexivity.
Qed.

Lemma upsert_set_rows_twice g rows :
  upsert_set_rows g (upsert_set_rows g rows) = upsert_set_rows g rows.
Proof.
  unfold upsert_set_rows, set_numbers, SETS_PER_GAME. cbn [seq foldl].
  destruct (sets g !! set_key 1) as [[a1 a2]|], (sets g !! set_key 2) as [[b1 b2]|];
    cbn [team1_score team2_score]; apply map_eq; intros i;
    destruct (decide (i = 1%nat)), (decide (i = 2%nat));
    simplify_eq; simplify_map_eq; reflexivity.
Qed.

Lemma winner_fits_varchar g : winner_fits g -> varchar 255 <$> winner g = winner g.
Proof.
  unfold winner_fits. destruct (winner g) as [v|]; [|reflexivity].
  intros Hv. cbn. rewrite (varchar_fits _ _ Hv). reflexivity.
Qed.

Lemma save_game_row_twice old g :
  winner_fits g ->
  save_game_row (Some (save_game_row old g)) g = save_game_row old g.
Proof.
  intros Hw. unfold save_game_row. destruct old as [r|];
    cbn [upsert_game_row team1_name team2_name gr_completed gr_winner gr_start_time
         gr_end_time set_rows];
    rewrite ?(winner_fits_varchar g Hw);
    f_equal; apply upsert_set_rows_twice.
Qed.

(** [save_game] followed by [load_all_games], for a save that the store
    accepts, with a key of at most 512 characters and a dict whose winner,
    if any, has at most 255 characters.  Under a new key the game comes back
    with the flags and times that were saved and with each team name as its
    [VARCHAR(255)] column holds it, cut to 255 characters; names of at most
    255 characters come back as saved.  Under a stored key the names and
    the start time of the stored row stay and [completed], winner and end
    time are replaced.  For each of the two set numbers, a set of the dict
    replaces the stored scores and a set the dict lacks keeps them
    (zero-zero if there were none); other keys of the dict are not stored.
    Saving the same data again changes nothing, and a save that the store
    rejects returns [False] and changes nothing. *)
Theorem save_game_round_trip key g w :
  (String.length key <= 512)%nat ->
  winner_fits g ->
  let old := games_tbl (db w) !! key in
  let out := save_game false key g w in
  let kept n := match sets g !! set_key n with
                | Some sc => sc
                | None => default zero_score (old ≫= fun r => set_rows r !! n)
                end in
  out.1 = Returned true
  /\ published out.2 = published w
  /\ games_of (db out.2)
     = <[key := {| team1 := from_option team1_name (varchar 255 (team1 g)) old;
                   team2 := from_option team2_name (varchar 255 (team2 g)) old;
                   sets := <["set1" := kept 1%nat]> (<["set2" := kept 2%nat]> ∅);
                   completed := completed g;
                   winner := winner g;
                   start_time := from_option gr_start_time (start_time g) old;
                   end_time := end_time g |}]> (games_of (db w))
  /\ ((String.length (team1 g) <= 255)%nat -> (String.length (team2 g) <= 255)%nat ->
      games_of (db out.2)
      = <[key := {| team1 := from_option team1_name (team1 g) old;
                    team2 := from_option team2_name (team2 g) old;
                    sets := <["set1" := kept 1%nat]> (<["set2" := kept 2%nat]> ∅);
                    completed := completed g;
                    winner := winner g;
                    start_time := from_option gr_start_time (start_time g) old;
                    end_time := end_time g |}]> (games_of (db w)))
  /\ save_game false key g out.2 = (Returned true, out.2)
  /\ save_game true key g w = (Returned false, w).
Proof.
  intros _ Hw. cbn zeta. rewrite !save_game_run. cbn [fst snd db published saved negb].
  split; [reflexivity|]. split; [reflexivity|].
  assert (Hload :
    games_of (store_game (db w) key g)
    = <[key := {| team1 := from_option team1_name (varchar 255 (team1 g))
                             (games_tbl (db w) !! key);
                  team2 := from_option team2_name (varchar 255 (team2 g))
                             (games_tbl (db w) !! key);
                  sets := <["set1" := match sets g !! set_key 1 with
                                      | Some sc => sc
                                      | None => default zero_score
                                                  (games_tbl (db w) !! key
                                                     ≫= fun r => set_rows r !! 1%nat)
                                      end]>
                            (<["set2" := match sets g !! set_key 2 with
                                         | Some sc => sc
                                         | None => default zero_score
                                                     (games_tbl (db w) !! key
                                                        ≫= fun r => set_rows r !! 2%nat)
                                         end]> ∅);
                  completed := completed g;
                  winner := winner g;
                  start_time := from_option gr_start_time (start_time g)
                                  (games_tbl (db w) !! key);
                  end_time := end_time g |}]> (games_of (db w))).
  { rewrite games_of_store. f_equal.
    unfold load_game, save_game_row. rewrite load_sets_eq.
    destruct (games_tbl (db w) !! key) as [r|];
      cbn [upsert_game_row team1_name team2_name gr_completed gr_winner gr_start_time
           gr_end_time set_rows from_option mbind option_bind];
      rewrite ?(winner_fits_varchar g Hw);
      rewrite !upsert_set_rows_lookup by (first [apply set_number_1 | apply set_number_2]);
      rewrite set_key_1, set_key_2;
      destruct (sets g !! "set1"), (sets g !! "set2"); cbn [default];
      rewrite ?lookup_empty; reflexivity. }
  split; [exact Hload|]. split; [|split].
  - intros H1 H2. rewrite Hload.
    rewrite (varchar_fits _ _ H1), (varchar_fits _ _ H2). reflexivity.
  - cbn [db published saved negb]. f_equal.
    unfold store_game. cbn [teams_tbl games_tbl]. rewrite lookup_insert_eq.
    rewrite save_game_row_twice by exact Hw. rewrite insert_insert_eq. reflexivity.
  - destruct w. reflexivity.
Qed.

Lemma save_game_round_trip_witness :
  (String.length "k" <= 512)%nat
  /\ winner_fits {| team1 := "Aces"; team2 := "Blockers"; sets := {[ "set1" := score 21 19 ]};
                 completed := true; winner := Some "Split";
                 start_time := Some 100%Z; end_time := Some 200%Z |}
  /\ games_of (db (save_game false "k"
                     {| team1 := "Aces"; team2 := "Blockers";
                        sets := {[ "set1" := score 21 19 ]};
                        completed := true; winner := Some "Split";
                        start_time := Some 100%Z; end_time := Some 200%Z |}
                     initial_world).2) !! "k"
     = Some {| team1 := "Aces"; team2 := "Blockers";
               sets := <["set1" := score 21 19]> (<["set2" := zero_score]> ∅);
               completed := true; winner := Some "Split";
               start_time := Some 100%Z; end_time := Some 200%Z |}.
Proof.
  assert (Hw : winner_fits
                 {| team1 := "Aces"; team2 := "Blockers";
                    sets := {[ "set1" := score 21 19 ]};
                    completed := true; winner := Some "Split";
                    start_time := Some 100%Z; end_time := Some 200%Z |})
    by (cbn; lia).
  assert (Hk : (String.length "k" <= 512)%nat) by (cbn; lia).
  split; [exact Hk|]. split; [exact Hw|].
  rewrite (proj1 (proj2 (proj2 (save_game_round_trip "k" _ initial_world Hk Hw)))).
  vm_compute. reflexivity.
Defined.

(** ** The persistence adapter: teams *)




(** * Further properties of the standings *)

Lemma calculate_standings_run teams games :
  NoDup teams.*1 ->
  (forall g, g ∈ games.*2 -> counted teams g -> has_all_sets g) ->
  calculate_standings teams games
  = Some (sorted_desc ((fun p => standing_spec teams games.*2 p.1 p.2) <$> teams)).
Proof.
  intros Hnd Hsets. unfold calculate_standings.
  rewrite (initial_standings teams []) by exact Hnd. rewrite app_nil_l.
  set (l0 := (fun p => (p.1, zero_standing p.1 p.2)) <$> teams).
  assert (Hkeys : l0.*1 = teams.*1).
  { subst l0. rewrite <- list_fmap_compose. reflexivity. }
  rewrite (count_games_entries teams games.*2 l0); [|by rewrite Hkeys|done|done].
  do 2 f_equal. subst l0. unfold map_entries. rewrite <- !list_fmap_compose.
  apply list_fmap_ext. intros i [n td] _. cbn. apply games_effect_spec.
Qed.

(** ** The order of the games *)

Lemma sum_list_perm l1 l2 : l1 ≡ₚ l2 -> sum_list l1 = sum_list l2.
Proof.
  induction 1 as [|x l1 l2 _ IH|x y l|l1 l2 l3 _ IH1 _ IH2];
    unfold sum_list in *; cbn [foldr] in *; lia.
Qed.

Lemma total_perm f gs gs' : gs ≡ₚ gs' -> total f gs = total f gs'.
Proof. intros Hp. unfold total. apply sum_list_perm. by rewrite Hp. Qed.

Lemma standing_spec_perm teams gs gs' n td :
  gs ≡ₚ gs' -> standing_spec teams gs n td = standing_spec teams gs' n td.
Proof.
  intros Hp. unfold standing_spec. cbn zeta.
  assert (Hf : filter (counted teams) gs ≡ₚ filter (counted teams) gs') by (by rewrite Hp).
  rewrite !(total_perm _ _ _ Hf). reflexivity.
Qed.

(** The standings do not depend on the order in which the game dict lists
    its games: two dicts with the same games in any order give the same
    list, in the same order. *)
Theorem standings_any_game_order teams games games' :
  NoDup teams.*1 ->
  (forall g, g ∈ games.*2 -> counted teams g -> has_all_sets g) ->
  games ≡ₚ games' ->
  calculate_standings teams games' = calculate_standings teams games
  /\ is_Some (calculate_standings teams games).
Proof.
  intros Hnd Hsets Hp.
  assert (Hp2 : games.*2 ≡ₚ games'.*2) by (by rewrite Hp).
  rewrite (calculate_standings_run teams games Hnd Hsets).
  rewrite (calculate_standings_run teams games' Hnd).
  2:{ intros g Hg. apply Hsets. by rewrite Hp2. }
  split; [|eauto]. do 2 f_equal. apply list_fmap_ext. intros i [n td] _. cbn.
  symmetry. by apply standing_spec_perm.
Qed.

Lemma standings_any_game_order_witness :
  NoDup sample_teams.*1
  /\ calculate_standings sample_teams (reverse sample_games)
     = calculate_standings sample_teams sample_games.
Proof.
  assert (Hnd : NoDup sample_teams.*1) by (apply (bool_decide_unpack _); vm_compute; exact I).
  assert (Hall : Forall has_all_sets sample_games.*2)
    by (apply (bool_decide_unpack _); vm_compute; exact I).
  split; [exact Hnd|].
  refine (proj1 (standings_any_game_order sample_teams sample_games (reverse sample_games)
                   Hnd _ _)).
  - intros g Hg _. rewrite Forall_forall in Hall. apply Hall. exact Hg.
  - symmetry. apply reverse_Permutation.
Defined.

(** ** Before any game is completed *)

Lemma key_ge_not_lt x y : key_ge x y -> key_lt (sort_key x) (sort_key y) = false.
Proof.
  unfold key_ge, key_lt, sort_key. cbn [fst snd]. intros H.
  apply orb_false_iff. split; [apply Z.ltb_ge; lia|].
  apply andb_false_iff.
  destruct (Z.eq_dec (set_wins x) (set_wins y)) as [E|E].
  - right. apply Z.ltb_ge. lia.
  - left. apply Z.eqb_neq. exact E.
Qed.

Lemma sorted_desc_sorted_id l : StronglySorted key_ge l -> sorted_desc l = l.
Proof.
  induction 1 as [|x l Hs IH Hx]; [done|].
  cbn [sorted_desc foldr]. fold (sorted_desc l). rewrite IH.
  destruct l as [|y l]; [done|]. cbn [insert_desc].
  apply Forall_cons in Hx as [Hxy _]. by rewrite key_ge_not_lt.
Qed.

Lemma filter_none {A} (P : A -> Prop) `{forall x, Decision (P x)} l :
  (forall x, x ∈ l -> ~ P x) -> filter P l = [].
Proof.
  induction l as [|x l IH]; intros Hl; [done|].
  rewrite filter_cons_False by (apply Hl; left). apply IH. intros y Hy. apply Hl. by right.
Qed.

(** As long as no game is completed the standings are the registered teams
    in the order of the team dict, every counter at zero; the open games are
    not even looked into. *)
Theorem standings_before_completion teams games :
  NoDup teams.*1 ->
  (forall g, g ∈ games.*2 -> completed g = false) ->
  calculate_standings teams games
  = Some ((fun p => zero_standing p.1 p.2) <$> teams).
Proof.
  intros Hnd Hopen.
  assert (Hnone : filter (counted teams) games.*2 = []).
  { apply filter_none. intros g Hg (Hc & _). rewrite (Hopen g Hg) in Hc. done. }
  rewrite calculate_standings_run; [|done|].
  2:{ intros g Hg (Hc & _). rewrite (Hopen g Hg) in Hc. done. }
  f_equal.
  assert (Hz : (fun p : string * Team => standing_spec teams games.*2 p.1 p.2) <$> teams
               = (fun p => zero_standing p.1 p.2) <$> teams).
  { apply list_fmap_ext. intros i [n td] _. cbn. unfold standing_spec. cbn zeta.
    rewrite Hnone. reflexivity. }
  rewrite Hz. apply sorted_desc_sorted_id.
  clear. induction teams as [|[n td] teams IH]; [constructor|].
  cbn [fmap list_fmap]. constructor; [exact IH|].
  apply Forall_fmap, Forall_forall. intros p _. unfold key_ge. cbn. lia.
Qed.

Lemma standings_before_completion_witness :
  NoDup sample_teams.*1
  /\ calculate_standings sample_teams
       [("g3", sample_game "Comets" "Aces" false (score 5 0) (score 5 0))]
     = Some ((fun p => zero_standing p.1 p.2) <$> sample_teams).
Proof.
  assert (Hnd : NoDup sample_teams.*1) by (apply (bool_decide_unpack _); vm_compute; exact I).
  split; [exact Hnd|].
  apply (standings_before_completion sample_teams _ Hnd).
  intros g Hg. cbn in Hg. apply list_elem_of_singleton in Hg as ->. reflexivity.
Defined.

(** ** Standings of what the store holds *)




(** ** What the standings add up to *)

Lemma sum_list_cons x l : sum_list (x :: l) = (x + sum_list l)%Z.
Proof. reflexivity. Qed.

Lemma sum_list_add {A} (f g : A -> Z) l :
  sum_list ((fun x => f x + g x)%Z <$> l) = (sum_list (f <$> l) + sum_list (g <$> l))%Z.
Proof.
  induction l as [|x l IH]; [done|].
  rewrite !fmap_cons, !sum_list_cons, IH. lia.
Qed.

Lemma sum_list_sub {A} (f g : A -> Z) l :
  sum_list ((fun x => f x - g x)%Z <$> l) = (sum_list (f <$> l) - sum_list (g <$> l))%Z.
Proof.
  induction l as [|x l IH]; [done|].
  rewrite !fmap_cons, !sum_list_cons, IH. lia.
Qed.

Lemma sum_list_ext {A} (f g : A -> Z) l :
  (forall x, x ∈ l -> f x = g x) -> sum_list (f <$> l) = sum_list (g <$> l).
Proof.
  intros H. f_equal. apply list_fmap_ext. intros i x Hx. apply H.
  eapply list_elem_of_lookup_2. exact Hx.
Qed.

Lemma sum_list_swap {A B} (f : A -> B -> Z) la lb :
  sum_list ((fun a => sum_list (f a <$> lb)) <$> la)
  = sum_list ((fun b => sum_list ((fun a => f a b) <$> la)) <$> lb).
Proof.
  induction la as [|a la IH].
  - cbn. symmetry. apply sum_list_zero. done.
  - rewrite fmap_cons, sum_list_cons, IH. rewrite <- sum_list_add.
    apply sum_list_ext. intros b _. rewrite fmap_cons, sum_list_cons. reflexivity.
Qed.

Lemma sum_when_absent {V} (teams : list (string * V)) t x :
  t ∉ teams.*1 -> sum_list ((fun p => when (p.1 = t) x) <$> teams) = 0%Z.
Proof.
  induction teams as [|[n v] teams IH]; [done|]. cbn [fmap list_fmap fst].
  intros [Hne Hin]%not_elem_of_cons.
  change (sum_list (when (n = t) x :: ((fun p : string * V => when (p.1 = t) x) <$> teams))
          = 0%Z).
  rewrite sum_list_cons, IH by done. unfold when.
  rewrite decide_False by done. reflexivity.
Qed.

Lemma sum_when_key {V} (teams : list (string * V)) t x :
  NoDup teams.*1 -> t ∈ teams.*1 ->
  sum_list ((fun p => when (p.1 = t) x) <$> teams) = x.
Proof.
  induction teams as [|[n v] teams IH]; cbn [fmap list_fmap fst].
  - intros _ Hin. by apply elem_of_nil in Hin.
  - intros [Hn Hnd]%NoDup_cons Hin.
    change (sum_list (when (n = t) x :: ((fun p : string * V => when (p.1 = t) x) <$> teams))
            = x).
    rewrite sum_list_cons. unfold when at 1.
    apply elem_of_cons in Hin as [->|Hin].
    + rewrite decide_True by done. rewrite sum_when_absent by done. lia.
    + rewrite decide_False by (intros ->; done). rewrite IH by done. lia.
Qed.

Lemma when_and (A B : Prop) `{Decision A, Decision B} x :
  when (A /\ B) x = when A (when B x).
Proof. unfold when. repeat case_decide; tauto || reflexivity. Qed.

Lemma sum_teams_sets {V} (teams : list (string * V)) t1 t2 (a b : SetScore -> Z) ss :
  NoDup teams.*1 -> t1 ∈ teams.*1 -> t2 ∈ teams.*1 ->
  sum_list ((fun p => sum_list ((fun s => when (p.1 = t1) (a s) + when (p.1 = t2) (b s))%Z
                                  <$> ss)) <$> teams)
  = sum_list ((fun s => a s + b s)%Z <$> ss).
Proof.
  intros Hnd H1 H2.
  rewrite (sum_list_swap (fun p s => when (p.1 = t1) (a s) + when (p.1 = t2) (b s))%Z).
  apply sum_list_ext. intros s _.
  rewrite (sum_list_add (fun p => when (p.1 = t1) (a s)) (fun p => when (p.1 = t2) (b s))).
  rewrite !sum_when_key by done. reflexivity.
Qed.

Lemma sum_teams_total {V} (teams : list (string * V)) (f : string -> Game -> Z) gs :
  sum_list ((fun p => total (f p.1) gs) <$> teams)
  = sum_list ((fun g => sum_list ((fun p => f p.1 g) <$> teams)) <$> gs).
Proof. unfold total. apply (sum_list_swap (fun p g => f p.1 g)). Qed.

Lemma sum_teams_points_for teams g :
  NoDup teams.*1 -> counted teams g ->
  sum_list ((fun p : string * Team => game_points_for p.1 g) <$> teams)
  = sum_list ((fun s => team1_score s + team2_score s)%Z <$> set_scores g).
Proof.
  intros Hnd (_ & H1 & H2). unfold game_points_for.
  exact (sum_teams_sets teams (team1 g) (team2 g) team1_score team2_score _ Hnd H1 H2).
Qed.

Lemma sum_teams_points_against teams g :
  NoDup teams.*1 -> counted teams g ->
  sum_list ((fun p : string * Team => game_points_against p.1 g) <$> teams)
  = sum_list ((fun s => team2_score s + team1_score s)%Z <$> set_scores g).
Proof.
  intros Hnd (_ & H1 & H2). unfold game_points_against.
  exact (sum_teams_sets teams (team1 g) (team2 g) team2_score team1_score _ Hnd H1 H2).
Qed.

Lemma sum_teams_set_wins teams g :
  NoDup teams.*1 -> counted teams g ->
  sum_list ((fun p : string * Team => game_set_wins p.1 g) <$> teams)
  = sum_list ((fun s => when (team1_wins_set s) 1 + when (team2_wins_set s) 1)%Z
                <$> set_scores g).
Proof.
  intros Hnd (_ & H1 & H2). unfold game_set_wins.
  rewrite <- (sum_teams_sets teams (team1 g) (team2 g)
                (fun s => when (team1_wins_set s) 1) (fun s => when (team2_wins_set s) 1)
                _ Hnd H1 H2).
  apply sum_list_ext. intros p _. apply sum_list_ext. intros s _.
  by rewrite !when_and.
Qed.

Lemma sum_teams_set_losses teams g :
  NoDup teams.*1 -> counted teams g ->
  sum_list ((fun p : string * Team => game_set_losses p.1 g) <$> teams)
  = sum_list ((fun s => when (team2_wins_set s) 1 + when (team1_wins_set s) 1)%Z
                <$> set_scores g).
Proof.
  intros Hnd (_ & H1 & H2). unfold game_set_losses.
  rewrite <- (sum_teams_sets teams (team1 g) (team2 g)
                (fun s => when (team2_wins_set s) 1) (fun s => when (team1_wins_set s) 1)
                _ Hnd H1 H2).
  apply sum_list_ext. intros p _. apply sum_list_ext. intros s _.
  by rewrite !when_and.
Qed.

Lemma sum_teams_played teams g :
  NoDup teams.*1 -> counted teams g ->
  sum_list ((fun p : string * Team => game_played p.1 g) <$> teams) = 2%Z.
Proof.
  intros Hnd (_ & H1 & H2). unfold game_played.
  rewrite (sum_list_add (fun p : string * Team => when (p.1 = team1 g) 1)
             (fun p => when (p.1 = team2 g) 1)).
  rewrite !sum_when_key by done. reflexivity.
Qed.

Lemma sum_list_const {A} (l : list A) c : sum_list ((fun _ => c) <$> l) = (c * Z.of_nat (length l))%Z.
Proof.
  induction l as [|x l IH]; [cbn; lia|].
  rewrite fmap_cons, sum_list_cons, IH. cbn [length]. lia.
Qed.

Lemma counted_filter teams (gs : list Game) g :
  g ∈ filter (counted teams) gs -> counted teams g.
Proof. intros Hg. by apply list_elem_of_filter in Hg as [? _]. Qed.

(** Across the table the standings balance.  The points for of all teams
    add up to the points against of all teams, so the differentials add up
    to zero; the sets won add up to the sets lost; and the games played add
    up to twice the number of counted games. *)
Theorem standings_balance teams games :
  NoDup teams.*1 ->
  (forall g, g ∈ games.*2 -> counted teams g -> has_all_sets g) ->
  exists result,
    calculate_standings teams games = Some result
    /\ sum_list (points_for <$> result) = sum_list (points_against <$> result)
    /\ sum_list (point_differential <$> result) = 0%Z
    /\ sum_list (set_wins <$> result) = sum_list (set_losses <$> result)
    /\ sum_list (games_played <$> result)
       = (2 * Z.of_nat (length (filter (counted teams) games.*2)))%Z.
Proof.
  intros Hnd Hsets. rewrite (calculate_standings_run teams games Hnd Hsets).
  eexists. split; [reflexivity|].
  set (cs := filter (counted teams) games.*2).
  assert (Hcs : forall g, g ∈ cs -> counted teams g) by (intros g; apply counted_filter).
  assert (Hsum : forall (field : Standing -> Z) (f : string -> Game -> Z),
             (forall n td, field (standing_spec teams games.*2 n td) = total (f n) cs) ->
             sum_list (field <$> sorted_desc
                         ((fun p => standing_spec teams games.*2 p.1 p.2) <$> teams))
             = sum_list ((fun g => sum_list ((fun p : string * Team => f p.1 g) <$> teams))
                           <$> cs)).
  { intros field f Hfield.
    rewrite (sum_list_perm _ (field <$> ((fun p => standing_spec teams games.*2 p.1 p.2)
                                           <$> teams)))
      by (by rewrite sorted_desc_perm).
    rewrite <- list_fmap_compose. rewrite <- sum_teams_total.
    apply sum_list_ext. intros [n td] _. cbn. apply Hfield. }
  assert (Hpf := Hsum points_for game_points_for (fun n td => eq_refl)).
  assert (Hpa := Hsum points_against game_points_against (fun n td => eq_refl)).
  assert (Hw := Hsum set_wins game_set_wins (fun n td => eq_refl)).
  assert (Hl := Hsum set_losses game_set_losses (fun n td => eq_refl)).
  assert (Hgp := Hsum games_played game_played (fun n td => eq_refl)).
  assert (Hfa : sum_list (points_for <$> sorted_desc
                  ((fun p => standing_spec teams games.*2 p.1 p.2) <$> teams))
                = sum_list (points_against <$> sorted_desc
                  ((fun p => standing_spec teams games.*2 p.1 p.2) <$> teams))).
  { rewrite Hpf, Hpa. apply sum_list_ext. intros g Hg.
    rewrite sum_teams_points_for, sum_teams_points_against by auto.
    apply sum_list_ext. intros s _. lia. }
  split; [exact Hfa|]. split; [|split].
  - rewrite (sum_list_perm _ (point_differential <$>
               ((fun p => standing_spec teams games.*2 p.1 p.2) <$> teams)))
      by (by rewrite sorted_desc_perm).
    rewrite (sum_list_perm _ (points_for <$>
               ((fun p => standing_spec teams games.*2 p.1 p.2) <$> teams))) in Hfa
      by (by rewrite sorted_desc_perm).
    rewrite (sum_list_perm (points_against <$> _) (points_against <$>
               ((fun p => standing_spec teams games.*2 p.1 p.2) <$> teams))) in Hfa
      by (by rewrite sorted_desc_perm).
    rewrite <- !list_fmap_compose in *.
    rewrite (sum_list_ext _ (fun p : string * Team =>
                points_for (standing_spec teams games.*2 p.1 p.2)
                - points_against (standing_spec teams games.*2 p.1 p.2))%Z)
      by (intros p _; reflexivity).
    rewrite sum_list_sub. unfold compose in Hfa. lia.
  - rewrite Hw, Hl. apply sum_list_ext. intros g Hg.
    rewrite sum_teams_set_wins, sum_teams_set_losses by auto.
    apply sum_list_ext. intros s _. lia.
  - rewrite Hgp.
    rewrite (sum_list_ext _ (fun _ => 2%Z) cs)
      by (intros g Hg; apply sum_teams_played; auto).
    apply sum_list_const.
Qed.

Lemma standings_balance_witness :
  NoDup sample_teams.*1
  /\ Forall has_all_sets sample_games.*2
  /\ exists result,
      calculate_standings sample_teams sample_games = Some result
      /\ sum_list (point_differential <$> result) = 0%Z.
Proof.
  assert (Hnd : NoDup sample_teams.*1) by (apply (bool_decide_unpack _); vm_compute; exact I).
  assert (Hall : Forall has_all_sets sample_games.*2)
    by (apply (bool_decide_unpack _); vm_compute; exact I).
  split; [exact Hnd|]. split; [exact Hall|].
  destruct (standings_balance sample_teams sample_games Hnd) as (result & Hr & _ & Hz & _).
  - intros g Hg _. rewrite Forall_forall in Hall. apply Hall. exact Hg.
  - exists result. split; [exact Hr | exact Hz].
Defined.


(** ** Bounds on an entry *)

Lemma sum_list_le {A} (f g : A -> Z) l :
  (forall x, x ∈ l -> (f x <= g x)%Z) -> (sum_list (f <$> l) <= sum_list (g <$> l))%Z.
Proof.
  induction l as [|x l IH]; intros H; [done|].
  rewrite !fmap_cons, !sum_list_cons.
  assert (f x <= g x)%Z by (apply H; left).
  assert (sum_list (f <$> l) <= sum_list (g <$> l))%Z by (apply IH; intros y Hy; apply H; by right).
  lia.
Qed.

Lemma sum_list_le2 {A} (f g h : A -> Z) l :
  (forall x, x ∈ l -> (f x + g x <= h x)%Z) ->
  (sum_list (f <$> l) + sum_list (g <$> l) <= sum_list (h <$> l))%Z.
Proof.
  intros H. rewrite <- (sum_list_add f g l). apply sum_list_le. exact H.
Qed.

Lemma sum_list_scale {A} (f : A -> Z) c l :
  sum_list ((fun x => c * f x)%Z <$> l) = (c * sum_list (f <$> l))%Z.
Proof.
  induction l as [|x l IH]; [cbn; lia|].
  rewrite !fmap_cons, !sum_list_cons, IH. lia.
Qed.

Lemma sum_list_nonneg {A} (f : A -> Z) l :
  (forall x, x ∈ l -> (0 <= f x)%Z) -> (0 <= sum_list (f <$> l))%Z.
Proof.
  intros H. rewrite <- (sum_list_zero (fun _ : A => 0%Z) l) by done.
  apply sum_list_le. exact H.
Qed.

Lemma set_scores_length g : length (set_scores g) = SETS_PER_GAME.
Proof. unfold set_scores, set_numbers. by rewrite length_fmap, length_seq. Qed.

Lemma game_sets_bound n g :
  (0 <= game_played n g)%Z /\ (0 <= game_set_wins n g)%Z /\ (0 <= game_set_losses n g)%Z
  /\ (game_set_wins n g + game_set_losses n g
      <= Z.of_nat SETS_PER_GAME * game_played n g)%Z.
Proof.
  assert (Hp : (0 <= game_played n g)%Z).
  { unfold game_played, when. repeat case_decide; lia. }
  split; [exact Hp|]. split; [|split].
  - apply sum_list_nonneg. intros s _. unfold when. repeat case_decide; lia.
  - apply sum_list_nonneg. intros s _. unfold when. repeat case_decide; lia.
  - unfold game_set_wins, game_set_losses.
    rewrite <- (set_scores_length g).
    rewrite Z.mul_comm, <- (sum_list_const (set_scores g) (game_played n g)).
    apply sum_list_le2. intros s _.
    unfold game_played, when, team1_wins_set, team2_wins_set.
    repeat case_decide; first [lia | exfalso; intuition lia].
Qed.

Lemma game_points_nonneg n g :
  (forall s, s ∈ set_scores g -> nonneg s) ->
  (0 <= game_points_for n g)%Z /\ (0 <= game_points_against n g)%Z.
Proof.
  intros Hs. split; apply sum_list_nonneg; intros s [H1 H2]%Hs;
    unfold when; repeat case_decide; lia.
Qed.

(** Every entry of the standings is within bounds: games played, sets won
    and sets lost are not negative, and sets won plus sets lost is at most
    two per game played (less when a set was tied).  When no score of a
    game is negative, points for and points against are not negative
    either. *)
Theorem standings_bounds teams games :
  NoDup teams.*1 ->
  (forall g, g ∈ games.*2 -> counted teams g -> has_all_sets g) ->
  exists result,
    calculate_standings teams games = Some result
    /\ Forall (fun e => (0 <= games_played e)%Z /\ (0 <= set_wins e)%Z
                        /\ (0 <= set_losses e)%Z
                        /\ (set_wins e + set_losses e <= 2 * games_played e)%Z) result
    /\ ((forall g s, g ∈ games.*2 -> s ∈ set_scores g -> nonneg s) ->
        Forall (fun e => (0 <= points_for e)%Z /\ (0 <= points_against e)%Z) result).
Proof.
  intros Hnd Hsets. rewrite (calculate_standings_run teams games Hnd Hsets).
  eexists. split; [reflexivity|].
  set (cs := filter (counted teams) games.*2).
  split.
  - rewrite sorted_desc_perm. apply Forall_fmap, Forall_forall. intros [n td] _.
    cbn [compose standing_spec games_played set_wins set_losses fst snd]. fold cs.
    unfold total.
    assert (Hb := fun g => game_sets_bound n g).
    split; [apply sum_list_nonneg; intros g _; apply Hb|].
    split; [apply sum_list_nonneg; intros g _; apply Hb|].
    split; [apply sum_list_nonneg; intros g _; apply Hb|].
    rewrite <- (sum_list_scale (game_played n) 2 cs).
    apply sum_list_le2. intros g _. destruct (Hb g) as (_ & _ & _ & H). exact H.
  - intros Hnn. rewrite sorted_desc_perm. apply Forall_fmap, Forall_forall. intros [n td] _.
    cbn [compose standing_spec points_for points_against fst snd]. fold cs. unfold total.
    split; apply sum_list_nonneg; intros g Hg;
      apply game_points_nonneg; intros s Hs; apply (Hnn g s); [|done| |done];
      by apply list_elem_of_filter in Hg as [_ ?].
Qed.

Lemma standings_bounds_witness :
  NoDup sample_teams.*1
  /\ Forall has_all_sets sample_games.*2
  /\ exists result,
      calculate_standings sample_teams sample_games = Some result
      /\ Forall (fun e => (set_wins e + set_losses e <= 2 * games_played e)%Z) result.
Proof.
  assert (Hnd : NoDup sample_teams.*1) by (apply (bool_decide_unpack _); vm_compute; exact I).
  assert (Hall : Forall has_all_sets sample_games.*2)
    by (apply (bool_decide_unpack _); vm_compute; exact I).
  split; [exact Hnd|]. split; [exact Hall|].
  destruct (standings_bounds sample_teams sample_games Hnd) as (result & Hr & Hb & _).
  - intros g Hg _. rewrite Forall_forall in Hall. apply Hall. exact Hg.
  - exists result. split; [exact Hr|]. eapply Forall_impl; [exact Hb|].
    intros e (_ & _ & _ & H). exact H.
Defined.


(** * The connection manager *)

Lemma cm_send_all closed m l :
  ConnectionManager.send_all closed m l
  = ((fun ws => (ws, m)) <$> filter (fun ws => closed ws = false) l,
     filter (fun ws => closed ws = true) l).
Proof.
  induction l as [|ws l IH]; [done|]. cbn [ConnectionManager.send_all]. rewrite IH.
  destruct (closed ws) eqn:Hc.
  - rewrite (filter_cons_False _ ws) by (rewrite Hc; done).
    rewrite (filter_cons_True _ ws) by done. reflexivity.
  - rewrite (filter_cons_True _ ws) by done.
    rewrite (filter_cons_False _ ws) by (rewrite Hc; done). reflexivity.
Qed.

Lemma cm_disconnect_head ws l : ConnectionManager.disconnect ws (ws :: l) = l.
Proof.
  unfold ConnectionManager.disconnect. rewrite decide_True by left.
  cbn. by rewrite decide_True.
Qed.

Lemma cm_disconnect_skip ws x l :
  x <> ws ->
  ConnectionManager.disconnect ws (x :: l) = x :: ConnectionManager.disconnect ws l.
Proof.
  intros Hne. unfold ConnectionManager.disconnect.
  destruct (decide (ws ∈ l)) as [Hin|Hin].
  - rewrite decide_True by (by right). cbn. by rewrite decide_False.
  - rewrite decide_False; [done|]. intros [->|?]%elem_of_cons; done.
Qed.

Lemma cm_disconnect_all_skip x dead : forall l,
  x ∉ dead ->
  foldl (fun act ws => ConnectionManager.disconnect ws act) (x :: l) dead
  = x :: foldl (fun act ws => ConnectionManager.disconnect ws act) l dead.
Proof.
  induction dead as [|d dead IH]; intros l Hx; [done|].
  apply not_elem_of_cons in Hx as [Hne Hx]. cbn [foldl].
  rewrite cm_disconnect_skip by done. by apply IH.
Qed.

(** A broadcast sends the message once to every connected socket whose send
    does not raise, in the order of connection; a socket whose send raises
    does not keep the later ones from being served.  Afterwards exactly the
    sockets whose send raised are gone from the active list, and the others
    keep their order. *)
Theorem broadcast_delivers closed m active :
  ConnectionManager.broadcast closed m active
  = ((fun ws => (ws, m)) <$> filter (fun ws => closed ws = false) active,
     filter (fun ws => closed ws = false) active).
Proof.
  unfold ConnectionManager.broadcast. rewrite cm_send_all. f_equal.
  induction active as [|ws l IH]; [done|].
  destruct (closed ws) eqn:Hc.
  - rewrite (filter_cons_True _ ws) by done.
    rewrite (filter_cons_False _ ws) by (rewrite Hc; done).
    cbn [foldl]. rewrite cm_disconnect_head. exact IH.
  - rewrite (filter_cons_False _ ws) by (rewrite Hc; done).
    rewrite (filter_cons_True _ ws) by done.
    rewrite cm_disconnect_all_skip; [by rewrite IH|].
    intros Hin. apply list_elem_of_filter in Hin as [Hd _]. congruence.
Qed.

Lemma cm_remove_absent ws l : ws ∉ l -> ConnectionManager.remove ws l = l.
Proof.
  induction l as [|x l IH]; [done|]. intros [Hne Hin]%not_elem_of_cons.
  cbn. rewrite decide_False by done. f_equal. by apply IH.
Qed.

Lemma cm_remove_elem ws x l :
  NoDup l -> x ∈ ConnectionManager.remove ws l <-> x ∈ l /\ x <> ws.
Proof.
  induction l as [|y l IH]; intros Hnd.
  - cbn. rewrite elem_of_nil. tauto.
  - apply NoDup_cons in Hnd as [Hy Hnd]. cbn [ConnectionManager.remove].
    destruct (decide (y = ws)) as [->|Hne].
    + rewrite elem_of_cons. split.
      * intros Hx. split; [by right|]. intros ->. done.
      * intros [[->|Hx] Hne]; done.
    + rewrite !elem_of_cons, IH by done. split.
      * intros [->|[Hx Hxne]]; [split; [by left|done]|split; [by right|done]].
      * intros [[->|Hx] Hxne]; [by left|right; done].
Qed.

(** Connecting and disconnecting.  Disconnecting a socket that is not
    connected changes nothing, so a second disconnect is harmless;
    disconnecting a socket right after it connected gives the list back;
    and when every socket is listed once, a disconnect removes that socket
    and no other. *)
Theorem connect_disconnect ws active :
  (ws ∉ active -> ConnectionManager.disconnect ws active = active)
  /\ (ws ∉ active ->
      ConnectionManager.disconnect ws (ConnectionManager.connect ws active) = active)
  /\ (NoDup active ->
      forall x, x ∈ ConnectionManager.disconnect ws active <-> x ∈ active /\ x <> ws)
  /\ (NoDup active ->
      ConnectionManager.disconnect ws (ConnectionManager.disconnect ws active)
      = ConnectionManager.disconnect ws active).
Proof.
  split; [|split; [|split]].
  - intros Hin. unfold ConnectionManager.disconnect. by rewrite decide_False.
  - intros Hin. unfold ConnectionManager.disconnect, ConnectionManager.connect.
    rewrite decide_True by (apply elem_of_app; right; left).
    induction active as [|x l IH]; cbn.
    + by rewrite decide_True.
    + apply not_elem_of_cons in Hin as [Hne Hin].
      rewrite decide_False by done. f_equal. by apply IH.
  - intros Hnd x. unfold ConnectionManager.disconnect.
    destruct (decide (ws ∈ active)) as [Hin|Hin].
    + by apply cm_remove_elem.
    + split; [|tauto]. intros Hx. split; [done|]. intros ->. done.
  - intros Hnd. unfold ConnectionManager.disconnect.
    destruct (decide (ws ∈ active)) as [Hin|Hin].
    + rewrite decide_False; [done|].
      intros Hx. apply cm_remove_elem in Hx as [_ Hne]; done.
    + by rewrite decide_False.
Qed.

Lemma connect_disconnect_witness :
  ConnectionManager.disconnect 7 (ConnectionManager.connect 7 [3; 5]%nat) = [3; 5]%nat.
Proof.
  apply (proj1 (proj2 (connect_disconnect 7 [3; 5]%nat))).
  intros H. inversion H as [|? ? ? H1]; subst. inversion H1 as [|? ? ? H2]; subst.
  inversion H2.
Defined.


(** * The standings of the pages and of the API *)

Lemma od_alter_page f g k l :
  (forall e, g (page_entry e) = page_entry (f e)) ->
  od_alter g k (page_entries l) = page_entries (od_alter f k l).
Proof.
  intros Hfg. induction l as [|[k' v] l IH]; [done|].
  unfold page_entries in *. cbn [fmap list_fmap fst snd od_alter].
  destruct (decide (k' = k)); cbn [fmap list_fmap fst snd].
  - by rewrite Hfg.
  - f_equal. exact IH.
Qed.

Lemma od_mem_page k l : od_mem k (page_entries l) = od_mem k l.
Proof.
  induction l as [|[k' v] l IH]; [done|].
  unfold page_entries in *. cbn [fmap list_fmap fst snd od_mem]. by rewrite IH.
Qed.

Lemma od_set_page k e l :
  od_set k (page_entry e) (page_entries l) = page_entries (od_set k e l).
Proof.
  induction l as [|[k' v] l IH]; [done|].
  unfold page_entries in *. cbn [fmap list_fmap fst snd od_set].
  destruct (decide (k' = k)); cbn [fmap list_fmap fst snd]; [done|].
  f_equal. exact IH.
Qed.

Lemma od_alter_page_points_for x k l :
  od_alter (Kij.add_points_for x) k (page_entries l)
  = page_entries (od_alter (add_points_for x) k l).
Proof. by apply od_alter_page. Qed.

Lemma od_alter_page_points_against x k l :
  od_alter (Kij.add_points_against x) k (page_entries l)
  = page_entries (od_alter (add_points_against x) k l).
Proof. by apply od_alter_page. Qed.

Lemma od_alter_page_set_wins x k l :
  od_alter (Kij.add_set_wins x) k (page_entries l)
  = page_entries (od_alter (add_set_wins x) k l).
Proof. by apply od_alter_page. Qed.

Lemma od_alter_page_set_losses x k l :
  od_alter (Kij.add_set_losses x) k (page_entries l)
  = page_entries (od_alter (add_set_losses x) k l).
Proof. by apply od_alter_page. Qed.

Lemma od_alter_page_games_played x k l :
  od_alter (Kij.add_games_played x) k (page_entries l)
  = page_entries (od_alter (add_games_played x) k l).
Proof. by apply od_alter_page. Qed.

Lemma od_alter_page_differential k l :
  od_alter Kij.set_differential k (page_entries l)
  = page_entries (od_alter set_differential k l).
Proof. by apply od_alter_page. Qed.

Create Rewrite HintDb page_db.
#[local] Hint Rewrite od_alter_page_points_for od_alter_page_points_against
  od_alter_page_set_wins od_alter_page_set_losses od_alter_page_games_played
  od_alter_page_differential : page_db.

Ltac page_alters := autorewrite with page_db.

Lemma count_set_page t1 t2 s1 s2 l :
  Kij.count_set t1 t2 s1 s2 (page_entries l) = page_entries (count_set t1 t2 s1 s2 l).
Proof.
  unfold Kij.count_set, count_set.
  destruct (bool_decide (s1 > s2)%Z); [|destruct (bool_decide (s2 > s1)%Z)];
    page_alters; reflexivity.
Qed.

Lemma count_sets_page g t1 t2 sns : forall l,
  Kij.count_sets g t1 t2 sns (page_entries l) = page_entries <$> count_sets g t1 t2 sns l.
Proof.
  induction sns as [|sn sns IH]; intros l; [done|].
  cbn [Kij.count_sets count_sets]. destruct (sets g !! set_key sn); [|done].
  rewrite count_set_page. apply IH.
Qed.

Lemma count_game_page l g :
  Kij.count_game (page_entries l) g = page_entries <$> count_game l g.
Proof.
  unfold Kij.count_game, count_game. rewrite !od_mem_page.
  destruct (completed g); cbn [negb]; [|done].
  destruct (od_mem (team1 g) l), (od_mem (team2 g) l); cbn [negb orb andb]; try done.
  page_alters. rewrite count_sets_page.
  destruct (count_sets g (team1 g) (team2 g) set_numbers _); cbn [fmap option_fmap option_map];
    [|done].
  page_alters. reflexivity.
Qed.

Lemma count_games_page gs : forall l,
  Kij.count_games (page_entries l) gs = page_entries <$> count_games l gs.
Proof.
  induction gs as [|g gs IH]; intros l; [done|].
  cbn [Kij.count_games count_games]. rewrite count_game_page.
  destruct (count_game l g); cbn [fmap option_fmap option_map]; [|done]. apply IH.
Qed.

Lemma initial_page teams : forall acc,
  foldl (fun acc '(team_name, team_data) => od_set team_name (Kij.zero_entry team_data) acc)
        (page_entries acc) teams
  = page_entries
      (foldl (fun acc '(team_name, td) => od_set team_name (zero_standing team_name td) acc)
             acc teams).
Proof.
  induction teams as [|[n td] teams IH]; intros acc; [done|].
  cbn [foldl]. rewrite <- IH. f_equal.
  exact (od_set_page n (zero_standing n td) acc).
Qed.

Lemma od_alter_keyed f k l :
  (forall e, st_team (f e) = st_team e) -> keyed l -> keyed (od_alter f k l).
Proof.
  intros Hf. unfold keyed. induction l as [|[k' v] l IH]; [done|].
  intros [Hv Hl]%Forall_cons. cbn [od_alter].
  destruct (decide (k' = k)); constructor; cbn in *; auto. by rewrite Hf.
Qed.

Lemma od_set_keyed k td l : keyed l -> keyed (od_set k (zero_standing k td) l).
Proof.
  unfold keyed. induction l as [|[k' v] l IH]; intros Hl.
  - by repeat constructor.
  - apply Forall_cons in Hl as [Hv Hl]. cbn [od_set].
    destruct (decide (k' = k)) as [->|]; constructor; cbn in *; auto.
Qed.

Lemma count_set_keyed t1 t2 s1 s2 l : keyed l -> keyed (count_set t1 t2 s1 s2 l).
Proof.
  intros Hl. unfold count_set.
  destruct (bool_decide (s1 > s2)%Z); [|destruct (bool_decide (s2 > s1)%Z)];
    repeat (apply od_alter_keyed; [reflexivity|]); exact Hl.
Qed.

Lemma count_sets_keyed g t1 t2 sns : forall l l',
  keyed l -> count_sets g t1 t2 sns l = Some l' -> keyed l'.
Proof.
  induction sns as [|sn sns IH]; intros l l' Hl; cbn [count_sets].
  - by intros [= <-].
  - destruct (sets g !! set_key sn); [|done]. apply IH. by apply count_set_keyed.
Qed.

Lemma count_game_keyed l g l' : keyed l -> count_game l g = Some l' -> keyed l'.
Proof.
  intros Hl. unfold count_game.
  destruct (negb (completed g)); [by intros [= <-]|].
  destruct (negb (od_mem (team1 g) l) || negb (od_mem (team2 g) l)); [by intros [= <-]|].
  destruct (count_sets g (team1 g) (team2 g) set_numbers _) as [l1|] eqn:Hc; [|done].
  intros [= <-]. repeat (apply od_alter_keyed; [reflexivity|]).
  eapply count_sets_keyed; [|exact Hc].
  repeat (apply od_alter_keyed; [reflexivity|]). exact Hl.
Qed.

Lemma count_games_keyed gs : forall l l',
  keyed l -> count_games l gs = Some l' -> keyed l'.
Proof.
  induction gs as [|g gs IH]; intros l l' Hl; cbn [count_games].
  - by intros [= <-].
  - destruct (count_game l g) as [l1|] eqn:Hg; [|done].
    apply IH. eapply count_game_keyed; [exact Hl | exact Hg].
Qed.

Lemma initial_keyed teams : forall acc,
  keyed acc ->
  keyed (foldl (fun acc '(team_name, td) => od_set team_name (zero_standing team_name td) acc)
               acc teams).
Proof.
  induction teams as [|[n td] teams IH]; intros acc Hacc; [done|].
  cbn [foldl]. apply IH. by apply od_set_keyed.
Qed.

(** The pages and the API compute the same standings from the same teams
    and games, for every input: where one fails on a game without its sets
    the other fails too, and otherwise the list of the API holds, for each
    team name, the very counters that the dict of the pages holds under that
    name (the API's list is the pages' dict, sorted). *)
Theorem pages_agree_with_api teams games :
  match Kij.calculate_standings teams games, calculate_standings teams games with
  | Some page, Some api => (fun e => (st_team e, page_entry e)) <$> api ≡ₚ page
  | None, None => True
  | _, _ => False
  end.
Proof.
  unfold Kij.calculate_standings, calculate_standings.
  change (@nil (string * Kij.Entry)) with (page_entries []).
  rewrite initial_page, count_games_page.
  set (l0 := foldl _ [] teams).
  assert (Hk0 : keyed l0) by (apply initial_keyed; constructor).
  destruct (count_games l0 games.*2) as [raw|] eqn:Hraw; cbn [fmap option_fmap option_map];
    [|exact I].
  assert (Hk : keyed raw) by (eapply count_games_keyed; [exact Hk0 | exact Hraw]).
  rewrite sorted_desc_perm. rewrite <- list_fmap_compose.
  unfold page_entries. 
  assert (Heq : (fun e => (st_team e, page_entry e)) ∘ snd <$> raw
                = (fun p => (p.1, page_entry p.2)) <$> raw).
  { apply list_fmap_ext. intros i p Hp. cbn.
    unfold keyed in Hk. rewrite Forall_forall in Hk.
    rewrite (Hk p) by (eapply list_elem_of_lookup_2; exact Hp). reflexivity. }
  rewrite Heq. reflexivity.
Qed.
